(** * Client scripts of the workspace dashboard

    A shallow embedding of the two script bundles of
    [src/templates/scripts.py] ([MAIN_PAGE_JS] for the listing page and
    [DETAIL_PAGE_JS] for the detail page), together with the properties
    the specification states about them.

    The model:
    - [Js]: the JavaScript number-to-text conversions the scripts use
      ([toFixed], the concatenation of a number with a string).
    - [Charts]: [formatBytes] and [renderSparkline].
    - [Bundle]: the text of the listing bundle that reaches the browser,
      and the scan that shows it to be a syntax error.
    - [Page]: a page whose bundle has run, as a state machine driven by
      browser events: timers ([setInterval], [setTimeout],
      [clearInterval]), requests that settle later, the buttons, the
      terminal socket, the log stream and the creation poll; and the
      documents as they are served, with or without their bundle.
    - [Theme], [Escaping], [Schedules]: the theme toggle of the document
      shell, the names the detail page hands to its script, and the
      schedule card.

    The properties:
    - [ChartProps], [ChartMoreProps]: byte formatting and the sparkline.
    - [TimerProps]: how the timer table evolves while time passes.
    - [ListingProps]: the listing page as it is served.
    - [SchedulerProps]: the Live Refresh Scheduler, the terminal session
      and the log stream.
    - [PollProps]: the creation poll.
    - [DispatchProps], [RequestProps]: the Action Dispatcher and the
      arming of the delete buttons.
    - [SessionProps], [PointerProps], [ToastProps]: the terminal and the
      log stream, the pointer listeners, the toast.
    - [ThemeProps], [EscapingProps], [ScheduleProps].
*)

From Stdlib Require Import QArith.
From stdpp Require Import gmap strings list pretty.

Local Open Scope Z_scope.

(* ===================================================================== *)
(** ** Numbers as text *)
(* ===================================================================== *)

Module Js.

(** JavaScript numbers are doubles.  The sample values the scripts
    format are integers (millicores, bytes), and the quotients formed
    from them are taken here in exact rational arithmetic. *)

(** [n + ''] for an integer [n]. *)
Definition numToString (n : Z) : string := pretty n.

(** The integer [n] for which [n - x] is as close to zero as possible,
    the larger one when there are two: the rounding of
    [Number.prototype.toFixed], for [x >= 0]. *)
Definition nearest (x : Q) : Z :=
  (2 * Qnum x + Z.pos (Qden x)) / (2 * Z.pos (Qden x)).

Fixpoint zeros (k : nat) : string :=
  match k with
  | O => ""
  | S k => "0" +:+ zeros k
  end.

(** Left-pad the digits [s] with zeros to [f] characters. *)
Definition padStart (f : nat) (s : string) : string :=
  zeros (f - String.length s) +:+ s.

(** The digits of [n >= 0] with a decimal point before the last [f]. *)
Definition fixedDigits (f : nat) (n : Z) : string :=
  match f with
  | O => numToString n
  | S _ =>
      numToString (n / 10 ^ Z.of_nat f)
        +:+ "." +:+ padStart f (numToString (n mod 10 ^ Z.of_nat f))
  end.

(** [x.toFixed(f)], for [|x| < 1e21]. *)
Definition toFixed (f : nat) (x : Q) : string :=
  let scale := inject_Z (10 ^ Z.of_nat f) in
  if Qlt_le_dec x 0
  then "-" +:+ fixedDigits f (nearest (- x * scale))
  else fixedDigits f (nearest (x * scale)).

(** [a || 1] on numbers: [1] when [a] is zero. *)
Definition or1 (a : Z) : Z := if decide (a = 0) then 1 else a.

(** [l.join(sep)]. *)
Definition join (sep : string) (l : list string) : string :=
  String.concat sep l.

End Js.

(* ===================================================================== *)
(** ** Usage charts: [formatBytes] and [renderSparkline] *)
(* ===================================================================== *)

Module Charts.
Import Js.

(** [formatBytes(b)] (DETAIL_PAGE_JS). *)
Definition formatBytes (b : Z) : string :=
  if decide (1073741824 <= b)
  then toFixed 1 (inject_Z b / inject_Z 1073741824) +:+ "Gi"
  else if decide (1048576 <= b)
  then toFixed 0 (inject_Z b / inject_Z 1048576) +:+ "Mi"
  else if decide (1024 <= b)
  then toFixed 0 (inject_Z b / inject_Z 1024) +:+ "Ki"
  else numToString b +:+ "B".

(** [Math.min(...vals)] and [Math.max(...vals)] of a non-empty list. *)
Definition Math_min (vals : list Z) : Z :=
  match vals with
  | [] => 0
  | v :: vs => foldl Z.min v vs
  end.

Definition Math_max (vals : list Z) : Z :=
  match vals with
  | [] => 0
  | v :: vs => foldl Z.max v vs
  end.

(** The canvas: [const W=200,H=40,pad=1]. *)
Definition W : Z := 200.
Definition H : Z := 40.
Definition pad : Z := 1.

(** [pad+(i/(data.length-1||1))*(W-2*pad)] *)
Definition pointX (len : nat) (i : nat) : Q :=
  (inject_Z pad
   + (inject_Z (Z.of_nat i) / inject_Z (or1 (Z.of_nat len - 1)))
     * inject_Z (W - 2 * pad))%Q.

(** [H-pad-((d[1]-minV)/range)*(H-2*pad)] *)
Definition pointY (minV range v : Z) : Q :=
  (inject_Z H - inject_Z pad
   - (inject_Z (v - minV) / inject_Z range) * inject_Z (H - 2 * pad))%Q.

(** The position of every sample: the [x] and [y] of the closure that
    [renderSparkline] maps over [data], as exact rationals.  The script
    computes them in doubles: the two agree where the quotients are exact,
    as they are for a sample equal to the minimum or to the maximum and on
    a series of one sample; for a sample in between, the digit the script
    writes after the point can differ from the one written here. *)
Definition plot (data : list (Z * Z)) : list (Q * Q) :=
  let vals := data.*2 in
  let minV := Math_min vals in
  let maxV := Math_max vals in
  let range := or1 (maxV - minV) in
  imap (fun i d => (pointX (length data) i, pointY minV range d.2)) data.

(** [x.toFixed(1)+','+y.toFixed(1)] *)
Definition pointText (p : Q * Q) : string :=
  toFixed 1 p.1 +:+ "," +:+ toFixed 1 p.2.

(** What [renderSparkline] writes: the [points] of the polygon and of
    the polyline it puts into the [svg] element, and the texts of the
    value, minimum and maximum elements next to it. *)
Record sparkline := {
  fillPts : string;
  points : string;
  valText : string;
  minText : string;
  maxText : string
}.

(** The text of a value, by unit: [formatBytes(v)] or [v+'m']. *)
Definition withUnit (unit : string) (v : Z) : string :=
  if decide (unit = "bytes") then formatBytes v else numToString v +:+ "m".

(** [renderSparkline(svgId,data,color,label,unit)], with the elements
    [svgId], [svgId-val], [svgId-min] and [svgId-max] present, as the
    detail page declares them.  [None] is the early return on an empty
    series. *)
Definition renderSparkline (data : list (Z * Z)) (unit : string)
  : option sparkline :=
  match data with
  | [] => None
  | _ =>
      let vals := data.*2 in
      let minV := Math_min vals in
      let maxV := Math_max vals in
      let len := length data in
      let pts := join " " (pointText <$> plot data) in
      let firstX := toFixed 1 (inject_Z pad) in
      let lastX := toFixed 1 (pointX len (len - 1)) in
      let last := List.last vals 0 in
      Some {|
        fillPts := firstX +:+ "," +:+ numToString H +:+ " " +:+ pts
                     +:+ " " +:+ lastX +:+ "," +:+ numToString H;
        points := pts;
        valText := withUnit unit last;
        minText := "min: " +:+ withUnit unit minV;
        maxText := "max: " +:+ withUnit unit maxV
      |}
  end.

(** The series [5,1,9,3], at any timestamps. *)
Definition series5193 (t0 t1 t2 t3 : Z) : list (Z * Z) :=
  [(t0, 5); (t1, 1); (t2, 9); (t3, 3)].

(** A constant series. *)
Definition flatSeries : list (Z * Z) := [(0, 7); (1, 7)].

(** The middle of the canvas, [H/2]. *)
Definition midline : Q := (inject_Z H / 2)%Q.

End Charts.

(* ===================================================================== *)
(** ** The bundle of the listing page, as the browser receives it *)
(* ===================================================================== *)

Module Bundle.

(** [MAIN_PAGE_JS] is a Python string literal with no prefix, so that
    Python reads its escape sequences before the text is sent.  [wrap_page]
    puts the text into one [script] element; a script with a syntax error
    is rejected as a whole and none of its statements runs. *)

Definition backslashChar : Ascii.ascii := Ascii.ascii_of_nat 92.
Definition singleQuote : Ascii.ascii := Ascii.ascii_of_nat 39.
Definition doubleQuote : Ascii.ascii := Ascii.ascii_of_nat 34.
Definition lineEnd : Ascii.ascii := Ascii.ascii_of_nat 10.
Definition blankChar : Ascii.ascii := Ascii.ascii_of_nat 32.
Definition tabChar : Ascii.ascii := Ascii.ascii_of_nat 9.

(** A double quote and a line end, as texts. *)
Definition dq : string := String doubleQuote EmptyString.
Definition eol : string := String lineEnd EmptyString.

(** Lines 79 to 82 of [scripts.py], as they stand in the Python source:
    the statement of [loadPresets] that builds a preset card. *)
Definition presetCard : string :=
  "    card.innerHTML='<div class=" +:+ dq +:+ "preset-name" +:+ dq
  +:+ ">'+p.name+'</div>'+" +:+ eol
  +:+ "      (p.description?'<div class=" +:+ dq +:+ "preset-desc" +:+ dq
  +:+ ">'+p.description+'</div>':'')+" +:+ eol
  +:+ "      '<div class=" +:+ dq +:+ "preset-meta" +:+ dq
  +:+ ">'+p.lim_cpu+'c / '+p.lim_mem+'</div>'+" +:+ eol
  +:+ "      '<button class=" +:+ dq +:+ "preset-del" +:+ dq +:+ " onclick=" +:+ dq
  +:+ "event.stopPropagation();deletePreset(\''+p.id+'\')" +:+ dq
  +:+ " title=" +:+ dq +:+ "Delete template" +:+ dq +:+ ">&times;</button>';".


(** What Python makes of the body [s] of a string literal without
    prefix, for the escape sequences the bundles hold: a backslash before a
    backslash or a quote gives that character, a backslash before a line end
    gives nothing.  [None] is a body with another escape sequence. *)
Fixpoint pyText (s : string) : option string :=
  match s with
  | EmptyString => Some EmptyString
  | String c r =>
      if decide (c = backslashChar) then
        match r with
        | String d r' =>
            if decide (d = backslashChar \/ d = singleQuote \/ d = doubleQuote)
            then String d <$> pyText r'
            else if decide (d = lineEnd) then pyText r'
            else None
        | EmptyString => None
        end
      else String c <$> pyText r
  end.

(** What the scan of JavaScript text finds: a string literal with the
    text between its quotes, any other character that is not white space,
    the end of a line, and a string literal that its line does not close. *)
Inductive token :=
| TString (body : string)
| TChar (c : Ascii.ascii)
| TLine
| TOpen.

(** Where the scan is: in code, in a string literal opened by the quote
    [q], or behind a backslash in such a literal. *)
Inductive mode :=
| Code
| InString (q : Ascii.ascii) (body : string)
| Escaped (q : Ascii.ascii) (body : string).

Definition snoc (b : string) (c : Ascii.ascii) : string :=
  b +:+ String c EmptyString.

(** The scan of text that has no comment, regular expression or
    template outside its string literals, as the lines above have none. *)
Fixpoint scan (m : mode) (s : string) : list token :=
  match s with
  | EmptyString =>
      match m with
      | Code => []
      | _ => [TOpen]
      end
  | String c r =>
      match m with
      | Code =>
          if decide (c = singleQuote \/ c = doubleQuote)
          then scan (InString c EmptyString) r
          else if decide (c = lineEnd) then TLine :: scan Code r
          else if decide (c = blankChar \/ c = tabChar) then scan Code r
          else TChar c :: scan Code r
      | InString q b =>
          if decide (c = q) then TString b :: scan Code r
          else if decide (c = lineEnd) then TOpen :: TLine :: scan Code r
          else if decide (c = backslashChar) then scan (Escaped q (snoc b c)) r
          else scan (InString q (snoc b c)) r
      | Escaped q b => scan (InString q (snoc b c)) r
      end
  end.

Definition isString (t : token) : bool :=
  match t with
  | TString _ => true
  | _ => false
  end.

Definition isOpen (t : token) : bool :=
  match t with
  | TOpen => true
  | _ => false
  end.

(** Two string literals in a row on one line. *)
Fixpoint adjacentStrings (ts : list token) : bool :=
  match ts with
  | [] => false
  | t :: r =>
      match r with
      | u :: _ => isString t && isString u || adjacentStrings r
      | [] => false
      end
  end.

(** No production of the language has two string literals in a row,
    no semicolon is inserted between two tokens of one line, and a string
    literal ends on its line: text with either defect is a syntax error. *)
Definition rejected (ts : list token) : bool :=
  adjacentStrings ts || existsb isOpen ts.

(** The text of the source lines [src] is sent and is a syntax error. *)
Definition sourceRejected (src : string) : bool :=
  match pyText src with
  | Some js => rejected (scan Code js)
  | None => false
  end.

(** The browser rejects the bundle of the listing page. *)
Definition mainBundleRejected : bool := sourceRejected presetCard.

End Bundle.

(* ===================================================================== *)
(** ** The page as a state machine *)
(* ===================================================================== *)

Module Page.

(** The state of a page is what its script can change and what decides
    what it does next: the clock and the pending timers, the requests in
    flight, the buttons, the toast, the terminal and the log view.  The
    clock counts milliseconds; between two events of the browser only
    timers run.  The parts of the bundles that set no timer and touch none of
    these elements are left out: the resize popup, the settings, templates
    and schedules forms, the requests a page makes while it loads
    ([loadPresets], [loadExpiry], [loadSchedules], [loadUsageHistory]), and
    the bytes that flow through an open terminal.

    [location.reload()] and the assignment to [window.location] are
    recorded with their time; the document that replaces the page is not
    part of the model. *)

(** Which bundle the page runs: [MAIN_PAGE_JS] or [DETAIL_PAGE_JS].  A
    [page] is a document whose bundle has run; [document] below tells
    the documents the browser is served apart. *)
Inductive page_kind := Listing | Detail.

#[export] Instance page_kind_eq_dec : EqDecision page_kind.
Proof. solve_decision. Defined.

(** *** Timers *)

(** The closures the scripts hand to [setInterval] and [setTimeout]. *)
Inductive callback :=
| CbReload                  (* ()=>location.reload() *)
| CbGoHome                  (* ()=>window.location='/' *)
| CbHideToast               (* ()=>t.style.display='none' *)
| CbDisarm (b : nat)        (* the disarming closure of confirmDelete *)
| CbPollTick (ws : string). (* the async closure of startCreationLogPoll *)

#[export] Instance callback_eq_dec : EqDecision callback.
Proof. solve_decision. Defined.

(** A pending timer: its handle, the time (ms) at which it fires next,
    its period when it repeats, and its closure. *)
Record timer := {
  tid : nat;
  due : N;
  every : option N;
  run : callback
}.

#[export] Instance timer_eq_dec : EqDecision timer.
Proof. solve_decision. Defined.

Record loop := {
  time : N;               (* milliseconds since the script started *)
  nextId : nat;           (* the next timer handle *)
  timers : list timer;    (* pending timers, oldest first *)
  reloads : list N;       (* when location.reload() was called, latest first *)
  homes : list N          (* when window.location='/' was assigned *)
}.

(** *** Requests *)

Inductive request :=
| PostAction (a pod : string)                  (* POST /api/<a> {pod} *)
| PostDelete (name pod uid : string)           (* POST /api/delete *)
| PostBulkDelete (ws : list (string * string * string))
| PostBulk (action : string) (pods : list string)
| GetCreationLog (ws : string).                (* GET /api/logs/creation/<ws> *)

(** The rest of an async function that waits for its response. *)
Inductive awaiting :=
| InDoAction (b : nat) (o : string)
| InDoDelete (b : nat)
| InBulkAction
| InPollTick.

(** The fields the scripts read from a parsed body.  A field the body
    lacks reads as [undefined], which the scripts only test for truth:
    it is [false], the empty string or [None] here. *)
Record reply := {
  ok : bool;
  message : string;
  lines : option (list string);
  status : string;
  creating : bool
}.

(** How the awaited [fetch(...)] and [r.json()] settle: one of them
    rejects, or the body is parsed. *)
Inductive outcome :=
| Rejected
| Replied (d : reply).

Record network := {
  nextReq : nat;
  sent : list (nat * request);        (* every request issued, oldest first *)
  inflight : list (nat * awaiting)    (* requests not settled yet *)
}.

(** *** Elements *)

Record button := {
  disabled : bool;
  textContent : string;
  className : string;
  armed : bool                (* btn.dataset.armed is set *)
}.

Record toast := {
  toastText : string;
  toastOk : bool;             (* class 'toast ok' rather than 'toast err' *)
  toastShown : bool
}.

(** A [.ws-check] checkbox of the listing. *)
Record row := {
  rowName : string;
  rowPod : string;
  rowUid : string;
  checked : bool
}.

Inductive readyState := Connecting | Open | Closing | Closed.

#[export] Instance readyState_eq_dec : EqDecision readyState.
Proof. solve_decision. Defined.

Record terminal := {
  termWs : option nat;            (* let termWs=null *)
  termObj : bool;                 (* termObj is not null *)
  termFit : bool;
  socks : gmap nat readyState;    (* the sockets created so far *)
  nextSock : nat;
  termStatus : string;            (* #term-status *)
  connectShown : bool;            (* #term-connect-btn is displayed *)
  disconnectShown : bool          (* #term-disconnect-btn is displayed *)
}.

Record logview := {
  evtSource : option nat;         (* let evtSource=null *)
  nextSource : nat;
  logBtnText : string;            (* #log-stream-btn *)
  logBtnClass : string;
  logStatus : string;             (* #log-status *)
  viewer : string;                (* #log-content *)
  creationPoll : option nat       (* let creationPoll=null *)
}.

Record page := {
  kind : page_kind;
  clock : loop;
  net : network;
  buttons : gmap nat button;      (* the action and delete buttons, by element *)
  bulkBar : list nat;             (* the buttons inside #bulk-bar *)
  rows : list row;
  toastEl : toast;
  rt : nat;                       (* let rt / let detailRefresh *)
  term : terminal;
  logs : logview
}.

(** Field updates. *)
Definition upd_clock (f : loop -> loop) (s : page) : page :=
  {| kind := kind s; clock := f (clock s); net := net s;
     buttons := buttons s; bulkBar := bulkBar s; rows := rows s;
     toastEl := toastEl s; rt := rt s; term := term s; logs := logs s |}.

Definition upd_net (f : network -> network) (s : page) : page :=
  {| kind := kind s; clock := clock s; net := f (net s);
     buttons := buttons s; bulkBar := bulkBar s; rows := rows s;
     toastEl := toastEl s; rt := rt s; term := term s; logs := logs s |}.

Definition upd_buttons (f : gmap nat button -> gmap nat button) (s : page) : page :=
  {| kind := kind s; clock := clock s; net := net s;
     buttons := f (buttons s); bulkBar := bulkBar s; rows := rows s;
     toastEl := toastEl s; rt := rt s; term := term s; logs := logs s |}.

Definition set_toast (t : toast) (s : page) : page :=
  {| kind := kind s; clock := clock s; net := net s;
     buttons := buttons s; bulkBar := bulkBar s; rows := rows s;
     toastEl := t; rt := rt s; term := term s; logs := logs s |}.

Definition set_rt (h : nat) (s : page) : page :=
  {| kind := kind s; clock := clock s; net := net s;
     buttons := buttons s; bulkBar := bulkBar s; rows := rows s;
     toastEl := toastEl s; rt := h; term := term s; logs := logs s |}.

Definition upd_term (f : terminal -> terminal) (s : page) : page :=
  {| kind := kind s; clock := clock s; net := net s;
     buttons := buttons s; bulkBar := bulkBar s; rows := rows s;
     toastEl := toastEl s; rt := rt s; term := f (term s); logs := logs s |}.

Definition upd_logs (f : logview -> logview) (s : page) : page :=
  {| kind := kind s; clock := clock s; net := net s;
     buttons := buttons s; bulkBar := bulkBar s; rows := rows s;
     toastEl := toastEl s; rt := rt s; term := term s; logs := f (logs s) |}.

Definition set_timers (l : list timer) (c : loop) : loop :=
  {| time := time c; nextId := nextId c; timers := l;
     reloads := reloads c; homes := homes c |}.

(** *** Timers: [setInterval], [setTimeout], [clearInterval] *)

Definition addTimer (cb : callback) (delay : N) (period : option N) (c : loop)
  : loop :=
  {| time := time c; nextId := S (nextId c);
     timers := timers c ++ [{| tid := nextId c; due := (time c + delay)%N;
                               every := period; run := cb |}];
     reloads := reloads c; homes := homes c |}.

(** [setInterval(cb,ms)]; the handle it returns is [nextId] of the state
    it is called in. *)
Definition setInterval (cb : callback) (ms : N) (s : page) : page :=
  upd_clock (addTimer cb ms (Some ms)) s.

(** [setTimeout(cb,ms)]. *)
Definition setTimeout (cb : callback) (ms : N) (s : page) : page :=
  upd_clock (addTimer cb ms None) s.

(** [clearInterval(h)]: the timer with that handle, if any, is dropped. *)
Definition clearInterval (h : option nat) (s : page) : page :=
  match h with
  | None => s
  | Some id =>
      upd_clock (fun c => set_timers (filter (fun t => tid t <> id) (timers c)) c) s
  end.

(** *** The toast *)

(** [showToast(m,ok)]. *)
Definition showToast (m : string) (isOk : bool) (s : page) : page :=
  setTimeout CbHideToast 4000
    (set_toast {| toastText := m; toastOk := isOk; toastShown := true |} s).

(** *** Requests *)

(** A request is issued and waited for. *)
Definition issue (r : request) (k : awaiting) (n : network) : network :=
  {| nextReq := S (nextReq n);
     sent := sent n ++ [(nextReq n, r)];
     inflight := inflight n ++ [(nextReq n, k)] |}.

(** [fetch(...)] followed by an [await]: the request is issued and the
    rest of the function waits for it to settle. *)
Definition fetch (r : request) (k : awaiting) (s : page) : page :=
  upd_net (issue r k) s.

(** *** Buttons *)

Definition updButton (b : nat) (f : button -> button) (s : page) : page :=
  upd_buttons (alter f b) s.

Definition setBusy (label : string) (x : button) : button :=
  {| disabled := true; textContent := label;
     className := className x; armed := armed x |}.

(** [b.disabled=false;b.textContent=o] *)
Definition restore (o : string) (x : button) : button :=
  {| disabled := false; textContent := o;
     className := className x; armed := armed x |}.

(** [btn.dataset.armed='1';btn.textContent='Confirm?';btn.className='btn btn-confirm'] *)
Definition arm (x : button) : button :=
  {| disabled := disabled x; textContent := "Confirm?";
     className := "btn btn-confirm"; armed := true |}.

(** [delete btn.dataset.armed;btn.textContent='Delete';btn.className='btn btn-outline-red'] *)
Definition disarm (x : button) : button :=
  {| disabled := disabled x; textContent := "Delete";
     className := "btn btn-outline-red"; armed := false |}.

(** [btn.disabled=false;btn.textContent='Delete';
     btn.className='btn btn-outline-red';delete btn.dataset.armed] *)
Definition restoreDelete (x : button) : button :=
  {| disabled := false; textContent := "Delete";
     className := "btn btn-outline-red"; armed := false |}.

Definition setDisabled (x : button) : button :=
  {| disabled := true; textContent := textContent x;
     className := className x; armed := armed x |}.

(** A click reaches the handler of a button only when the button exists
    and is not disabled. *)
Definition clickable (b : nat) (s : page) : bool :=
  match buttons s !! b with
  | Some x => negb (disabled x)
  | None => false
  end.

(** *** The Action Dispatcher: [doAction], [confirmDelete], [doDelete] *)

(** [doAction(a,p)] up to its first [await]; [b] is [event.target]. *)
Definition doAction (b : nat) (a p : string) (s : page) : page :=
  match buttons s !! b with
  | None => s
  | Some x =>
      let o := textContent x in
      let progress :=
        if decide (a = "stop") then "Stopping..." else "Starting..." in
      fetch (PostAction a p) (InDoAction b o)
        (updButton b (setBusy progress) s)
  end.

(** [doDelete(btn,name,pod,uid)] up to its first [await]. *)
Definition doDelete (b : nat) (name pod uid : string) (s : page) : page :=
  fetch (PostDelete name pod uid) (InDoDelete b)
    (updButton b (setBusy "Deleting...") s).

(** [confirmDelete(btn,name,pod,uid)]. *)
Definition confirmDelete (b : nat) (name pod uid : string) (s : page) : page :=
  match buttons s !! b with
  | None => s
  | Some x =>
      if armed x then doDelete b name pod uid s
      else setTimeout (CbDisarm b) 3000 (updButton b arm s)
  end.

(** The closure [confirmDelete] hands to [setTimeout]. *)
Definition disarmIfArmed (b : nat) (s : page) : page :=
  match buttons s !! b with
  | Some x => if armed x then updButton b disarm s else s
  | None => s
  end.

(** *** The Bulk Selection Controller: [bulkAction] *)

Definition checkedRows (s : page) : list row :=
  filter (fun r => checked r = true) (rows s).

(** [bulkAction(action)] up to its first [await]; [confirmed] is the
    answer [confirm(...)] gives when it is asked. *)
Definition bulkAction (action : string) (confirmed : bool) (s : page) : page :=
  let sel := checkedRows s in
  match sel with
  | [] => s
  | _ =>
      if decide (action = "delete") then
        if confirmed then
          fetch (PostBulkDelete
                   (map (fun r => (rowName r, rowPod r, rowUid r)) sel))
            InBulkAction
            (upd_buttons (fun m => foldr (alter setDisabled) m (bulkBar s)) s)
        else s
      else
        fetch (PostBulk action (map rowPod sel)) InBulkAction
          (upd_buttons (fun m => foldr (alter setDisabled) m (bulkBar s)) s)
  end.

(** *** The Terminal Session: [connectTerminal], [disconnectTerminal] *)

(** [ws.close()] on a socket in the given state. *)
Definition closeSock (st : readyState) : readyState :=
  match st with
  | Connecting | Open => Closing
  | Closing | Closed => st
  end.

(** [disconnectTerminal()]. *)
Definition disconnectTerminal (s : page) : page :=
  upd_term (fun t =>
    {| termWs := None; termObj := false; termFit := false;
       socks := match termWs t with
                | Some n => alter closeSock n (socks t)
                | None => socks t
                end;
       nextSock := nextSock t;
       termStatus := "Disconnected";
       connectShown := true; disconnectShown := false |}) s.

(** [connectTerminal(podName)]: the handlers it installs on the new
    socket are [onopen], [onclose] and [onerror] below. *)
Definition connectTerminal (pod : string) (s : page) : page :=
  match termWs (term s) with
  | Some _ => disconnectTerminal s
  | None =>
      upd_term (fun t =>
        {| termWs := Some (nextSock t); termObj := true; termFit := true;
           socks := <[nextSock t := Connecting]> (socks t);
           nextSock := S (nextSock t);
           termStatus := "Connecting...";
           connectShown := connectShown t;
           disconnectShown := disconnectShown t |}) s
  end.

Definition setTermView (st : string) (conn disc : bool) (t : terminal) : terminal :=
  {| termWs := termWs t; termObj := termObj t; termFit := termFit t;
     socks := socks t; nextSock := nextSock t;
     termStatus := st; connectShown := conn; disconnectShown := disc |}.

Definition setSock (n : nat) (st : readyState) (t : terminal) : terminal :=
  {| termWs := termWs t; termObj := termObj t; termFit := termFit t;
     socks := <[n := st]> (socks t); nextSock := nextSock t;
     termStatus := termStatus t; connectShown := connectShown t;
     disconnectShown := disconnectShown t |}.

(** [termWs.onopen]: the status and the two buttons, then
    [clearInterval(detailRefresh)]. *)
Definition onopen (s : page) : page :=
  clearInterval (Some (rt s)) (upd_term (setTermView "Connected" false true) s).

(** [termWs.onclose]: the status and the two buttons, then
    [detailRefresh=setInterval(()=>location.reload(),15000)]. *)
Definition onclose (s : page) : page :=
  let s1 := upd_term (setTermView "Disconnected" true false) s in
  set_rt (nextId (clock s1)) (setInterval CbReload 15000 s1).

(** [termWs.onerror]. *)
Definition onerror (s : page) : page :=
  disconnectTerminal
    (upd_term (fun t => setTermView "Error" (connectShown t) (disconnectShown t) t) s).

(** *** The Log Stream: [startLogStream], [stopLogStream],
    [startCreationLogPoll] *)

(** The line feed the scripts write as ['\n']. *)
Definition nl : string := String (Ascii.ascii_of_nat 10) EmptyString.

Definition setLogStatus (st : string) (l : logview) : logview :=
  {| evtSource := evtSource l; nextSource := nextSource l;
     logBtnText := logBtnText l; logBtnClass := logBtnClass l;
     logStatus := st; viewer := viewer l; creationPoll := creationPoll l |}.

Definition setViewer (v : string) (l : logview) : logview :=
  {| evtSource := evtSource l; nextSource := nextSource l;
     logBtnText := logBtnText l; logBtnClass := logBtnClass l;
     logStatus := logStatus l; viewer := v; creationPoll := creationPoll l |}.

Definition setCreationPoll (h : option nat) (l : logview) : logview :=
  {| evtSource := evtSource l; nextSource := nextSource l;
     logBtnText := logBtnText l; logBtnClass := logBtnClass l;
     logStatus := logStatus l; viewer := viewer l; creationPoll := h |}.

(** [stopLogStream()]. *)
Definition stopLogStream (s : page) : page :=
  upd_logs (fun l =>
    {| evtSource := None; nextSource := nextSource l;
       logBtnText := "Start streaming"; logBtnClass := "btn btn-green btn-sm";
       logStatus := logStatus l; viewer := viewer l;
       creationPoll := creationPoll l |}) s.

(** [startLogStream(podName)]. *)
Definition startLogStream (pod : string) (s : page) : page :=
  match evtSource (logs s) with
  | Some _ => stopLogStream s
  | None =>
      upd_logs (fun l =>
        {| evtSource := Some (nextSource l); nextSource := S (nextSource l);
           logBtnText := "Stop streaming"; logBtnClass := "btn btn-red btn-sm";
           logStatus := "Connected"; viewer := viewer l;
           creationPoll := creationPoll l |}) s
  end.

(** [evtSource.onmessage]: [viewer.textContent+=e.data+'\n']. *)
Definition onmessage (data : string) (s : page) : page :=
  upd_logs (fun l => setViewer (viewer l +:+ data +:+ nl) l) s.

(** [evtSource.onerror]. *)
Definition onstreamerror (s : page) : page :=
  stopLogStream (upd_logs (setLogStatus "Disconnected") s).

(** [startCreationLogPoll(wsName)]. *)
Definition startCreationLogPoll (ws : string) (s : page) : page :=
  let s1 := upd_logs (setLogStatus "Polling...") s in
  upd_logs (setCreationPoll (Some (nextId (clock s1))))
    (setInterval (CbPollTick ws) 2000 s1).

(** The body of the polling closure after its [await]s, on a parsed
    body [d]. *)
Definition pollReplied (d : reply) (s : page) : page :=
  let s1 := match lines d with
            | Some l => upd_logs (setViewer (Js.join nl l)) s
            | None => s
            end in
  let s2 := if decide (status d = "") then s1
            else upd_logs (setLogStatus ("Status: " +:+ status d)) s1 in
  if creating d then s2
  else setTimeout CbReload 3000
         (upd_logs (setLogStatus "Done")
            (clearInterval (creationPoll (logs s2)) s2)).

(** *** Settling a request *)

(** The rest of an async function once its request has settled. *)
Definition resume (k : awaiting) (o : outcome) (s : page) : page :=
  match k, o with
  | InDoAction b lbl, Replied d =>
      let s1 := showToast (message d) (ok d) s in
      if ok d then setTimeout CbReload 2000 s1
      else updButton b (restore lbl) s1
  | InDoAction b lbl, Rejected =>
      updButton b (restore lbl) (showToast "Failed" false s)
  | InDoDelete b, Replied d =>
      let s1 := showToast (message d) (ok d) s in
      if ok d
      then setTimeout (match kind s with
                       | Listing => CbReload
                       | Detail => CbGoHome
                       end) 2000 s1
      else updButton b restoreDelete s1
  | InDoDelete b, Rejected =>
      updButton b restoreDelete (showToast "Failed" false s)
  | InBulkAction, Replied d =>
      setTimeout CbReload 2000 (showToast (message d) (ok d) s)
  | InBulkAction, Rejected => showToast "Bulk action failed" false s
  | InPollTick, Replied d => pollReplied d s
  | InPollTick, Rejected => upd_logs (setLogStatus "Poll error") s
  end.

Definition awaitingOf (rid : nat) (s : page) : option awaiting :=
  snd <$> List.find (fun e => bool_decide (fst e = rid)) (inflight (net s)).

(** The request [rid] is no longer waited for. *)
Definition finish (rid : nat) (n : network) : network :=
  {| nextReq := nextReq n; sent := sent n;
     inflight := filter (fun e => fst e <> rid) (inflight n) |}.

(** The request [rid] settles with [o]; a request settles once. *)
Definition settle (rid : nat) (o : outcome) (s : page) : page :=
  match awaitingOf rid s with
  | None => s
  | Some k => resume k o (upd_net (finish rid) s)
  end.

(** *** Running the timers *)

(** What a closure does when its timer fires. *)
Definition call (cb : callback) (s : page) : page :=
  match cb with
  | CbReload =>
      upd_clock (fun c =>
        {| time := time c; nextId := nextId c; timers := timers c;
           reloads := time c :: reloads c; homes := homes c |}) s
  | CbGoHome =>
      upd_clock (fun c =>
        {| time := time c; nextId := nextId c; timers := timers c;
           reloads := reloads c; homes := time c :: homes c |}) s
  | CbHideToast =>
      set_toast {| toastText := toastText (toastEl s);
                   toastOk := toastOk (toastEl s); toastShown := false |} s
  | CbDisarm b => disarmIfArmed b s
  | CbPollTick ws => fetch (GetCreationLog ws) InPollTick s
  end.

(** After firing, a repeating timer is due one period later and a
    one-shot timer is gone; the other timers stay. *)
Definition rearm (id : nat) (t : timer) : option timer :=
  if decide (tid t = id) then
    match every t with
    | Some p => Some {| tid := tid t; due := (due t + p)%N;
                        every := every t; run := run t |}
    | None => None
    end
  else Some t.

Definition afterFiring (id : nat) (l : list timer) : list timer :=
  omap (rearm id) l.

(** The timer table is replaced. *)
Definition setTimers (l : list timer) (s : page) : page :=
  upd_clock (set_timers l) s.

(** The timer [id] fires, unless a closure run before it in the same
    millisecond has cleared it. *)
Definition fire (id : nat) (s : page) : page :=
  match List.find (fun t => bool_decide (tid t = id)) (timers (clock s)) with
  | None => s
  | Some t => call (run t) (setTimers (afterFiring id (timers (clock s))) s)
  end.

Definition dueNow (c : loop) : list nat :=
  tid <$> filter (fun t => due t = time c) (timers c).

(** The clock moves to the next millisecond. *)
Definition bump (s : page) : page :=
  upd_clock (fun c =>
    {| time := N.succ (time c); nextId := nextId c; timers := timers c;
       reloads := reloads c; homes := homes c |}) s.

(** One millisecond passes: the timers due at the new time fire, oldest
    first. *)
Definition tick (s : page) : page :=
  foldl (fun acc id => fire id acc) (bump s) (dueNow (clock (bump s))).

(** [ms] milliseconds pass with no other event. *)
Definition advance (ms : N) (s : page) : page := N.iter ms tick s.

(** *** The Live Refresh Scheduler *)

(** The refresh period: 10 s on the listing, 15 s on the detail page. *)
Definition period (k : page_kind) : N :=
  match k with
  | Listing => 10000
  | Detail => 15000
  end.

(** The [mousedown] listener: [clearInterval(rt)]. *)
Definition mousedown (s : page) : page := clearInterval (Some (rt s)) s.

(** The [mouseup] listener: [rt=setInterval(()=>location.reload(),...)]. *)
Definition mouseup (s : page) : page :=
  set_rt (nextId (clock s)) (setInterval CbReload (period (kind s)) s).

(** *** Events *)

(** What can happen to a page: time passes, the user presses or
    releases the pointer or clicks a control, a request settles, the
    terminal socket or the log stream reports something. *)
Inductive event :=
| Elapse (ms : N)
| MouseDown
| MouseUp
| ClickAction (b : nat) (a p : string)            (* onclick="doAction(a,p)" *)
| ClickDelete (b : nat) (name pod uid : string)   (* onclick="confirmDelete(this,...)" *)
| ClickBulk (b : nat) (action : string) (confirmed : bool)
| ClickConnect (pod : string)
| ClickDisconnect
| ClickLogStream (pod : string)
| Settle (rid : nat) (o : outcome)
| SockOpen (n : nat)
| SockClose (n : nat)
| SockError (n : nat)
| EsMessage (n : nat) (data : string)
| EsError (n : nat).

Definition step (e : event) (s : page) : page :=
  match e with
  | Elapse ms => advance ms s
  | MouseDown => mousedown s
  | MouseUp => mouseup s
  | ClickAction b a p => if clickable b s then doAction b a p s else s
  | ClickDelete b name pod uid =>
      if clickable b s then confirmDelete b name pod uid s else s
  | ClickBulk b action confirmed =>
      if bool_decide (kind s = Listing) && bool_decide (b ∈ bulkBar s)
         && clickable b s
      then bulkAction action confirmed s else s
  | ClickConnect pod =>
      if bool_decide (kind s = Detail) && connectShown (term s)
      then connectTerminal pod s else s
  | ClickDisconnect =>
      if bool_decide (kind s = Detail) && disconnectShown (term s)
      then disconnectTerminal s else s
  | ClickLogStream pod =>
      if bool_decide (kind s = Detail) then startLogStream pod s else s
  | Settle rid o => settle rid o s
  | SockOpen n =>
      match socks (term s) !! n with
      | Some Connecting => onopen (upd_term (setSock n Open) s)
      | _ => s
      end
  | SockClose n =>
      match socks (term s) !! n with
      | Some Closed | None => s
      | Some _ => onclose (upd_term (setSock n Closed) s)
      end
  | SockError n =>
      match socks (term s) !! n with
      | Some Closed | None => s
      | Some _ => onerror s
      end
  | EsMessage n data =>
      if decide (evtSource (logs s) = Some n) then onmessage data s else s
  | EsError n =>
      if decide (evtSource (logs s) = Some n) then onstreamerror s else s
  end.


(** The events of a trace, in order. *)
Definition play (es : list event) (s : page) : page :=
  foldl (fun acc e => step e acc) s es.

(** *** Loading a page *)

(** The document before its script runs. *)
Definition blank (k : page_kind) (btns : gmap nat button) (bar : list nat)
    (rws : list row) (logSt : string) : page :=
  {| kind := k;
     clock := {| time := 0; nextId := 1; timers := []; reloads := []; homes := [] |};
     net := {| nextReq := 1; sent := []; inflight := [] |};
     buttons := btns; bulkBar := bar; rows := rws;
     toastEl := {| toastText := ""; toastOk := false; toastShown := false |};
     rt := 0;
     term := {| termWs := None; termObj := false; termFit := false;
                socks := ∅; nextSock := 1; termStatus := "Ready";
                connectShown := true; disconnectShown := false |};
     logs := {| evtSource := None; nextSource := 1;
                logBtnText := "Start streaming";
                logBtnClass := "btn btn-green btn-sm";
                logStatus := logSt; viewer := ""; creationPoll := None |} |}.

(** A document as the browser has it: with its bundle run, so that
    every function and listener of the bundle is in place, or with a bundle
    that was rejected, of which nothing is. *)
Inductive document :=
| Scripted (s : page)
| Unscripted (s : page).

Definition pageOf (d : document) : page :=
  match d with
  | Scripted s => s
  | Unscripted s => s
  end.

(** An event on a document.  Where the bundle was rejected no listener
    is installed, an [onclick] or [onchange] attribute that calls a function
    of the bundle throws a [ReferenceError] and changes nothing, and there is
    no request, socket or stream that could report anything: time passes and
    that is all. *)
Definition docStep (e : event) (d : document) : document :=
  match d with
  | Scripted s => Scripted (step e s)
  | Unscripted s =>
      match e with
      | Elapse ms => Unscripted (advance ms s)
      | _ => Unscripted s
      end
  end.

Definition docPlay (es : list event) (d : document) : document :=
  foldl (fun acc e => docStep e acc) d es.

(** The listing page once it is loaded.  Were [MAIN_PAGE_JS] accepted it
    would have run [let rt=setInterval(()=>location.reload(),10000)]. *)
Definition loadListing (btns : gmap nat button) (bar : list nat)
    (rws : list row) : document :=
  if Bundle.mainBundleRejected
  then Unscripted (blank Listing btns bar rws "")
  else Scripted (mouseup (blank Listing btns bar rws "")).

(** The detail page of a running or stopped workspace once
    [DETAIL_PAGE_JS] has run:
    [let detailRefresh=setInterval(()=>location.reload(),15000)]. *)
Definition loadDetail (btns : gmap nat button) : page :=
  mouseup (blank Detail btns [] [] "Ready").

(** The detail page of a workspace that is being created: the template
    appends [startCreationLogPoll(name)] to the script. *)
Definition loadCreating (name : string) : page :=
  startCreationLogPoll name
    (mouseup (blank Detail ∅ [] [] "Loading creation logs...")).

(** A button as the templates render it. *)
Definition freshButton (label cls : string) : button :=
  {| disabled := false; textContent := label; className := cls; armed := false |}.

(** *** A page with a delete button *)

(** The detail page of a workspace with its delete button, element 8. *)
Definition deletePage : page :=
  loadDetail {[ 8%nat := freshButton "Delete" "btn btn-outline-red" ]}.

(** The delete button is armed, clicked again after 1 s, the delete is
    rejected half a second later, and the button is armed again at 2 s. *)
Definition rearmTrace : list event :=
  [ClickDelete 8 "ws" "pod" "uid"; Elapse 1000;
   ClickDelete 8 "ws" "pod" "uid"; Elapse 500;
   Settle 1 Rejected; Elapse 500;
   ClickDelete 8 "ws" "pod" "uid"].

(** *** Observations *)

(** The timers whose closure is selected by [D]. *)
Definition timersOf (D : callback -> bool) (s : page) : list timer :=
  filter (fun t => D (run t) = true) (timers (clock s)).

Definition isReload (cb : callback) : bool :=
  match cb with
  | CbReload => true
  | _ => false
  end.

Definition isDisarm (b : nat) (cb : callback) : bool :=
  match cb with
  | CbDisarm b' => bool_decide (b' = b)
  | _ => false
  end.

Definition isPollTick (cb : callback) : bool :=
  match cb with
  | CbPollTick _ => true
  | _ => false
  end.

Definition noCallback (cb : callback) : bool := false.

(** What the disarming closure does to its button. *)
Definition disarmed (x : button) : button := if armed x then disarm x else x.

(** The timers that would reload the page. *)
Definition reloadTimers (s : page) : list timer := timersOf isReload s.

(** The pending disarm timers of the delete button [b]. *)
Definition disarmTimers (b : nat) (s : page) : list timer :=
  timersOf (isDisarm b) s.

(** The timers of the creation poll. *)
Definition pollTimers (s : page) : list timer := timersOf isPollTick s.

(** Firing several handles in turn. *)
Definition afterAll (ids : list nat) (l : list timer) : list timer :=
  foldl (fun acc id => afterFiring id acc) l ids.

(** The handles in [ids] fire in turn. *)
Definition fires (ids : list nat) (s : page) : page :=
  foldl (fun acc id => fire id acc) s ids.

(** An observation [obs] of the page that only the closures selected by
    [D] can change: the clock and the timer table do not matter to it,
    and the other closures leave it alone. *)
Record frame {A : Type} (D : callback -> bool) (obs : page -> A) : Prop := {
  frame_bump : forall s, obs (bump s) = obs s;
  frame_timers : forall l s, obs (setTimers l s) = obs s;
  frame_call : forall cb s, D cb = false -> obs (call cb s) = obs s
}.

(** *** Well-formed timer tables *)

(** What every timer table built by [setInterval] and [setTimeout]
    satisfies: handles are distinct and older than [nextId], pending
    timers are due in the future, periods are not zero. *)
Record wf (s : page) : Prop := {
  wf_nodup : NoDup (tid <$> timers (clock s));
  wf_fresh : Forall (fun t => (tid t < nextId (clock s))%nat) (timers (clock s));
  wf_future : Forall (fun t => (time (clock s) < due t)%N) (timers (clock s));
  wf_period : Forall (fun t => every t <> Some 0%N) (timers (clock s))
}.

(** The Live Refresh Scheduler is running, next due at [d]: the timer
    [rt] is the one timer that reloads the page. *)
Definition scheduled (s : page) (d : N) : Prop :=
  reloadTimers s =
    [{| tid := rt s; due := d; every := Some (period (kind s)); run := CbReload |}].

(** The creation poll is running, next due at [d]: the timer
    [creationPoll] is the one timer that polls. *)
Definition polling (s : page) (ws : string) (d : N) : Prop :=
  exists h, creationPoll (logs s) = Some h /\
    pollTimers s =
      [{| tid := h; due := d; every := Some 2000%N; run := CbPollTick ws |}].

End Page.

(* ===================================================================== *)
(** ** More observations of the page *)
(* ===================================================================== *)

Module PageMore.
Import Page.

(** A socket that is connecting or open. *)
Definition isLive (st : readyState) : bool :=
  match st with
  | Connecting | Open => true
  | Closing | Closed => false
  end.

(** Every socket that is connecting or open is the one [termWs] holds. *)
Definition oneSession (s : page) : Prop :=
  forall n st,
    socks (term s) !! n = Some st -> isLive st = true ->
    termWs (term s) = Some n.

Definition isHide (cb : callback) : bool :=
  match cb with
  | CbHideToast => true
  | _ => false
  end.

Definition isGoHome (cb : callback) : bool :=
  match cb with
  | CbGoHome => true
  | _ => false
  end.

(** The requests that change something on the server: all but the
    polls of the creation log. *)
Definition mutating (e : nat * request) : bool :=
  match snd e with
  | GetCreationLog _ => false
  | _ => true
  end.

Definition mutations (s : page) : list (nat * request) :=
  filter (fun e => mutating e = true) (sent (net s)).

(** Time passing, the pointer, and clicks on the button [b]. *)
Definition aroundButton (b : nat) (e : event) : bool :=
  match e with
  | Elapse _ | MouseDown | MouseUp => true
  | ClickAction b' _ _ => bool_decide (b' = b)
  | ClickDelete b' _ _ _ => bool_decide (b' = b)
  | _ => false
  end.

(** The pointer goes down for [a] ms and then stays up for [b] ms, for
    every [(a, b)] of the list in turn. *)
Definition pointerPairs (l : list (N * N)) : list event :=
  l ≫= (fun ab => [MouseDown; Elapse ab.1; MouseUp; Elapse ab.2]).

(** The lines of the messages [msgs], each ended by a line feed. *)
Definition linesText (msgs : list string) : string :=
  foldr (fun m acc => m +:+ nl +:+ acc) "" msgs.

End PageMore.

(* ===================================================================== *)
(** ** The theme: [THEME_INIT_SCRIPT] and [toggleTheme] *)
(* ===================================================================== *)

Module Theme.

(** What the two scripts of the document shell read and write: the
    entry [devpod-theme] of the local storage and the attribute
    [data-theme] of the root element. *)
Record theme := {
  stored : option string;
  attr : string
}.

(** [THEME_INIT_SCRIPT], run when a document loads; [dark] is what
    [matchMedia('(prefers-color-scheme: dark)').matches] gives.  An empty
    entry counts as none ([!t]). *)
Definition themeInit (dark : bool) (st : option string) : theme :=
  let preferred := if dark then "dark" else "light" in
  {| stored := st;
     attr := match st with
             | Some v => if decide (v = "") then preferred else v
             | None => preferred
             end |}.

(** [toggleTheme()]. *)
Definition toggleTheme (th : theme) : theme :=
  let t := if decide (attr th = "dark") then "light" else "dark" in
  {| stored := Some t; attr := t |}.

(** A click on the toggle, and a reload of the page under a system
    preference. *)
Inductive themeEvent :=
| Toggle
| Reload (dark : bool).

Definition themeStep (e : themeEvent) (th : theme) : theme :=
  match e with
  | Toggle => toggleTheme th
  | Reload dark => themeInit dark (stored th)
  end.

Definition themePlay (es : list themeEvent) (th : theme) : theme :=
  foldl (fun acc e => themeStep e acc) th es.

Definition isToggle (e : themeEvent) : bool :=
  match e with
  | Toggle => true
  | Reload _ => false
  end.

(** The number of clicks on the toggle in a trace. *)
Definition toggles (es : list themeEvent) : nat :=
  length (filter (fun e => isToggle e = true) es).

End Theme.

(* ===================================================================== *)
(** ** The names the detail page hands to its script *)
(* ===================================================================== *)

Module Escaping.

(** Texts are taken as their UTF-8 bytes; the characters replaced and
    looked for below are ASCII, and no byte of a longer UTF-8 sequence is
    an ASCII byte. *)

Definition backslash : Ascii.ascii := Ascii.ascii_of_nat 92.
Definition quote : Ascii.ascii := Ascii.ascii_of_nat 39.
Definition lineFeed : Ascii.ascii := Ascii.ascii_of_nat 10.
Definition carriageReturn : Ascii.ascii := Ascii.ascii_of_nat 13.

(** Python's [s.replace(c, by)] for a pattern [c] of one character. *)
Fixpoint replaceChar (c : Ascii.ascii) (by_ : string) (s : string) : string :=
  match s with
  | EmptyString => EmptyString
  | String x r =>
      if decide (x = c) then by_ +:+ replaceChar c by_ r
      else String x (replaceChar c by_ r)
  end.

(** [name.replace("\\", "\\\\").replace("'", "\\'")]
    ([render_workspace_detail_page]). *)
Definition escJs (name : string) : string :=
  replaceChar quote (String backslash (String quote EmptyString))
    (replaceChar backslash (String backslash (String backslash EmptyString)) name).

(** The text between the quotes of [const WS_NAME='...']. *)
Definition wsNameLiteral (name : string) : string := escJs name.

(** The text between the quotes of [startCreationLogPoll('...')], which
    the template fills with the name as it is. *)
Definition pollLiteral (name : string) : string := name.

(** What a single-quoted JavaScript string literal with the body [s]
    denotes, for bodies whose only escape sequences are a backslash before
    a backslash or before a quote.  [None] is a body that is not one of
    those: it holds a quote or a line end of its own, which ends the
    literal or breaks the script, or another escape sequence. *)
Fixpoint literalValue (s : string) : option string :=
  match s with
  | EmptyString => Some EmptyString
  | String c r =>
      if decide (c = backslash) then
        match r with
        | String d r' =>
            if decide (d = backslash \/ d = quote)
            then String d <$> literalValue r'
            else None
        | EmptyString => None
        end
      else if decide (c = quote \/ c = lineFeed \/ c = carriageReturn) then None
      else String c <$> literalValue r
  end.

(** The characters of a text, in order. *)
Fixpoint chars (s : string) : list Ascii.ascii :=
  match s with
  | EmptyString => []
  | String c r => c :: chars r
  end.

End Escaping.

(* ===================================================================== *)
(** ** The schedule card: [loadSchedules], [saveSchedule],
       [removeSchedule] *)
(* ===================================================================== *)

Module Schedules.
Import Js Page.

(** The day boxes of a row, in the order of the template and of
    [saveSchedule]. *)
Definition week : list string :=
  ["Mon"; "Tue"; "Wed"; "Thu"; "Fri"; "Sat"; "Sun"].

(** One row of the card: the value of its time input and the names of
    its checked day boxes. *)
Record schedRow := {
  timeValue : string;
  checkedDays : gset string
}.


(** The body [saveSchedule] posts to [/api/schedule/set]; [None] is a
    number that [parseInt] did not give. *)
Record setBody := {
  bWorkspace : string;
  bPod : string;
  bAction : string;
  bDays : list string;
  bHour : option Z;
  bMinute : option Z
}.

Inductive schedRequest :=
| PostSet (b : setBody)
| PostRemove (ws action : string).

(** The card: its two rows and the requests sent from it; the toast
    is the one of the page. *)
Record card := {
  cdoc : page;
  startRow : schedRow;
  stopRow : schedRow;
  requests : list schedRequest
}.

Definition rowOf (start : bool) (c : card) : schedRow :=
  if start then startRow c else stopRow c.

Definition setRow (start : bool) (r : schedRow) (c : card) : card :=
  {| cdoc := cdoc c;
     startRow := if start then r else startRow c;
     stopRow := if start then stopRow c else r;
     requests := requests c |}.

Definition upd_cdoc (g : page -> page) (c : card) : card :=
  {| cdoc := g (cdoc c); startRow := startRow c; stopRow := stopRow c;
     requests := requests c |}.

(** The name of an action, as the buttons of the rows pass it. *)
Definition actionName (start : bool) : string :=
  if start then "start" else "stop".

(** *** The time input *)

Definition digitValue (c : Ascii.ascii) : option Z :=
  let n := Z.of_nat (Ascii.nat_of_ascii c) in
  if decide (48 <= n <= 57) then Some (n - 48) else None.


Definition colon : Ascii.ascii := Ascii.ascii_of_nat 58.
Definition smallX : Ascii.ascii := Ascii.ascii_of_nat 120.
Definition capitalX : Ascii.ascii := Ascii.ascii_of_nat 88.






(** *** [split] and [parseInt] *)

(** [s.split(c)] for a separator [c] of one character. *)
Fixpoint splitOn (c : Ascii.ascii) (s : string) : list string :=
  match s with
  | EmptyString => [EmptyString]
  | String x r =>
      if decide (x = c) then EmptyString :: splitOn c r
      else match splitOn c r with
           | p :: ps => String x p :: ps
           | [] => [String x EmptyString]
           end
  end.

(** The number the leading digits of [s] denote after the digits [acc]. *)
Fixpoint digitsPrefix (s : string) (acc : Z) : Z :=
  match s with
  | EmptyString => acc
  | String c r =>
      match digitValue c with
      | Some d => digitsPrefix r (10 * acc + d)
      | None => acc
      end
  end.

(** [parseInt(s)] for [s] undefined ([None]), empty, or starting with a
    decimal digit: the number its leading digits denote.  [None] is [NaN],
    and also the texts this leaves out: those that start with white space
    or a sign, and the hexadecimal ones. *)
Definition parseInt (s : option string) : option Z :=
  match s with
  | Some (String c r) =>
      match digitValue c with
      | Some d =>
          match r with
          | String x _ =>
              if decide (d = 0 /\ (x = smallX \/ x = capitalX)) then None
              else Some (digitsPrefix r d)
          | EmptyString => Some d
          end
      | None => None
      end
  | _ => None
  end.

(** *** The three functions *)




(** [saveSchedule(action)] up to its [await]. *)
Definition saveSchedule (wsName podName : string) (start : bool) (c : card)
  : card :=
  let r := rowOf start c in
  if decide (timeValue r = "")
  then upd_cdoc (showToast "Set a time first" false) c
  else
    let parts := splitOn colon (timeValue r) in
    let ds := filter (fun d => d ∈ checkedDays r) week in
    match ds with
    | [] => upd_cdoc (showToast "Select at least one day" false) c
    | _ =>
        {| cdoc := cdoc c; startRow := startRow c; stopRow := stopRow c;
           requests := requests c ++
             [PostSet {| bWorkspace := wsName; bPod := podName;
                         bAction := actionName start; bDays := ds;
                         bHour := parseInt (parts !! 0%nat);
                         bMinute := parseInt (parts !! 1%nat) |}] |}
    end.

(** [removeSchedule(action)] up to its [await]. *)
Definition removeSchedule (wsName : string) (start : bool) (c : card) : card :=
  {| cdoc := cdoc c; startRow := startRow c; stopRow := stopRow c;
     requests := requests c ++ [PostRemove wsName (actionName start)] |}.

(** The rest of [removeSchedule(action)] once its request has
    settled. *)
Definition removeSettled (start : bool) (o : outcome) (c : card) : card :=
  match o with
  | Replied d =>
      setRow start {| timeValue := ""; checkedDays := ∅ |}
        (upd_cdoc (showToast (message d) (ok d)) c)
  | Rejected => upd_cdoc (showToast "Failed" false) c
  end.



End Schedules.

(* ===================================================================== *)
(** ** Properties of the usage charts *)
(* ===================================================================== *)

Module ChartProps.
Import Js Charts.

(** [nearest] brackets its argument: [n - 1/2 <= x < n + 1/2]. *)
Lemma nearest_bounds (x : Q) :
  2 * Z.pos (Qden x) * nearest x <= 2 * Qnum x + Z.pos (Qden x)
    < 2 * Z.pos (Qden x) * (nearest x + 1).
Proof.
  unfold nearest.
  set (a := 2 * Qnum x + Z.pos (Qden x)).
  set (b := 2 * Z.pos (Qden x)).
  assert (Hb : 0 < b) by (unfold b; lia).
  pose proof (Z.mul_div_le a b Hb).
  pose proof (Z.mul_succ_div_gt a b Hb).
  lia.
Qed.

Lemma nearest_unique (x : Q) (n : Z) :
  2 * Z.pos (Qden x) * n <= 2 * Qnum x + Z.pos (Qden x)
    < 2 * Z.pos (Qden x) * (n + 1) ->
  nearest x = n.
Proof.
  intros Hn. pose proof (nearest_bounds x) as Hx.
  assert (0 < Z.pos (Qden x)) by lia.
  nia.
Qed.

(** [nearest] depends on the value of its argument only. *)
Lemma nearest_proper (x y : Q) : (x == y)%Q -> nearest x = nearest y.
Proof.
  intros Heq. symmetry. apply nearest_unique.
  pose proof (nearest_bounds x) as Hx.
  unfold Qeq in Heq.
  assert (0 < Z.pos (Qden x)) by lia.
  assert (0 < Z.pos (Qden y)) by lia.
  nia.
Qed.

Lemma toFixed_proper (f : nat) (x y : Q) :
  (x == y)%Q -> toFixed f x = toFixed f y.
Proof.
  intros Heq. unfold toFixed.
  destruct (Qlt_le_dec x 0) as [Hx | Hx], (Qlt_le_dec y 0) as [Hy | Hy].
  - f_equal. f_equal. apply nearest_proper. now rewrite Heq.
  - rewrite Heq in Hx. exfalso. eapply Qlt_not_le; eauto.
  - rewrite Heq in Hx. exfalso. eapply Qlt_not_le; eauto.
  - f_equal. apply nearest_proper. now rewrite Heq.
Qed.

(** The text of a non-negative quotient [b/u], and how far the number
    shown, [n/10^f], is from it: at most half a unit of the last digit. *)
Lemma toFixed_quotient (f : nat) (b u : Z) :
  0 <= b -> 0 < u ->
  exists n,
    toFixed f (inject_Z b / inject_Z u) = fixedDigits f n /\
    2 * Z.abs (u * n - 10 ^ Z.of_nat f * b) <= u.
Proof.
  intros Hb Hu. unfold toFixed.
  assert (Hq : (inject_Z b / inject_Z u ==
                b # Z.to_pos u)%Q).
  { destruct u as [| u | u]; try lia. unfold Qeq, Qdiv, Qmult, Qinv, inject_Z.
    simpl. lia. }
  destruct (Qlt_le_dec (inject_Z b / inject_Z u) 0) as [Hneg | _].
  { exfalso. rewrite Hq in Hneg. unfold Qlt in Hneg. simpl in Hneg. lia. }
  set (k := 10 ^ Z.of_nat f).
  assert (Hk : 0 < k) by (unfold k; apply Z.pow_pos_nonneg; lia).
  exists (nearest ((b # Z.to_pos u) * inject_Z k)). split.
  - f_equal. apply nearest_proper. now rewrite Hq.
  - pose proof (nearest_bounds ((b # Z.to_pos u) * inject_Z k)) as Hn.
    cbn [Qmult Qnum Qden inject_Z] in Hn.
    rewrite Pos.mul_1_r, Z2Pos.id in Hn by lia.
    lia.
Qed.

(** C8. [formatBytes] picks its unit by thresholds that are powers of
    1024 (plain bytes below 1024, then Ki, Mi and, from 1024^3 on, Gi), the
    number it shows being the byte count divided by the unit and rounded to
    the nearest integer (one decimal for Gi); in particular
    [formatBytes(1073741824)] is "1.0Gi", [formatBytes(1048576)] is "1Mi"
    and [formatBytes(512)] is "512B". *)
Theorem formatBytes_units (b : Z) :
  (b < 1024 -> formatBytes b = numToString b +:+ "B") /\
  (1024 <= b < 1024 ^ 2 ->
     exists n, formatBytes b = numToString n +:+ "Ki" /\
               2 * Z.abs (1024 * n - b) <= 1024) /\
  (1024 ^ 2 <= b < 1024 ^ 3 ->
     exists n, formatBytes b = numToString n +:+ "Mi" /\
               2 * Z.abs (1024 ^ 2 * n - b) <= 1024 ^ 2) /\
  (1024 ^ 3 <= b ->
     exists n, formatBytes b = fixedDigits 1 n +:+ "Gi" /\
               2 * Z.abs (1024 ^ 3 * n - 10 * b) <= 1024 ^ 3) /\
  formatBytes 1073741824 = "1.0Gi" /\
  formatBytes 1048576 = "1Mi" /\
  formatBytes 512 = "512B".
Proof.
  change (1024 ^ 2) with 1048576. change (1024 ^ 3) with 1073741824.
  repeat split; try reflexivity.
  - intros Hb. unfold formatBytes. repeat case_decide; try lia. reflexivity.
  - intros Hb. unfold formatBytes. repeat case_decide; try lia.
    destruct (toFixed_quotient 0 b 1024) as (n & -> & Hn); try lia.
    exists n. split; [reflexivity |]. cbn in Hn. lia.
  - intros Hb. unfold formatBytes. repeat case_decide; try lia.
    destruct (toFixed_quotient 0 b 1048576) as (n & -> & Hn); try lia.
    exists n. split; [reflexivity |]. cbn in Hn. lia.
  - intros Hb. unfold formatBytes. repeat case_decide; try lia.
    destruct (toFixed_quotient 1 b 1073741824) as (n & -> & Hn); try lia.
    exists n. split; [reflexivity |]. cbn in Hn. lia.
Qed.

(** The thresholds of C8 at work, on one count in each range. *)
Lemma formatBytes_units_witness :
  formatBytes 1023 = numToString 1023 +:+ "B" /\
  (exists n, formatBytes 1536 = numToString n +:+ "Ki" /\
             2 * Z.abs (1024 * n - 1536) <= 1024) /\
  (exists n, formatBytes 1073741823 = numToString n +:+ "Mi" /\
             2 * Z.abs (1024 ^ 2 * n - 1073741823) <= 1024 ^ 2) /\
  (exists n, formatBytes 1610612736 = fixedDigits 1 n +:+ "Gi" /\
             2 * Z.abs (1024 ^ 3 * n - 10 * 1610612736) <= 1024 ^ 3).
Proof.
  split; [apply (formatBytes_units 1023); lia |].
  split; [apply (formatBytes_units 1536); lia |].
  split; [apply (formatBytes_units 1073741823); lia |].
  apply (formatBytes_units 1610612736); lia.
Defined.

(** *** The scaling of [renderSparkline] *)

Lemma foldl_min_spec (l : list Z) (a : Z) :
  foldl Z.min a l ∈ a :: l /\ Forall (fun v => foldl Z.min a l <= v) (a :: l).
Proof.
  revert a. induction l as [| x l IH]; intros a; cbn [foldl].
  - split; [left | repeat constructor; lia].
  - destruct (IH (Z.min a x)) as [Hin Hle]. split.
    + apply elem_of_cons in Hin as [Hin | Hin].
      * rewrite Hin. destruct (Z.min_spec a x) as [[_ ->] | [_ ->]];
          [left | right; left].
      * right. right. exact Hin.
    + apply Forall_cons in Hle as [Hm Hl].
      repeat (apply Forall_cons; split); [lia | lia | exact Hl].
Qed.

Lemma foldl_max_spec (l : list Z) (a : Z) :
  foldl Z.max a l ∈ a :: l /\ Forall (fun v => v <= foldl Z.max a l) (a :: l).
Proof.
  revert a. induction l as [| x l IH]; intros a; cbn [foldl].
  - split; [left | repeat constructor; lia].
  - destruct (IH (Z.max a x)) as [Hin Hle]. split.
    + apply elem_of_cons in Hin as [Hin | Hin].
      * rewrite Hin. destruct (Z.max_spec a x) as [[_ ->] | [_ ->]];
          [right; left | left].
      * right. right. exact Hin.
    + apply Forall_cons in Hle as [Hm Hl].
      repeat (apply Forall_cons; split); [lia | lia | exact Hl].
Qed.

(** [Math.min] and [Math.max] of a series are samples of it and bound
    every sample. *)
Lemma Math_min_max_spec (vals : list Z) (v : Z) :
  v ∈ vals ->
  Math_min vals ∈ vals /\ Math_max vals ∈ vals /\
  Math_min vals <= v <= Math_max vals.
Proof.
  destruct vals as [| a l]; [intros Hv; inversion Hv |]. intros Hv.
  cbn [Math_min Math_max].
  destruct (foldl_min_spec l a) as [Hmin Hlo].
  destruct (foldl_max_spec l a) as [Hmax Hhi].
  rewrite Forall_forall in Hlo, Hhi.
  repeat split; auto.
Qed.

(** The height of a sample as one fraction. *)
Lemma pointY_frac (minV range v : Z) :
  0 < range ->
  (pointY minV range v == (39 * range - 38 * (v - minV)) # Z.to_pos range)%Q.
Proof.
  intros Hr. destruct range as [| r | r]; try lia.
  unfold pointY, H, pad, Qeq, Qdiv, Qminus, Qplus, Qopp, Qmult, Qinv, inject_Z.
  cbn. lia.
Qed.

Lemma or1_range (lo hi : Z) :
  lo <= hi ->
  0 < or1 (hi - lo) /\ (lo <> hi -> or1 (hi - lo) = hi - lo) /\
  (lo = hi -> or1 (hi - lo) = 1).
Proof.
  intros Hle. unfold or1. case_decide; repeat split; intros; lia.
Qed.

(** Where a sample between the minimum and the maximum is drawn. *)
Lemma pointY_range (lo hi v : Z) :
  lo <= v <= hi ->
  let y := pointY lo (or1 (hi - lo)) v in
  (inject_Z pad <= y)%Q /\ (y <= inject_Z (H - pad))%Q /\
  (v = lo -> (y == inject_Z (H - pad))%Q) /\
  (v = hi -> lo <> hi -> (y == inject_Z pad)%Q) /\
  (lo = hi -> (y == inject_Z (H - pad))%Q).
Proof.
  intros Hle y.
  destruct (or1_range lo hi ltac:(lia)) as (Hr & Hne & Heq).
  pose proof (pointY_frac lo (or1 (hi - lo)) v Hr) as Hy. fold y in Hy.
  assert (Hpos : Z.pos (Z.to_pos (or1 (hi - lo))) = or1 (hi - lo))
    by (apply Z2Pos.id; exact Hr).
  unfold H, pad.
  repeat split; intros; rewrite Hy; unfold Qle, Qeq;
    cbn [Qnum Qden inject_Z]; rewrite Hpos;
    (destruct (decide (lo = hi)) as [He | Hd];
     [rewrite (Heq He) | rewrite (Hne Hd)]); lia.
Qed.

Lemma plot_lookup (data : list (Z * Z)) (i : nat) (t v : Z) :
  data !! i = Some (t, v) ->
  plot data !! i =
    Some (pointX (length data) i,
          pointY (Math_min data.*2)
                 (or1 (Math_max data.*2 - Math_min data.*2)) v).
Proof.
  intros Hi. unfold plot. rewrite list_lookup_imap, Hi. reflexivity.
Qed.

(** C3, as the script has it.  Every sample lies between the top and the
    bottom of the plot area, [pad] inside the canvas; a sample equal to
    the minimum is drawn at the bottom ([y = H - pad], text "39.0"); when
    the series is not constant a sample equal to the maximum is drawn at the
    top ([y = pad], text "1.0"); a constant series is drawn flat along the
    bottom, [y = H - pad] for every sample.  For [5,1,9,3] the labels read
    "min: 1m" and "max: 9m" and the topmost point is the one of the sample
    9. *)
Theorem sparkline_scaling :
  (forall (data : list (Z * Z)) (unit : string) (i : nat) (t v : Z),
     data !! i = Some (t, v) ->
     let lo := Math_min data.*2 in
     let hi := Math_max data.*2 in
     exists sp x y,
       renderSparkline data unit = Some sp /\
       points sp = join " " (pointText <$> plot data) /\
       minText sp = "min: " +:+ withUnit unit lo /\
       maxText sp = "max: " +:+ withUnit unit hi /\
       plot data !! i = Some (x, y) /\
       lo ∈ data.*2 /\ hi ∈ data.*2 /\ lo <= v <= hi /\
       (inject_Z pad <= y)%Q /\ (y <= inject_Z (H - pad))%Q /\
       (v = lo -> (y == inject_Z (H - pad))%Q /\ toFixed 1 y = "39.0") /\
       (v = hi -> lo <> hi -> (y == inject_Z pad)%Q /\ toFixed 1 y = "1.0") /\
       (lo = hi -> (y == inject_Z (H - pad))%Q /\ toFixed 1 y = "39.0")) /\
  (forall t0 t1 t2 t3 : Z,
     renderSparkline (series5193 t0 t1 t2 t3) "m" =
       Some {| fillPts := "1.0,40 1.0,20.0 67.0,39.0 133.0,1.0 199.0,29.5 199.0,40";
               points := "1.0,20.0 67.0,39.0 133.0,1.0 199.0,29.5";
               valText := "3m";
               minText := "min: 1m";
               maxText := "max: 9m" |} /\
     Qred <$> (plot (series5193 t0 t1 t2 t3)).*2 = [20; 39; 1; 59 # 2]%Q /\
     series5193 t0 t1 t2 t3 !! 2%nat = Some (t2, 9)).
Proof.
  split.
  - intros data unit i t v Hi lo hi.
    assert (Hv : v ∈ data.*2).
    { apply list_elem_of_fmap. exists (t, v). split; [reflexivity |].
      eapply list_elem_of_lookup_2; eauto. }
    destruct (Math_min_max_spec _ _ Hv) as (Hlo & Hhi & Hle).
    fold lo in Hlo, Hle. fold hi in Hhi, Hle.
    destruct (pointY_range lo hi v Hle) as (Hge & Hbelow & Hmin & Hmax & Hflat).
    assert (Hbot : forall y, (y == inject_Z (H - pad))%Q -> toFixed 1 y = "39.0").
    { intros y Hq. rewrite (toFixed_proper 1 _ _ Hq). reflexivity. }
    assert (Htop : forall y, (y == inject_Z pad)%Q -> toFixed 1 y = "1.0").
    { intros y Hq. rewrite (toFixed_proper 1 _ _ Hq). reflexivity. }
    assert (Hsp : exists sp,
               renderSparkline data unit = Some sp /\
               points sp = join " " (pointText <$> plot data) /\
               minText sp = "min: " +:+ withUnit unit lo /\
               maxText sp = "max: " +:+ withUnit unit hi).
    { destruct data as [| d0 data']; [inversion Hi |].
      eexists. split; [reflexivity |]. repeat split. }
    destruct Hsp as (sp & Hsp & Hpts & Hmn & Hmx).
    exists sp, (pointX (length data) i), (pointY lo (or1 (hi - lo)) v).
    split; [exact Hsp |]. split; [exact Hpts |]. split; [exact Hmn |].
    split; [exact Hmx |].
    split; [apply plot_lookup with (t := t); exact Hi |].
    split; [exact Hlo |]. split; [exact Hhi |]. split; [exact Hle |].
    split; [exact Hge |]. split; [exact Hbelow |].
    split; [intros He; split; [| apply Hbot]; apply Hmin, He |].
    split; [intros He Hd; split; [| apply Htop]; apply Hmax; assumption |].
    intros He; split; [| apply Hbot]; apply Hflat, He.
  - intros t0 t1 t2 t3. repeat split.
Qed.

(** C3 at the sample 9 of [5,1,9,3]: it is the maximum of a series that
    is not constant, and is drawn at the top. *)
Lemma sparkline_scaling_witness :
  series5193 0 1 2 3 !! 2%nat = Some (2, 9) /\
  exists sp x y,
    renderSparkline (series5193 0 1 2 3) "m" = Some sp /\
    maxText sp = "max: 9m" /\
    plot (series5193 0 1 2 3) !! 2%nat = Some (x, y) /\
    (y == inject_Z pad)%Q /\ toFixed 1 y = "1.0".
Proof.
  split; [reflexivity |].
  destruct (proj1 sparkline_scaling (series5193 0 1 2 3) "m" 2%nat 2 9 eq_refl)
    as (sp & x & y & Hsp & _ & _ & Hmx & Hxy & _ & _ & _ & _ & _ & _ & Htop & _).
  exists sp, x, y. repeat split; try assumption.
  - apply Htop; [reflexivity | discriminate].
  - apply Htop; [reflexivity | discriminate].
Defined.

(** C3 as the specification words it fails on a constant series: the
    line is drawn along the bottom of the plot area, [y = 39], and no point
    of it lies on the mid-line [y = 20]. *)
Lemma sparkline_constant_not_midline :
  Math_min flatSeries.*2 = Math_max flatSeries.*2 /\
  Qred <$> (plot flatSeries).*2 = [39; 39]%Q /\
  points <$> renderSparkline flatSeries "m" = Some "1.0,39.0 199.0,39.0" /\
  Qred midline = 20%Q /\
  ~ (forall p, p ∈ plot flatSeries -> (p.2 == midline)%Q).
Proof.
  repeat split.
  intros Hall.
  assert (Hp : (pointX 2 0, pointY 7 1 7) ∈ plot flatSeries) by (left).
  specialize (Hall _ Hp). vm_compute in Hall. discriminate.
Qed.

End ChartProps.

(* ===================================================================== *)
(** ** Properties of the timers *)
(* ===================================================================== *)

Module TimerProps.
Import Page.

(** *** What firing does to the timer table *)

Lemma rearm_Some (id : nat) (t t' : timer) :
  rearm id t = Some t' ->
  tid t' = tid t /\ run t' = run t /\ every t' = every t /\
  ((tid t <> id /\ t' = t) \/
   (tid t = id /\ exists p, every t = Some p /\ due t' = (due t + p)%N)).
Proof.
  unfold rearm. case_decide as Hid.
  - destruct (every t) as [p |] eqn:Hp; [| discriminate].
    intros [= <-]. cbn. repeat split; auto. right. split; [exact Hid |].
    exists p. split; reflexivity.
  - intros [= <-]. repeat split; auto.
Qed.

Lemma rearm_other (id : nat) (t : timer) : tid t <> id -> rearm id t = Some t.
Proof. intros Hne. unfold rearm. case_decide; [contradiction | reflexivity]. Qed.

Lemma afterFiring_elem (id : nat) (l : list timer) (t' : timer) :
  t' ∈ afterFiring id l ->
  exists t, t ∈ l /\ rearm id t = Some t'.
Proof. unfold afterFiring. rewrite list_elem_of_omap. auto. Qed.

Lemma afterFiring_keeps (id : nat) (l : list timer) (t : timer) :
  t ∈ l -> tid t <> id -> t ∈ afterFiring id l.
Proof.
  intros Hin Hne. unfold afterFiring. rewrite list_elem_of_omap.
  exists t. split; [exact Hin | apply rearm_other, Hne].
Qed.

Lemma afterFiring_same (id : nat) (l : list timer) :
  (forall t, t ∈ l -> tid t <> id) -> afterFiring id l = l.
Proof.
  unfold afterFiring. induction l as [| t l IH]; intros Hall; [reflexivity |].
  cbn. rewrite rearm_other by (apply Hall; left).
  cbn. f_equal. apply IH. intros u Hu. apply Hall. now right.
Qed.

Lemma afterFiring_tids (id : nat) (l : list timer) :
  tid <$> afterFiring id l `sublist_of` tid <$> l.
Proof.
  unfold afterFiring. induction l as [| t l IH]; [constructor |].
  cbn. destruct (rearm id t) as [t' |] eqn:Ht; cbn.
  - apply rearm_Some in Ht as (-> & _). now constructor.
  - now constructor.
Qed.

(** Firing keeps the closures, so it commutes with selecting timers by
    closure. *)
Lemma afterFiring_filter (D : callback -> bool) (id : nat) (l : list timer) :
  filter (fun t => D (run t) = true) (afterFiring id l) =
  afterFiring id (filter (fun t => D (run t) = true) l).
Proof.
  unfold afterFiring. induction l as [| t l IH]; [reflexivity |].
  cbn [omap list_omap]. destruct (rearm id t) as [t' |] eqn:Ht.
  - apply rearm_Some in Ht as Hk. destruct Hk as (_ & Hrun & _).
    rewrite !filter_cons. rewrite Hrun.
    case_decide; cbn [omap list_omap]; rewrite ?Ht, IH; reflexivity.
  - rewrite filter_cons. case_decide; cbn [omap list_omap];
      rewrite ?Ht, IH; reflexivity.
Qed.

(** With distinct handles a handle finds its timer. *)
Lemma find_by_tid (l : list timer) (r : timer) :
  NoDup (tid <$> l) -> r ∈ l ->
  List.find (fun t => bool_decide (tid t = tid r)) l = Some r.
Proof.
  induction l as [| t l IH]; intros Hnd Hin; [inversion Hin |].
  cbn in Hnd. apply NoDup_cons in Hnd as [Hnotin Hnd].
  cbn. case_bool_decide as Heq.
  - apply elem_of_cons in Hin as [-> | Hin]; [reflexivity |].
    exfalso. apply Hnotin. rewrite Heq. apply list_elem_of_fmap.
    exists r. split; [reflexivity | exact Hin].
  - apply elem_of_cons in Hin as [-> | Hin]; [contradiction |]. now apply IH.
Qed.

Lemma find_tid_elem (l : list timer) (id : nat) (t : timer) :
  List.find (fun t => bool_decide (tid t = id)) l = Some t ->
  t ∈ l /\ tid t = id.
Proof.
  intros Hf. apply find_some in Hf as [Hin Hb].
  split; [now apply list_elem_of_In | now apply bool_decide_eq_true in Hb].
Qed.

(** Timers with the same handle in a table of distinct handles are the
    same timer. *)
Lemma same_tid (l : list timer) (t u : timer) :
  NoDup (tid <$> l) -> t ∈ l -> u ∈ l -> tid t = tid u -> t = u.
Proof.
  intros Hnd Ht Hu Heq.
  pose proof (find_by_tid l t Hnd Ht) as H1.
  pose proof (find_by_tid l u Hnd Hu) as H2.
  rewrite Heq in H1. congruence.
Qed.

Lemma afterAll_same (ids : list nat) (l : list timer) :
  (forall t, t ∈ l -> tid t ∉ ids) -> afterAll ids l = l.
Proof.
  unfold afterAll. revert l. induction ids as [| id ids IH]; intros l Hall;
    [reflexivity |].
  cbn. rewrite afterFiring_same.
  - apply IH. intros t Ht Hin. apply (Hall t Ht). now right.
  - intros t Ht Heq. apply (Hall t Ht). rewrite Heq. left.
Qed.

Lemma afterAll_filter (D : callback -> bool) (ids : list nat) (l : list timer) :
  filter (fun t => D (run t) = true) (afterAll ids l) =
  afterAll ids (filter (fun t => D (run t) = true) l).
Proof.
  unfold afterAll. revert l. induction ids as [| id ids IH]; intros l;
    [reflexivity |].
  cbn. rewrite IH, afterFiring_filter. reflexivity.
Qed.

Lemma afterAll_tids (ids : list nat) (l : list timer) :
  tid <$> afterAll ids l `sublist_of` tid <$> l.
Proof.
  unfold afterAll. revert l. induction ids as [| id ids IH]; intros l;
    [reflexivity |].
  cbn. etransitivity; [apply IH | apply afterFiring_tids].
Qed.

(** Where a timer of the table after the firings comes from. *)
Lemma afterAll_elem (ids : list nat) (l : list timer) (t' : timer) :
  t' ∈ afterAll ids l ->
  exists t, t ∈ l /\ tid t' = tid t /\ run t' = run t /\ every t' = every t /\
    (((tid t ∉ ids) /\ t' = t) \/
     (tid t ∈ ids /\ exists p, every t = Some p /\ (due t + p <= due t')%N)).
Proof.
  unfold afterAll. revert l t'.
  induction ids as [| id ids IH]; intros l t' Hin.
  - exists t'. repeat split; auto. left. split; [apply not_elem_of_nil | auto].
  - cbn in Hin. apply IH in Hin as (u & Hu & Htid & Hrun & Hev & Hcase).
    apply afterFiring_elem in Hu as (t & Ht & Hre).
    apply rearm_Some in Hre as (Htid' & Hrun' & Hev' & Hcase').
    exists t. split; [exact Ht |].
    split; [congruence |]. split; [congruence |]. split; [congruence |].
    destruct Hcase' as [[Hne ->] | [Heq (p & Hp & Hdue)]].
    + destruct Hcase as [[Hnotin ->] | [Hin' Hp]].
      * left. split; [| reflexivity]. apply not_elem_of_cons. auto.
      * right. split; [now right | exact Hp].
    + right. split; [rewrite Heq; left |]. exists p. split; [exact Hp |].
      destruct Hcase as [[_ ->] | [_ (q & Hq & Hle)]]; [lia |].
      rewrite Hdue in Hle. lia.
Qed.

(** *** What firing does to the page *)

(** A closure run by a timer leaves the clock and the timer table as
    they are: none of them sets or clears a timer. *)
Lemma call_clock (cb : callback) (s : page) :
  time (clock (call cb s)) = time (clock s) /\
  nextId (clock (call cb s)) = nextId (clock s) /\
  timers (clock (call cb s)) = timers (clock s).
Proof.
  destruct cb; cbn; auto.
  unfold disarmIfArmed. destruct (buttons s !! b) as [x |]; auto.
  destruct (armed x); auto.
Qed.

Lemma fire_clock (id : nat) (s : page) :
  time (clock (fire id s)) = time (clock s) /\
  nextId (clock (fire id s)) = nextId (clock s) /\
  timers (clock (fire id s)) = afterFiring id (timers (clock s)).
Proof.
  unfold fire.
  destruct (List.find _ _) as [t |] eqn:Hf.
  - destruct (call_clock (run t) (setTimers (afterFiring id (timers (clock s))) s))
      as (-> & -> & ->). auto.
  - repeat split. symmetry. apply afterFiring_same.
    intros t Ht Heq. apply list_elem_of_In in Ht.
    eapply find_none in Hf; [| exact Ht]. cbn in Hf.
    now apply bool_decide_eq_false in Hf.
Qed.

Lemma fires_clock (ids : list nat) (s : page) :
  time (clock (fires ids s)) = time (clock s) /\
  nextId (clock (fires ids s)) = nextId (clock s) /\
  timers (clock (fires ids s)) = afterAll ids (timers (clock s)).
Proof.
  unfold fires, afterAll. revert s.
  induction ids as [| id ids IH]; intros s; [auto |].
  cbn. destruct (IH (fire id s)) as (-> & -> & ->).
  destruct (fire_clock id s) as (-> & -> & ->). auto.
Qed.

Lemma fires_app (ids ids' : list nat) (s : page) :
  fires (ids ++ ids') s = fires ids' (fires ids s).
Proof. unfold fires. apply foldl_app. Qed.

Section Frame.
Context {A : Type} (D : callback -> bool) (obs : page -> A).
Hypothesis Hframe : frame D obs.

(** Firing a timer whose closure is not selected keeps the observation. *)
Lemma fire_frame (id : nat) (s : page) :
  (forall t, t ∈ timers (clock s) -> D (run t) = true -> tid t <> id) ->
  obs (fire id s) = obs s.
Proof.
  intros Hnot. unfold fire.
  destruct (List.find _ _) as [t |] eqn:Hf; [| reflexivity].
  apply find_tid_elem in Hf as [Hin Hid].
  rewrite (frame_call D obs Hframe), (frame_timers D obs Hframe); [reflexivity |].
  destruct (D (run t)) eqn:HD; [| reflexivity].
  exfalso. exact (Hnot t Hin HD Hid).
Qed.

Lemma fires_frame (ids : list nat) (s : page) :
  (forall t, t ∈ timers (clock s) -> D (run t) = true -> tid t ∉ ids) ->
  obs (fires ids s) = obs s.
Proof.
  revert s. induction ids as [| id ids IH]; intros s Hnot; [reflexivity |].
  change (fires (id :: ids) s) with (fires ids (fire id s)).
  rewrite IH.
  - apply fire_frame. intros t Ht HD Heq. apply (Hnot t Ht HD).
    rewrite Heq. left.
  - intros t' Ht' HD'.
    destruct (fire_clock id s) as (_ & _ & Htm). rewrite Htm in Ht'.
    apply afterFiring_elem in Ht' as (t & Ht & Hre).
    apply rearm_Some in Hre as (Htid & Hrun & _).
    rewrite Htid. rewrite Hrun in HD'.
    intros Hin. apply (Hnot t Ht HD'). now right.
Qed.

(** The selected timer [r] fires: the observation changes as its
    closure says. *)
Lemma fire_selected (g : N -> A -> A) (r : timer) (s : page) :
  (forall s', obs (call (run r) s') = g (time (clock s')) (obs s')) ->
  NoDup (tid <$> timers (clock s)) -> r ∈ timers (clock s) ->
  obs (fire (tid r) s) = g (time (clock s)) (obs s).
Proof.
  intros Hg Hnd Hin. unfold fire. rewrite (find_by_tid _ _ Hnd Hin).
  rewrite Hg. rewrite (frame_timers D obs Hframe). reflexivity.
Qed.

End Frame.

(** *** One millisecond *)

Lemma bump_clock (s : page) :
  time (clock (bump s)) = N.succ (time (clock s)) /\
  nextId (clock (bump s)) = nextId (clock s) /\
  timers (clock (bump s)) = timers (clock s).
Proof. auto. Qed.

Lemma tick_clock (s : page) :
  time (clock (tick s)) = N.succ (time (clock s)) /\
  nextId (clock (tick s)) = nextId (clock s) /\
  timers (clock (tick s)) =
    afterAll (dueNow (clock (bump s))) (timers (clock s)).
Proof.
  unfold tick. fold (fires (dueNow (clock (bump s))) (bump s)).
  destruct (fires_clock (dueNow (clock (bump s))) (bump s)) as (-> & -> & ->).
  auto.
Qed.

Lemma dueNow_elem (c : loop) (id : nat) :
  id ∈ dueNow c <-> exists t, t ∈ timers c /\ due t = time c /\ tid t = id.
Proof.
  unfold dueNow. rewrite list_elem_of_fmap. split.
  - intros (t & -> & Ht). apply list_elem_of_filter in Ht as [Hd Ht]. eauto.
  - intros (t & Ht & Hd & <-). exists t. split; [reflexivity |].
    apply list_elem_of_filter. auto.
Qed.

Lemma dueNow_NoDup (c : loop) : NoDup (tid <$> timers c) -> NoDup (dueNow c).
Proof.
  intros Hnd. unfold dueNow. eapply sublist_NoDup; [exact Hnd |].
  apply fmap_sublist, sublist_filter.
Qed.

(** Well-formedness survives a millisecond. *)
Lemma tick_wf (s : page) : wf s -> wf (tick s).
Proof.
  intros [Hnd Hfresh Hfut Hper].
  destruct (tick_clock s) as (Htime & Hnext & Htm).
  rewrite Forall_forall in Hfresh, Hfut, Hper.
  split; rewrite ?Htime, ?Hnext, Htm.
  - eapply sublist_NoDup; [exact Hnd | apply afterAll_tids].
  - apply Forall_forall. intros t' Ht'.
    apply afterAll_elem in Ht' as (t & Ht & -> & _). now apply Hfresh.
  - apply Forall_forall. intros t' Ht'.
    apply afterAll_elem in Ht' as (t & Ht & _ & _ & _ & Hcase).
    specialize (Hfut t Ht). specialize (Hper t Ht).
    destruct Hcase as [[Hnotin ->] | [_ (p & Hp & Hle)]].
    + assert (due t <> N.succ (time (clock s))); [| lia].
      intros Hd. apply Hnotin. apply dueNow_elem. exists t. auto.
    + assert (p <> 0%N) by congruence. lia.
  - apply Forall_forall. intros t' Ht'.
    apply afterAll_elem in Ht' as (t & Ht & _ & _ & -> & _). now apply Hper.
Qed.

Lemma advance_succ (n : N) (s : page) :
  advance (N.succ n) s = tick (advance n s).
Proof. unfold advance. apply N.iter_succ. Qed.

Lemma advance_add (n m : N) (s : page) :
  advance (n + m) s = advance m (advance n s).
Proof. unfold advance. rewrite N.add_comm. apply N.iter_add. Qed.

Lemma advance_wf (n : N) (s : page) : wf s -> wf (advance n s).
Proof.
  intros Hwf. induction n as [| n IH] using N.peano_ind; [exact Hwf |].
  rewrite advance_succ. now apply tick_wf.
Qed.

Lemma advance_time (n : N) (s : page) :
  time (clock (advance n s)) = (time (clock s) + n)%N.
Proof.
  induction n as [| n IH] using N.peano_ind; [cbn; lia |].
  rewrite advance_succ. destruct (tick_clock (advance n s)) as (-> & _).
  lia.
Qed.

Lemma afterAll_keeps (ids : list nat) (l : list timer) (t : timer) :
  t ∈ l -> tid t ∉ ids -> t ∈ afterAll ids l.
Proof.
  unfold afterAll. revert l. induction ids as [| id ids IH]; intros l Hin Hnot;
    [exact Hin |].
  cbn. apply not_elem_of_cons in Hnot as [Hne Hnot].
  apply IH; [| exact Hnot]. now apply afterFiring_keeps.
Qed.

Lemma afterAll_app (ids ids' : list nat) (l : list timer) :
  afterAll (ids ++ ids') l = afterAll ids' (afterAll ids l).
Proof. unfold afterAll. apply foldl_app. Qed.

Lemma timersOf_elem (D : callback -> bool) (s : page) (t : timer) :
  t ∈ timersOf D s <-> D (run t) = true /\ t ∈ timers (clock s).
Proof.
  unfold timersOf.
  apply (list_elem_of_filter (fun t => D (run t) = true)).
Qed.

Section Advance.
Context {A : Type} (D : callback -> bool) (obs : page -> A).
Hypothesis Hframe : frame D obs.

(** A millisecond at which no selected timer is due: the observation
    and the selected timers stay as they are. *)
Lemma tick_quiet (s : page) :
  wf s ->
  (forall t, t ∈ timersOf D s -> due t <> N.succ (time (clock s))) ->
  obs (tick s) = obs s /\ timersOf D (tick s) = timersOf D s.
Proof.
  intros Hwf Hq.
  assert (Hnot : forall t, t ∈ timers (clock s) -> D (run t) = true ->
                           tid t ∉ dueNow (clock (bump s))).
  { intros t Ht HD Hin. apply dueNow_elem in Hin as (u & Hu & Hdue & Htid).
    assert (u = t) by (eapply same_tid; eauto using wf_nodup). subst u.
    apply (Hq t); [apply timersOf_elem; auto | exact Hdue]. }
  split.
  - unfold tick. fold (fires (dueNow (clock (bump s))) (bump s)).
    rewrite (fires_frame D obs Hframe); [apply (frame_bump D obs Hframe) |].
    exact Hnot.
  - unfold timersOf at 1. destruct (tick_clock s) as (_ & _ & ->).
    rewrite afterAll_filter. apply afterAll_same.
    intros t Ht. apply list_elem_of_filter in Ht as [HD Ht]. now apply Hnot.
Qed.

(** The millisecond at which the selected timer [r], and no other
    selected timer, is due. *)
Lemma tick_fire (g : N -> A -> A) (r : timer) (s : page) :
  wf s ->
  (forall s', obs (call (run r) s') = g (time (clock s')) (obs s')) ->
  r ∈ timersOf D s ->
  due r = N.succ (time (clock s)) ->
  (forall t, t ∈ timersOf D s -> t <> r -> due t <> N.succ (time (clock s))) ->
  obs (tick s) = g (N.succ (time (clock s))) (obs s) /\
  timersOf D (tick s) = afterFiring (tid r) (timersOf D s).
Proof.
  intros Hwf Hg Hr Hdue Hothers.
  apply timersOf_elem in Hr as [HDr Hr].
  pose proof (wf_nodup s Hwf) as Hnd.
  set (ids := dueNow (clock (bump s))).
  assert (Hrin : tid r ∈ ids) by (apply dueNow_elem; exists r; auto).
  apply list_elem_of_split in Hrin as (pre & post & Hids).
  assert (Hndids : NoDup ids) by (apply dueNow_NoDup; exact Hnd).
  rewrite Hids in Hndids. apply NoDup_app in Hndids as (_ & Hpre & Hpost).
  apply NoDup_cons in Hpost as [Hpost _].
  assert (Hpre' : tid r ∉ pre).
  { intros Hin. apply (Hpre _ Hin). left. }
  assert (Hnot : forall t id, t ∈ timers (clock s) -> D (run t) = true ->
                   tid t = id -> id ∈ pre \/ id ∈ post -> False).
  { intros t id Ht HD Htid Hin.
    assert (Hin' : id ∈ ids).
    { rewrite Hids. apply elem_of_app. destruct Hin; [left | right; right]; auto. }
    apply dueNow_elem in Hin' as (u & Hu & Hdu & Htu).
    assert (u = t) by (eapply same_tid; eauto; congruence). subst u.
    destruct (decide (t = r)) as [-> | Hne].
    - subst id. destruct Hin; auto.
    - apply (Hothers t); [apply timersOf_elem; auto | exact Hne | exact Hdu]. }
  split.
  - unfold tick. fold ids. fold (fires ids (bump s)). rewrite Hids.
    rewrite fires_app.
    change (fires (tid r :: post) ?x) with (fires post (fire (tid r) x)).
    set (s1 := fires pre (bump s)).
    destruct (fires_clock pre (bump s)) as (Ht1 & _ & Htm1). fold s1 in Ht1, Htm1.
    assert (Hobs1 : obs s1 = obs s).
    { unfold s1. rewrite (fires_frame D obs Hframe);
        [apply (frame_bump D obs Hframe) |].
      intros t Ht HD Hin. eapply Hnot; eauto. }
    assert (Hr1 : r ∈ timers (clock s1)).
    { rewrite Htm1. apply afterAll_keeps; auto. }
    assert (Hnd1 : NoDup (tid <$> timers (clock s1))).
    { rewrite Htm1. eapply sublist_NoDup; [exact Hnd | apply afterAll_tids]. }
    rewrite (fires_frame D obs Hframe).
    + rewrite (fire_selected D obs Hframe g r s1 Hg Hnd1 Hr1).
      rewrite Ht1, Hobs1. reflexivity.
    + intros t' Ht' HD' Hin.
      destruct (fire_clock (tid r) s1) as (_ & _ & Htm2). rewrite Htm2, Htm1 in Ht'.
      apply afterFiring_elem in Ht' as (u & Hu & Hre).
      apply rearm_Some in Hre as (Htid & Hrun & _).
      apply afterAll_elem in Hu as (t & Ht & Htid' & Hrun' & _).
      eapply (Hnot t (tid t')); eauto; congruence.
  - unfold timersOf at 1. destruct (tick_clock s) as (_ & _ & ->).
    fold ids. rewrite afterAll_filter. fold (timersOf D s).
    rewrite Hids, afterAll_app.
    change (afterAll (tid r :: post) ?l) with (afterAll post (afterFiring (tid r) l)).
    rewrite (afterAll_same pre).
    + apply afterAll_same. intros t' Ht' Hin.
      apply afterFiring_elem in Ht' as (t & Ht & Hre).
      apply rearm_Some in Hre as (Htid & _).
      apply timersOf_elem in Ht as [HD Ht].
      eapply (Hnot t (tid t')); eauto.
    + intros t Ht Hin. apply timersOf_elem in Ht as [HD Ht].
      eapply (Hnot t (tid t)); eauto.
Qed.

(** While no selected timer is due, nothing happens to the
    observation. *)
Lemma advance_quiet (n : N) (s : page) :
  wf s ->
  (forall t, t ∈ timersOf D s -> (time (clock s) + n < due t)%N) ->
  obs (advance n s) = obs s /\ timersOf D (advance n s) = timersOf D s.
Proof.
  intros Hwf. induction n as [| n IH] using N.peano_ind; intros Hq; [auto |].
  rewrite advance_succ.
  destruct IH as [IHo IHt].
  { intros t Ht. specialize (Hq t Ht). lia. }
  destruct (tick_quiet (advance n s)) as [Ho Ht].
  - now apply advance_wf.
  - intros t Ht. rewrite IHt in Ht. specialize (Hq t Ht).
    rewrite advance_time. lia.
  - rewrite Ho, Ht. auto.
Qed.

(** The selected timer [r] is the next selected timer due: when its
    time comes the observation changes as its closure says, and [r] is
    due one period later or gone. *)
Lemma advance_fire (g : N -> A -> A) (r : timer) (s : page) :
  wf s ->
  (forall s', obs (call (run r) s') = g (time (clock s')) (obs s')) ->
  r ∈ timersOf D s ->
  (forall t, t ∈ timersOf D s -> t <> r -> (due r < due t)%N) ->
  obs (advance (due r - time (clock s)) s) = g (due r) (obs s) /\
  timersOf D (advance (due r - time (clock s)) s)
    = afterFiring (tid r) (timersOf D s).
Proof.
  intros Hwf Hg Hr Hothers.
  assert (Hfut : (time (clock s) < due r)%N).
  { pose proof (wf_future s Hwf) as Hf. rewrite Forall_forall in Hf.
    apply Hf. now apply timersOf_elem in Hr as [_ Hr]. }
  replace (due r - time (clock s))%N
    with (N.succ (due r - time (clock s) - 1)) by lia.
  set (n := (due r - time (clock s) - 1)%N).
  rewrite advance_succ.
  destruct (advance_quiet n s Hwf) as [Ho Ht].
  { intros t Ht. destruct (decide (t = r)) as [-> | Hne]; [lia |].
    specialize (Hothers t Ht Hne). lia. }
  destruct (tick_fire g r (advance n s)) as [Ho' Ht'].
  - now apply advance_wf.
  - exact Hg.
  - now rewrite Ht.
  - rewrite advance_time. lia.
  - intros t Hin Hne. rewrite Ht in Hin. specialize (Hothers t Hin Hne).
    rewrite advance_time. lia.
  - rewrite Ho', Ht', Ho, Ht, advance_time.
    replace (N.succ (time (clock s) + n)) with (due r) by lia. auto.
Qed.

End Advance.

(** *** Setting and clearing timers *)

Lemma wf_same_clock (s s' : page) : clock s' = clock s -> wf s -> wf s'.
Proof. intros Heq [H1 H2 H3 H4]. split; rewrite Heq; assumption. Qed.

Lemma wf_addTimer (cb : callback) (ms : N) (per : option N) (s : page) :
  (0 < ms)%N -> per <> Some 0%N -> wf s ->
  wf (upd_clock (addTimer cb ms per) s).
Proof.
  intros Hms Hper [Hnd Hfresh Hfut Hp].
  rewrite Forall_forall in Hfresh.
  split; cbn.
  - rewrite fmap_app. apply NoDup_app. split; [exact Hnd |]. split.
    + intros id Hin Hin'. cbn in Hin'. apply list_elem_of_singleton in Hin'.
      apply list_elem_of_fmap in Hin as (t & -> & Ht).
      specialize (Hfresh t Ht). lia.
    + cbn. apply NoDup_singleton.
  - apply Forall_app. split.
    + apply Forall_forall. intros t Ht. specialize (Hfresh t Ht). lia.
    + apply Forall_singleton. cbn. lia.
  - apply Forall_app. split; [exact Hfut |]. apply Forall_singleton. cbn. lia.
  - apply Forall_app. split; [exact Hp |]. apply Forall_singleton. exact Hper.
Qed.

Lemma wf_setInterval (cb : callback) (ms : N) (s : page) :
  (0 < ms)%N -> wf s -> wf (setInterval cb ms s).
Proof.
  intros Hms. apply wf_addTimer; [exact Hms |]. intros [= ->]. lia.
Qed.

Lemma wf_setTimeout (cb : callback) (ms : N) (s : page) :
  (0 < ms)%N -> wf s -> wf (setTimeout cb ms s).
Proof. intros Hms. apply wf_addTimer; [exact Hms | discriminate]. Qed.

Lemma Forall_filtered {X : Type} (P Q : X -> Prop)
    `{!forall x, Decision (Q x)} (l : list X) :
  Forall P l -> Forall P (filter Q l).
Proof.
  rewrite !Forall_forall. intros Hall x Hx.
  apply list_elem_of_filter in Hx as [_ Hx]. now apply Hall.
Qed.

Lemma wf_clearInterval (h : option nat) (s : page) :
  wf s -> wf (clearInterval h s).
Proof.
  destruct h as [id |]; [| auto]. intros [Hnd Hfresh Hfut Hp].
  split; cbn.
  - eapply sublist_NoDup; [exact Hnd |]. apply fmap_sublist, sublist_filter.
  - now apply Forall_filtered.
  - now apply Forall_filtered.
  - now apply Forall_filtered.
Qed.

Lemma wf_showToast (m : string) (isOk : bool) (s : page) :
  wf s -> wf (showToast m isOk s).
Proof.
  intros Hwf. unfold showToast. apply wf_setTimeout; [lia |].
  eapply wf_same_clock; [| exact Hwf]. reflexivity.
Qed.

Lemma wf_mousedown (s : page) : wf s -> wf (mousedown s).
Proof. apply wf_clearInterval. Qed.

Lemma wf_mouseup (s : page) : wf s -> wf (mouseup s).
Proof.
  intros Hwf. unfold mouseup.
  apply (wf_same_clock (setInterval CbReload (period (kind s)) s));
    [reflexivity |].
  apply wf_setInterval; [destruct (kind s); cbn; lia | exact Hwf].
Qed.

Lemma wf_blank k btns bar rws st : wf (blank k btns bar rws st).
Proof. split; cbn; constructor. Qed.

Lemma timersOf_addTimer (D : callback -> bool) cb ms per (s : page) :
  timersOf D (upd_clock (addTimer cb ms per) s) =
  timersOf D s ++
    (if D cb then [{| tid := nextId (clock s); due := (time (clock s) + ms)%N;
                      every := per; run := cb |}] else []).
Proof.
  unfold timersOf. cbn. rewrite filter_app. f_equal.
  rewrite filter_cons, filter_nil. cbn.
  destruct (D cb); case_decide; congruence.
Qed.

Lemma filter_swap {X : Type} (P Q : X -> Prop)
    `{!forall x, Decision (P x)} `{!forall x, Decision (Q x)} (l : list X) :
  filter P (filter Q l) = filter Q (filter P l).
Proof.
  induction l as [| x l IH]; [reflexivity |].
  rewrite !filter_cons.
  destruct (decide (Q x)), (decide (P x)); rewrite ?filter_cons;
    repeat case_decide; try contradiction; rewrite ?IH; reflexivity.
Qed.

Lemma filter_all {X : Type} (P : X -> Prop)
    `{!forall x, Decision (P x)} (l : list X) :
  Forall P l -> filter P l = l.
Proof.
  induction 1 as [| x l Hx _ IH]; [reflexivity |].
  rewrite filter_cons_True by exact Hx. now rewrite IH.
Qed.

Lemma timersOf_clearInterval (D : callback -> bool) (id : nat) (s : page) :
  timersOf D (clearInterval (Some id) s) =
  filter (fun t => tid t <> id) (timersOf D s).
Proof. unfold timersOf. cbn. apply filter_swap. Qed.

(** *** Observations and the closures that change them *)

(** Only the reloading closure appends to the log of reloads. *)
Lemma frame_reloads : frame isReload (fun s => reloads (clock s)).
Proof.
  split; auto. intros cb s Hcb. destruct cb; try discriminate; cbn; auto.
  unfold disarmIfArmed. destruct (buttons s !! b) as [x |]; auto.
  destruct (armed x); auto.
Qed.

Lemma call_reload (s : page) :
  reloads (clock (call CbReload s)) = time (clock s) :: reloads (clock s).
Proof. reflexivity. Qed.

(** No closure run by a timer changes which bundle runs, the
    scheduler's variable, the terminal or the log view. *)
Lemma frame_static :
  frame noCallback (fun s => (kind s, rt s, term s, logs s)).
Proof.
  split; auto. intros cb s _. destruct cb; cbn; auto.
  unfold disarmIfArmed. destruct (buttons s !! b) as [x |]; auto.
  destruct (armed x); auto.
Qed.

Lemma advance_static (n : N) (s : page) :
  wf s ->
  kind (advance n s) = kind s /\ rt (advance n s) = rt s /\
  term (advance n s) = term s /\ logs (advance n s) = logs s.
Proof.
  intros Hwf.
  destruct (advance_quiet noCallback _ frame_static n s Hwf) as [Hobs _].
  - intros t Ht. apply timersOf_elem in Ht as [Hf _]. discriminate.
  - now inversion Hobs.
Qed.

Lemma advance_kind_rt (n : N) (s : page) :
  wf s -> kind (advance n s) = kind s /\ rt (advance n s) = rt s.
Proof. intros Hwf. destruct (advance_static n s Hwf) as (? & ? & _). auto. Qed.

(** *** The scheduler's timer *)

(** A running scheduler reloads when its timer is due, not before, and
    is then due one period later. *)
Lemma scheduled_fire (s : page) (d : N) :
  wf s -> scheduled s d ->
  (forall n, (time (clock s) + n < d)%N ->
     reloads (clock (advance n s)) = reloads (clock s)) /\
  reloads (clock (advance (d - time (clock s)) s)) = d :: reloads (clock s) /\
  scheduled (advance (d - time (clock s)) s) (d + period (kind s)).
Proof.
  intros Hwf Hs. unfold scheduled, reloadTimers in Hs.
  set (r := {| tid := rt s; due := d; every := Some (period (kind s));
               run := CbReload |}) in *.
  assert (Hr : r ∈ timersOf isReload s) by (rewrite Hs; left).
  split; [| split].
  - intros n Hn.
    apply (advance_quiet isReload _ frame_reloads n s Hwf).
    intros t Ht. rewrite Hs in Ht. apply list_elem_of_singleton in Ht as ->.
    exact Hn.
  - destruct (advance_fire isReload _ frame_reloads
                (fun tm l => tm :: l) r s Hwf) as [Ho _]; auto.
    intros t Ht Hne. rewrite Hs in Ht.
    apply list_elem_of_singleton in Ht. contradiction.
  - destruct (advance_fire isReload _ frame_reloads
                (fun tm l => tm :: l) r s Hwf) as [_ Ht]; auto.
    { intros t Hin Hne. rewrite Hs in Hin.
      apply list_elem_of_singleton in Hin. contradiction. }
    change (due r) with d in Ht.
    destruct (advance_kind_rt (d - time (clock s)) s Hwf) as [Hk Hrt].
    unfold scheduled, reloadTimers. rewrite Ht, Hs, Hk, Hrt.
    unfold afterFiring. cbn. unfold rearm. cbn.
    case_decide; [reflexivity | contradiction].
Qed.

(** With no reloading timer pending, no reload happens, however long. *)
Lemma suspended_quiet (s : page) (n : N) :
  wf s -> reloadTimers s = [] ->
  reloads (clock (advance n s)) = reloads (clock s) /\
  reloadTimers (advance n s) = [].
Proof.
  intros Hwf Hs. unfold reloadTimers in *.
  destruct (advance_quiet isReload _ frame_reloads n s Hwf) as [Ho Ht].
  - intros t Ht. rewrite Hs in Ht. inversion Ht.
  - rewrite Ho, Ht. auto.
Qed.

Lemma scheduled_mousedown (s : page) (d : N) :
  scheduled s d -> reloadTimers (mousedown s) = [].
Proof.
  intros Hs. unfold mousedown, reloadTimers.
  rewrite timersOf_clearInterval. unfold scheduled, reloadTimers in Hs.
  rewrite Hs. rewrite filter_cons, filter_nil. cbn.
  case_decide; [contradiction | reflexivity].
Qed.

Lemma suspended_mouseup (s : page) :
  reloadTimers s = [] ->
  scheduled (mouseup s) (time (clock s) + period (kind s)).
Proof.
  intros Hs. unfold scheduled, mouseup, reloadTimers, setInterval in *.
  change (timersOf isReload (set_rt ?h ?x)) with (timersOf isReload x).
  rewrite timersOf_addTimer, Hs. reflexivity.
Qed.

(** A running scheduler keeps running while time passes. *)
Lemma scheduled_advance (n : N) (s : page) (d : N) :
  wf s -> scheduled s d -> exists d', scheduled (advance n s) d'.
Proof.
  intros Hwf Hs. induction n as [| n IH] using N.peano_ind; [eauto |].
  destruct IH as [d' Hd']. rewrite advance_succ.
  set (s' := advance n s) in *.
  assert (Hwf' : wf s') by (now apply advance_wf).
  destruct (decide (d' = N.succ (time (clock s')))) as [Hdue | Hdue].
  - destruct (scheduled_fire s' d' Hwf' Hd') as (_ & _ & Hnext).
    replace (d' - time (clock s'))%N with 1%N in Hnext by lia.
    eauto.
  - exists d'. unfold scheduled, reloadTimers in *.
    destruct (tick_quiet isReload _ frame_reloads s' Hwf') as [_ Ht].
    + intros t Ht. rewrite Hd' in Ht. apply list_elem_of_singleton in Ht as ->.
      exact Hdue.
    + change (tick s') with (advance 1 s').
      destruct (advance_kind_rt 1 s' Hwf') as [-> ->].
      change (advance 1 s') with (tick s'). rewrite Ht. exact Hd'.
Qed.

(** A running scheduler reloads once per period, for ever. *)
Lemma scheduled_repeats (s : page) (d : N) (k : nat) :
  wf s -> scheduled s d ->
  let p := period (kind s) in
  let s' := advance (d - time (clock s) + N.of_nat k * p) s in
  scheduled s' (d + N.of_nat (S k) * p) /\
  length (reloads (clock s')) = (length (reloads (clock s)) + S k)%nat.
Proof.
  intros Hwf Hs p.
  assert (Hlt : (time (clock s) < d)%N).
  { pose proof (wf_future s Hwf) as Hf. rewrite Forall_forall in Hf.
    apply (Hf {| tid := rt s; due := d; every := Some p; run := CbReload |}).
    assert (Hin : {| tid := rt s; due := d; every := Some p; run := CbReload |}
                  ∈ reloadTimers s) by (rewrite Hs; left).
    now apply timersOf_elem in Hin as [_ Hin]. }
  induction k as [| k IH]; cbn zeta.
  - replace (d - time (clock s) + N.of_nat 0 * p)%N with (d - time (clock s))%N
      by lia.
    destruct (scheduled_fire s d Hwf Hs) as (_ & Hat & Hnext).
    split.
    + replace (d + N.of_nat 1 * p)%N with (d + p)%N by lia. exact Hnext.
    + rewrite Hat. cbn. lia.
  - cbn zeta in IH. destruct IH as [IHs IHl].
    replace (d - time (clock s) + N.of_nat (S k) * p)%N
      with (d - time (clock s) + N.of_nat k * p + p)%N by lia.
    rewrite advance_add.
    set (sk := advance (d - time (clock s) + N.of_nat k * p) s) in *.
    assert (Hwfk : wf sk) by (now apply advance_wf).
    assert (Hkk : kind sk = kind s) by (now apply advance_kind_rt).
    assert (Htk : time (clock sk) = (d + N.of_nat k * p)%N).
    { unfold sk. rewrite advance_time. lia. }
    destruct (scheduled_fire sk _ Hwfk IHs) as (_ & Hat & Hnext).
    rewrite Hkk in Hnext. fold p in Hnext.
    replace (d + N.of_nat (S k) * p - time (clock sk))%N with p in Hat, Hnext
      by lia.
    split.
    + replace (d + N.of_nat (S (S k)) * p)%N
        with (d + N.of_nat (S k) * p + p)%N by lia.
      exact Hnext.
    + rewrite Hat. cbn [length]. rewrite IHl. lia.
Qed.

(** *** Every reachable page is well formed *)

Lemma wf_upd_net f s : wf s -> wf (upd_net f s).
Proof. apply wf_same_clock. reflexivity. Qed.

Lemma wf_upd_buttons f s : wf s -> wf (upd_buttons f s).
Proof. apply wf_same_clock. reflexivity. Qed.

Lemma wf_upd_term f s : wf s -> wf (upd_term f s).
Proof. apply wf_same_clock. reflexivity. Qed.

Lemma wf_upd_logs f s : wf s -> wf (upd_logs f s).
Proof. apply wf_same_clock. reflexivity. Qed.

Lemma wf_set_rt h s : wf s -> wf (set_rt h s).
Proof. apply wf_same_clock. reflexivity. Qed.

Ltac wf_step :=
  first
    [ assumption
    | apply wf_upd_net | apply wf_upd_buttons | apply wf_upd_term
    | apply wf_upd_logs | apply wf_set_rt | apply wf_showToast
    | apply wf_clearInterval
    | apply wf_setTimeout; [lia |]
    | apply wf_setInterval; [lia |] ].

Ltac wf_tac :=
  unfold fetch, updButton, doDelete, disconnectTerminal, stopLogStream,
    onopen, onclose, onerror, onmessage, onstreamerror, mousedown;
  repeat wf_step.

Lemma wf_pollReplied (d : reply) (s : page) : wf s -> wf (pollReplied d s).
Proof.
  intros Hwf. unfold pollReplied.
  destruct (lines d); case_decide; destruct (creating d); wf_tac.
Qed.

Lemma wf_resume (k : awaiting) (o : outcome) (s : page) :
  wf s -> wf (resume k o s).
Proof.
  intros Hwf. destruct k, o as [| d]; cbn [resume];
    try destruct (ok d); try (now apply wf_pollReplied); wf_tac.
Qed.

Lemma wf_step_event (e : event) (s : page) : wf s -> wf (step e s).
Proof.
  intros Hwf. destruct e; cbn [step].
  - now apply advance_wf.
  - wf_tac.
  - now apply wf_mouseup.
  - destruct (clickable b s); [| assumption]. unfold doAction.
    destruct (buttons s !! b); wf_tac.
  - destruct (clickable b s); [| assumption]. unfold confirmDelete.
    destruct (buttons s !! b) as [x |]; [destruct (armed x) |]; wf_tac.
  - destruct (_ && _); [| assumption]. unfold bulkAction.
    destruct (checkedRows s); [assumption |].
    case_decide; [destruct confirmed |]; wf_tac.
  - destruct (_ && _); [| assumption]. unfold connectTerminal.
    destruct (termWs (term s)); wf_tac.
  - destruct (_ && _); wf_tac.
  - case_bool_decide; [| assumption]. unfold startLogStream.
    destruct (evtSource (logs s)); wf_tac.
  - unfold settle. destruct (awaitingOf rid s); [| assumption].
    apply wf_resume. wf_tac.
  - destruct (socks (term s) !! n) as [[] |]; wf_tac.
  - destruct (socks (term s) !! n) as [[] |]; wf_tac.
  - destruct (socks (term s) !! n) as [[] |]; wf_tac.
  - case_decide; wf_tac.
  - case_decide; wf_tac.
Qed.

(** Whatever happens to a loaded page, its timer table stays well
    formed. *)
Lemma wf_play (es : list event) (s : page) : wf s -> wf (play es s).
Proof.
  revert s. induction es as [| e es IH]; intros s Hwf; [exact Hwf |].
  cbn. apply IH. now apply wf_step_event.
Qed.

(** *** Settling *)

(** A request that is waited for settles into the rest of its function. *)
Lemma settle_awaiting (rid : nat) (o : outcome) (k : awaiting) (s : page) :
  awaitingOf rid s = Some k ->
  settle rid o s = resume k o (upd_net (finish rid) s).
Proof. intros Hk. unfold settle. rewrite Hk. reflexivity. Qed.

End TimerProps.

(* ===================================================================== *)
(** ** The listing page as it is served *)
(* ===================================================================== *)

Module ListingProps.
Import Bundle Page TimerProps.


Lemma mainBundle_rejected : mainBundleRejected = true.
Proof. vm_compute. reflexivity. Qed.

Lemma loadListing_unscripted btns bar rws :
  loadListing btns bar rws = Unscripted (blank Listing btns bar rws "").
Proof. unfold loadListing. now rewrite mainBundle_rejected. Qed.

(** What a document shows apart from its clock. *)
Lemma frame_all :
  frame (fun _ => true)
        (fun s => (reloads (clock s), homes (clock s), net s, buttons s,
                   toastEl s, rows s, bulkBar s, kind s)).
Proof. split; auto. intros cb s Hcb. discriminate. Qed.

Lemma docPlay_cons (e : event) (es : list event) (d : document) :
  docPlay (e :: es) d = docPlay es (docStep e d).
Proof. reflexivity. Qed.

(** With no timer pending, time changes nothing but the clock. *)
Lemma idle_advance (n : N) (s : page) :
  wf s -> timers (clock s) = [] ->
  wf (advance n s) /\ timers (clock (advance n s)) = [] /\
  reloads (clock (advance n s)) = reloads (clock s) /\
  homes (clock (advance n s)) = homes (clock s) /\
  net (advance n s) = net s /\ buttons (advance n s) = buttons s /\
  toastEl (advance n s) = toastEl s /\ rows (advance n s) = rows s /\
  bulkBar (advance n s) = bulkBar s /\ kind (advance n s) = kind s.
Proof.
  intros Hwf Hnone.
  destruct (advance_quiet (fun _ => true) _ frame_all n s Hwf) as [Ho Ht].
  - intros t Ht. unfold timersOf in Ht. rewrite Hnone in Ht. inversion Ht.
  - split; [now apply advance_wf |]. split.
    + unfold timersOf in Ht. rewrite Hnone in Ht. cbn in Ht.
      rewrite filter_all in Ht; [exact Ht |].
      apply Forall_forall. intros t _. reflexivity.
    + inversion Ho. repeat split; assumption.
Qed.

(** A document whose bundle was rejected stays as it was loaded,
    whatever happens to it. *)
Lemma unscripted_play (es : list event) (s : page) :
  wf s -> timers (clock s) = [] ->
  exists s', docPlay es (Unscripted s) = Unscripted s' /\
    timers (clock s') = [] /\
    reloads (clock s') = reloads (clock s) /\
    homes (clock s') = homes (clock s) /\
    net s' = net s /\ buttons s' = buttons s /\
    toastEl s' = toastEl s /\ rows s' = rows s /\
    bulkBar s' = bulkBar s /\ kind s' = kind s.
Proof.
  revert s. induction es as [| e es IH]; intros s Hwf Hnone.
  - exists s. repeat split; auto.
  - rewrite docPlay_cons.
    assert (Hstep : docStep e (Unscripted s) = Unscripted s \/
                    exists n, docStep e (Unscripted s) = Unscripted (advance n s)).
    { destruct e; cbn; eauto. }
    destruct Hstep as [-> | [n ->]]; [now apply IH |].
    destruct (idle_advance n s Hwf Hnone)
      as (Hwf' & Hn' & Hr & Hh & Hnet & Hb & Ht & Hrw & Hbar & Hk).
    destruct (IH (advance n s) Hwf' Hn')
      as (s' & Hplay & Hn'' & Hr' & Hh' & Hnet' & Hb' & Ht' & Hrw' & Hbar' & Hk').
    exists s'. split; [exact Hplay |].
    repeat split; congruence.
Qed.

(** The served listing page, whatever happens to it. *)
Lemma listing_inert btns bar rws (es : list event) :
  let s := pageOf (docPlay es (loadListing btns bar rws)) in
  timers (clock s) = [] /\ reloads (clock s) = [] /\ homes (clock s) = [] /\
  sent (net s) = [] /\ inflight (net s) = [] /\ buttons s = btns /\
  toastShown (toastEl s) = false /\ rows s = rws /\ bulkBar s = bar.
Proof.
  cbn zeta. rewrite loadListing_unscripted.
  destruct (unscripted_play es (blank Listing btns bar rws ""))
    as (s' & -> & Hn & Hr & Hh & Hnet & Hb & Ht & Hrw & Hbar & _).
  - apply wf_blank.
  - reflexivity.
  - cbn [pageOf]. rewrite Hn, Hr, Hh, Hnet, Hb, Ht, Hrw, Hbar.
    repeat split.
Qed.


End ListingProps.

(* ===================================================================== *)
(** ** The Live Refresh Scheduler and the sessions of the detail page *)
(* ===================================================================== *)

Module SchedulerProps.
Import Page TimerProps ListingProps.

Lemma loadDetail_scheduled btns :
  wf (loadDetail btns) /\ scheduled (loadDetail btns) 15000.
Proof. split; [apply wf_mouseup, wf_blank | reflexivity]. Qed.

(** A page on which the interval the scheduler's variable holds is the
    only timer that reloads: the page reloads when the interval is due and
    not before, and the interval is then due one period later, so that [k]
    further periods bring [k] further reloads.  A pointer-down cancels the
    interval, so that no reload fires however long the pointer stays down;
    after the pointer-up no reload fires for less than a period, and exactly
    one when the period is over.  The detail page is such a page once it is
    loaded. *)
Lemma refresh_when_scheduled :
  (forall btns, wf (loadDetail btns) /\ scheduled (loadDetail btns) 15000) /\
  (forall s d,
     wf s -> scheduled s d ->
     let p := period (kind s) in
     (forall n, (time (clock s) + n < d)%N ->
        reloads (clock (play [Elapse n] s)) = reloads (clock s)) /\
     reloads (clock (play [Elapse (d - time (clock s))] s)) = d :: reloads (clock s) /\
     scheduled (play [Elapse (d - time (clock s))] s) (d + p) /\
     (forall k : nat,
        length (reloads (clock (play [Elapse (d - time (clock s) + N.of_nat k * p)] s)))
          = (length (reloads (clock s)) + S k)%nat) /\
     (forall n,
        reloadTimers (play [MouseDown; Elapse n] s) = [] /\
        reloads (clock (play [MouseDown; Elapse n] s)) = reloads (clock s)) /\
     (forall n m,
        (m < p)%N ->
        reloads (clock (play [MouseDown; Elapse n; MouseUp; Elapse m] s))
          = reloads (clock s)) /\
     (forall n,
        reloads (clock (play [MouseDown; Elapse n; MouseUp; Elapse p] s))
          = (time (clock s) + n + p)%N :: reloads (clock s))).
Proof.
  split.
  - apply loadDetail_scheduled.
  - intros s d Hwf Hs p. cbn [play foldl step].
    destruct (scheduled_fire s d Hwf Hs) as (Hbefore & Hat & Hnext).
    split; [exact Hbefore |]. split; [exact Hat |]. split; [exact Hnext |].
    split; [intros k; apply (scheduled_repeats s d k Hwf Hs) |].
    assert (Hdown : forall n,
               wf (advance n (mousedown s)) /\
               reloadTimers (advance n (mousedown s)) = [] /\
               reloads (clock (advance n (mousedown s))) = reloads (clock s) /\
               kind (advance n (mousedown s)) = kind s /\
               time (clock (advance n (mousedown s))) = (time (clock s) + n)%N).
    { intros n. pose proof (wf_mousedown s Hwf) as Hwd.
      destruct (suspended_quiet (mousedown s) n Hwd
                  (scheduled_mousedown s d Hs)) as [Hr Ht].
      destruct (advance_kind_rt n (mousedown s) Hwd) as [Hk _].
      split; [now apply advance_wf |]. split; [exact Ht |].
      split; [rewrite Hr; reflexivity |]. split; [exact Hk |].
      rewrite advance_time. reflexivity. }
    assert (Hup : forall n,
               let s' := mouseup (advance n (mousedown s)) in
               (forall m, (m < p)%N ->
                  reloads (clock (advance m s')) = reloads (clock s)) /\
               reloads (clock (advance p s'))
                 = (time (clock s) + n + p)%N :: reloads (clock s)).
    { intros n s'.
      destruct (Hdown n) as (Hwn & Htn & Hrn & Hkn & Htime).
      pose proof (wf_mouseup _ Hwn) as Hws'. fold s' in Hws'.
      pose proof (suspended_mouseup _ Htn) as Hs'. fold s' in Hs'.
      rewrite Hkn, Htime in Hs'. fold p in Hs'.
      destruct (scheduled_fire s' _ Hws' Hs') as (Hb' & Ha' & _).
      assert (Hts' : time (clock s') = (time (clock s) + n)%N) by exact Htime.
      assert (Hrs' : reloads (clock s') = reloads (clock s)) by exact Hrn.
      split.
      - intros m Hm. rewrite Hb' by lia. exact Hrs'.
      - replace (time (clock s) + n + p - time (clock s'))%N with p in Ha' by lia.
        rewrite Ha', Hrs'. reflexivity. }
    split; [| split].
    + intros n. destruct (Hdown n) as (_ & Ht & Hr & _). auto.
    + intros n m Hm. now apply (Hup n).
    + intros n. apply (Hup n).
Qed.

(** C6 fails on both pages.  The bundle of the listing page is rejected
    by the browser, so that no interval is ever installed there: whatever
    happens on the served listing and however long one waits, no timer is
    pending and no reload fires.  On the detail page a pointer-down clears
    only the interval the variable holds: after a terminal connection that
    fails (an error of the socket, then its close, which installs a second
    interval and hands it to the variable) the interval of the page load is
    out of reach, and with the pointer held down from then on the page
    reloads 15 s after it was loaded. *)
Theorem refresh_schedule_fails :
  (forall btns bar rws es,
     let s := pageOf (docPlay es (loadListing btns bar rws)) in
     timers (clock s) = [] /\ reloads (clock s) = []) /\
  (forall btns pod,
     let failed := play [ClickConnect pod; SockError 1; SockClose 1]
                     (loadDetail btns) in
     let down := play [MouseDown] failed in
     due <$> reloadTimers failed = [15000%N; 15000%N] /\
     time (clock down) = 0%N /\
     due <$> reloadTimers down = [15000%N] /\
     tid <$> reloadTimers down <> [rt down] /\
     reloads (clock (play [Elapse 14999] down)) = [] /\
     reloads (clock (play [Elapse 15000] down)) = [15000%N]).
Proof.
  split.
  - intros btns bar rws es.
    destruct (listing_inert btns bar rws es) as (Ht & Hr & _). auto.
  - intros btns pod. cbn zeta.
    split; [vm_compute; reflexivity |].
    split; [vm_compute; reflexivity |].
    split; [vm_compute; reflexivity |].
    split; [vm_compute; discriminate |].
    split; vm_compute; reflexivity.
Qed.

(** *** The terminal socket and the scheduler *)

(** When the socket opens, the scheduler's timer is cleared. *)
Lemma sockOpen_suspends (s : page) (d : N) (n : nat) :
  wf s -> scheduled s d -> socks (term s) !! n = Some Connecting ->
  let s' := step (SockOpen n) s in
  wf s' /\ reloadTimers s' = [] /\ clock s' = clock (mousedown s) /\
  kind s' = kind s /\ logs s' = logs s /\
  term s' = setTermView "Connected" false true (setSock n Open (term s)).
Proof.
  intros Hwf Hs Hn s'. unfold s'. cbn [step]. rewrite Hn.
  split; [| split; [| repeat split]].
  - unfold onopen. apply wf_clearInterval.
    eapply wf_same_clock; [| exact Hwf]. reflexivity.
  - exact (scheduled_mousedown s d Hs).
Qed.

(** When the socket closes, a fresh 15 s timer becomes the scheduler's. *)
Lemma sockClose_adds (s : page) (n : nat) (st : readyState) :
  wf s -> socks (term s) !! n = Some st -> st <> Closed ->
  let s' := step (SockClose n) s in
  wf s' /\
  reloadTimers s' = reloadTimers s ++
    [{| tid := rt s'; due := (time (clock s) + 15000)%N;
        every := Some 15000%N; run := CbReload |}] /\
  time (clock s') = time (clock s) /\ reloads (clock s') = reloads (clock s) /\
  kind s' = kind s /\ logs s' = logs s /\
  term s' = setTermView "Disconnected" true false (setSock n Closed (term s)).
Proof.
  intros Hwf Hn Hst s'.
  assert (Hstep : s' = onclose (upd_term (setSock n Closed) s)).
  { unfold s'. cbn [step]. rewrite Hn. destruct st; congruence. }
  rewrite Hstep. split; [| split; [| repeat split]].
  - unfold onclose.
    apply (wf_same_clock
             (setInterval CbReload 15000
                (upd_term (setTermView "Disconnected" true false)
                   (upd_term (setSock n Closed) s)))); [reflexivity |].
    apply wf_setInterval; [lia |].
    eapply wf_same_clock; [| exact Hwf]. reflexivity.
  - unfold reloadTimers, onclose, setInterval.
    change (timersOf isReload (set_rt ?h ?x)) with (timersOf isReload x).
    rewrite timersOf_addTimer. reflexivity.
Qed.

Lemma sockClose_resumes (s : page) (n : nat) (st : readyState) :
  wf s -> kind s = Detail -> reloadTimers s = [] ->
  socks (term s) !! n = Some st -> st <> Closed ->
  scheduled (step (SockClose n) s) (time (clock s) + 15000).
Proof.
  intros Hwf Hk Hs Hn Hst.
  destruct (sockClose_adds s n st Hwf Hn Hst) as (_ & Ht & _ & _ & Hk' & _).
  unfold scheduled. rewrite Ht, Hs, Hk', Hk. reflexivity.
Qed.

Lemma scheduled_same (s s' : page) (d : N) :
  clock s' = clock s -> rt s' = rt s -> kind s' = kind s ->
  scheduled s d -> scheduled s' d.
Proof.
  unfold scheduled, reloadTimers, timersOf. intros -> -> ->. auto.
Qed.

Lemma reloadTimers_same (s s' : page) :
  clock s' = clock s -> reloadTimers s' = reloadTimers s.
Proof. unfold reloadTimers, timersOf. intros ->. reflexivity. Qed.

(** [connectTerminal] toggles: called while a session handle exists it
    is [disconnectTerminal], so that two calls in a row are one connect
    followed by one disconnect and open one socket only.  From a page on
    which the interval the scheduler's variable holds is the only timer that
    reloads: once the socket of the new session has opened no timer that
    reloads the page is left and no reload happens while the session lasts;
    a disconnect of the user followed by the close of the socket, or a close
    from the remote end, leaves one such interval again, due 15 s later. *)
Lemma terminal_session_when_scheduled :
  (forall s pod,
     termWs (term s) <> None -> connectTerminal pod s = disconnectTerminal s) /\
  (forall s pod pod',
     termWs (term s) = None ->
     connectTerminal pod' (connectTerminal pod s)
       = disconnectTerminal (connectTerminal pod s) /\
     nextSock (term (connectTerminal pod' (connectTerminal pod s)))
       = nextSock (term (connectTerminal pod s))) /\
  (forall s d pod a b c,
     wf s -> scheduled s d -> kind s = Detail ->
     termWs (term s) = None -> connectShown (term s) = true ->
     let n := nextSock (term s) in
     let s1 := play [ClickConnect pod; Elapse a] s in
     let s2 := play [SockOpen n; Elapse b] s1 in
     let s3 := play [ClickDisconnect; Elapse c; SockClose n] s2 in
     let s3' := play [SockClose n] s2 in
     termWs (term s2) = Some n /\
     reloadTimers s2 = [] /\ reloads (clock s2) = reloads (clock s1) /\
     termWs (term s3) = None /\ scheduled s3 (time (clock s3) + 15000) /\
     scheduled s3' (time (clock s3') + 15000)).
Proof.
  split; [| split].
  - intros s pod Hws. unfold connectTerminal.
    destruct (termWs (term s)); congruence.
  - intros s pod pod' Hws. unfold connectTerminal. rewrite Hws. cbn. auto.
  - intros s d pod a b c Hwf Hs Hk Hws Hshown n.
    cbn [play foldl].
    (* the click on Connect *)
    set (x0 := step (ClickConnect pod) s).
    assert (Hx0 : x0 = connectTerminal pod s).
    { unfold x0. cbn [step]. rewrite Hk, Hshown. reflexivity. }
    assert (Hx0c : clock x0 = clock s /\ rt x0 = rt s /\ kind x0 = kind s /\
                   termWs (term x0) = Some n /\
                   socks (term x0) !! n = Some Connecting).
    { rewrite Hx0. unfold connectTerminal. rewrite Hws. cbn.
      repeat split. apply lookup_insert_eq. }
    destruct Hx0c as (Hc0 & Hrt0 & Hk0 & Hws0 & Hn0).
    assert (Hwf0 : wf x0) by (eapply wf_same_clock; eauto).
    assert (Hs0 : scheduled x0 d) by (eapply scheduled_same; eauto).
    (* the socket is connecting *)
    change (step (Elapse a) x0) with (advance a x0).
    set (x1 := advance a x0).
    assert (Hwf1 : wf x1) by (now apply advance_wf).
    destruct (scheduled_advance a x0 d Hwf0 Hs0) as [d1 Hs1]. fold x1 in Hs1.
    destruct (advance_static a x0 Hwf0) as (Hk1 & _ & Ht1 & _). fold x1 in Hk1, Ht1.
    (* the socket opens *)
    set (y0 := step (SockOpen n) x1).
    destruct (sockOpen_suspends x1 d1 n Hwf1 Hs1) as (Hwfy & Hry & Hcy & Hky & _ & Hty).
    { rewrite Ht1. exact Hn0. }
    fold y0 in Hwfy, Hry, Hcy, Hky, Hty.
    change (step (Elapse b) y0) with (advance b y0).
    set (y1 := advance b y0).
    assert (Hwfy1 : wf y1) by (now apply advance_wf).
    destruct (suspended_quiet y0 b Hwfy Hry) as [Hrel1 Hry1]. fold y1 in Hrel1, Hry1.
    destruct (advance_static b y0 Hwfy) as (Hky1 & _ & Hty1 & _).
    fold y1 in Hky1, Hty1.
    assert (Hky1' : kind y1 = Detail) by congruence.
    assert (Hsock : socks (term y1) !! n = Some Open).
    { rewrite Hty1, Hty. cbn [socks setTermView setSock].
      apply lookup_insert_eq. }
    split; [rewrite Hty1, Hty, Ht1; exact Hws0 |].
    split; [exact Hry1 |].
    split; [rewrite Hrel1, Hcy; reflexivity |].
    (* the user disconnects, then the socket closes *)
    set (z0 := step ClickDisconnect y1).
    assert (Hz0 : z0 = disconnectTerminal y1).
    { unfold z0. cbn [step]. rewrite Hky1', Hty1, Hty. reflexivity. }
    assert (Hz0c : clock z0 = clock y1 /\ kind z0 = kind y1 /\
                   termWs (term z0) = None /\
                   socks (term z0) !! n = Some Closing).
    { rewrite Hz0. unfold disconnectTerminal. cbn.
      repeat split. rewrite Hty1, Hty, Ht1.
      cbn [termWs socks setTermView setSock]. rewrite Hws0.
      rewrite lookup_alter_eq, lookup_insert_eq. reflexivity. }
    destruct Hz0c as (Hcz & Hkz & Hwsz & Hnz).
    assert (Hwfz : wf z0) by (eapply wf_same_clock; eauto).
    assert (Hrz : reloadTimers z0 = []).
    { rewrite (reloadTimers_same y1 z0 Hcz). exact Hry1. }
    change (step (Elapse c) z0) with (advance c z0).
    set (z1 := advance c z0).
    assert (Hwfz1 : wf z1) by (now apply advance_wf).
    destruct (suspended_quiet z0 c Hwfz Hrz) as [_ Hrz1]. fold z1 in Hrz1.
    destruct (advance_static c z0 Hwfz) as (Hkz1 & _ & Htz1 & _).
    fold z1 in Hkz1, Htz1.
    assert (Hnz1 : socks (term z1) !! n = Some Closing)
      by (rewrite Htz1; exact Hnz).
    destruct (sockClose_adds z1 n Closing Hwfz1 Hnz1 ltac:(discriminate))
      as (_ & _ & Htime3 & _ & _ & _ & Hterm3).
    destruct (sockClose_adds y1 n Open Hwfy1 Hsock ltac:(discriminate))
      as (_ & _ & Htime3' & _).
    split; [rewrite Hterm3, Htz1; exact Hwsz |].
    split.
    + rewrite Htime3.
      assert (Hkz1' : kind z1 = Detail) by congruence.
      apply (sockClose_resumes z1 n Closing Hwfz1 Hkz1' Hrz1 Hnz1).
      discriminate.
    + rewrite Htime3'.
      apply (sockClose_resumes y1 n Open Hwfy1 Hky1' Hry1 Hsock).
      discriminate.
Qed.

(** C7 fails when the session is given up before its socket has opened.
    Two clicks on Connect in a row are a connect and a disconnect: the
    second closes the socket ([ws.close()]) and clears the handle.  The
    close event of that socket then installs a reload interval although the
    open event had cleared none, so that two intervals are pending.  The
    next session opens, its open event clears the one interval the variable
    holds, and the page reloads 15 s after it was loaded, with the terminal
    open. *)
Theorem terminal_toggle_leaks :
  forall btns pod,
    let s2 := play [ClickConnect pod; ClickConnect pod] (loadDetail btns) in
    let s3 := play [SockClose 1] s2 in
    let s5 := play [ClickConnect pod; SockOpen 2] s3 in
    s2 = disconnectTerminal (connectTerminal pod (loadDetail btns)) /\
    termWs (term s2) = None /\ socks (term s2) !! 1%nat = Some Closing /\
    due <$> reloadTimers s2 = [15000%N] /\
    due <$> reloadTimers s3 = [15000%N; 15000%N] /\
    termWs (term s5) = Some 2%nat /\ socks (term s5) !! 2%nat = Some Open /\
    termStatus (term s5) = "Connected" /\
    due <$> reloadTimers s5 = [15000%N] /\
    socks (term (play [Elapse 15000] s5)) !! 2%nat = Some Open /\
    reloads (clock (play [Elapse 15000] s5)) = [15000%N].
Proof.
  intros btns pod. cbn zeta.
  split; [reflexivity |].
  repeat split; vm_compute; reflexivity.
Qed.

(** *** The sessions and the scheduler *)




(** The [mouseup] listener does not look at the terminal: a click while
    the session is open sets the scheduler's timer again. *)
Remark pointer_rearms_during_terminal :
  socks (term (play [ClickConnect "pod"; SockOpen 1; MouseDown; MouseUp;
                     Elapse 15000] (loadDetail ∅))) !! 1%nat = Some Open /\
  reloads (clock (play [ClickConnect "pod"; SockOpen 1; MouseDown; MouseUp;
                        Elapse 15000] (loadDetail ∅))) = [15000%N].
Proof. split; vm_compute; reflexivity. Qed.


End SchedulerProps.

(* ===================================================================== *)
(** ** The creation poll *)
(* ===================================================================== *)

Module PollProps.
Import Page TimerProps.

(** Only the polling closure issues requests. *)
Lemma frame_net : frame isPollTick net.
Proof.
  split; auto. intros cb s Hcb. destruct cb; try discriminate; cbn; auto.
  unfold disarmIfArmed. destruct (buttons s !! b) as [x |]; auto.
  destruct (armed x); auto.
Qed.

Lemma loadCreating_polling (name : string) :
  wf (loadCreating name) /\ polling (loadCreating name) name 2000 /\
  sent (net (loadCreating name)) = [].
Proof.
  split; [| split; [| reflexivity]].
  - unfold loadCreating, startCreationLogPoll.
    set (s0 := mouseup (blank Detail ∅ [] [] "Loading creation logs...")).
    apply (wf_same_clock
             (setInterval (CbPollTick name) 2000
                (upd_logs (setLogStatus "Polling...") s0))); [reflexivity |].
    apply wf_setInterval; [lia |].
    apply (wf_same_clock s0); [reflexivity |]. apply wf_mouseup, wf_blank.
  - exists 2%nat. split; reflexivity.
Qed.

(** A running poll issues one request when its timer is due, none
    before, and is then due 2 s later. *)
Lemma polling_fire (s : page) (ws : string) (d : N) :
  wf s -> polling s ws d ->
  (forall n, (time (clock s) + n < d)%N -> net (advance n s) = net s) /\
  net (advance (d - time (clock s)) s)
    = issue (GetCreationLog ws) InPollTick (net s) /\
  polling (advance (d - time (clock s)) s) ws (d + 2000).
Proof.
  intros Hwf (h & Hh & Hp). unfold pollTimers in Hp.
  set (r := {| tid := h; due := d; every := Some 2000%N;
               run := CbPollTick ws |}) in *.
  assert (Hr : r ∈ timersOf isPollTick s) by (rewrite Hp; left).
  assert (Hothers : forall t, t ∈ timersOf isPollTick s -> t <> r ->
                              (due r < due t)%N).
  { intros t Ht Hne. rewrite Hp in Ht.
    apply list_elem_of_singleton in Ht. contradiction. }
  destruct (advance_fire isPollTick _ frame_net
              (fun _ n => issue (GetCreationLog ws) InPollTick n) r s Hwf)
    as [Ho Ht]; auto.
  split; [| split].
  - intros n Hn.
    apply (advance_quiet isPollTick _ frame_net n s Hwf).
    intros t Ht'. rewrite Hp in Ht'. apply list_elem_of_singleton in Ht' as ->.
    exact Hn.
  - exact Ho.
  - change (due r) with d in Ht. exists h.
    destruct (advance_static (d - time (clock s)) s Hwf) as (_ & _ & _ & ->).
    split; [exact Hh |]. unfold pollTimers. rewrite Ht, Hp.
    unfold afterFiring. cbn. unfold rearm. cbn.
    case_decide; [reflexivity | contradiction].
Qed.

(** With no polling timer pending, no request is issued any more. *)
Lemma stopped_quiet (s : page) (n : N) :
  wf s -> pollTimers s = [] -> net (advance n s) = net s.
Proof.
  intros Hwf Hp. apply (advance_quiet isPollTick _ frame_net n s Hwf).
  intros t Ht. unfold pollTimers in Hp. rewrite Hp in Ht. inversion Ht.
Qed.

(** What a parsed body that reports the creation as over does. *)
Lemma pollReplied_done (s : page) (ws : string) (due : N) (d : reply) :
  wf s -> polling s ws due -> creating d = false ->
  let s' := pollReplied d s in
  wf s' /\ pollTimers s' = [] /\ logStatus (logs s') = "Done" /\
  reloadTimers s' = reloadTimers s ++
    [{| tid := nextId (clock s); due := (time (clock s) + 3000)%N;
        every := None; run := CbReload |}] /\
  net s' = net s.
Proof.
  intros Hwf (h & Hh & Hp) Hd s'. unfold s', pollReplied. rewrite Hd.
  unfold pollTimers in Hp.
  set (r := {| tid := h; due := due; every := Some 2000%N;
               run := CbPollTick ws |}) in *.
  set (s1 := match lines d with
             | Some l => upd_logs (setViewer (Js.join nl l)) s
             | None => s
             end).
  set (s2 := if decide (status d = "") then s1
             else upd_logs (setLogStatus ("Status: " +:+ status d)) s1).
  assert (H2 : clock s2 = clock s /\ net s2 = net s /\
               creationPoll (logs s2) = Some h).
  { unfold s2, s1. destruct (lines d); case_decide; cbn; auto. }
  destruct H2 as (Hc & Hn & Hcp). rewrite Hcp.
  assert (Hwf2 : wf s2) by (eapply wf_same_clock; eauto).
  assert (Hp2 : timersOf isPollTick s2 = timersOf isPollTick s)
    by (unfold timersOf; rewrite Hc; reflexivity).
  assert (Hr2 : timersOf isReload s2 = timersOf isReload s)
    by (unfold timersOf; rewrite Hc; reflexivity).
  split; [| split; [| split; [| split]]].
  - apply wf_setTimeout; [lia |].
    eapply wf_same_clock; [| apply (wf_clearInterval (Some h) s2 Hwf2)].
    reflexivity.
  - unfold pollTimers, setTimeout. rewrite timersOf_addTimer. cbn [isPollTick].
    rewrite app_nil_r.
    change (timersOf isPollTick (upd_logs ?f ?x)) with (timersOf isPollTick x).
    rewrite timersOf_clearInterval, Hp2. rewrite Hp.
    rewrite filter_cons, filter_nil. cbn.
    case_decide; [contradiction | reflexivity].
  - reflexivity.
  - unfold reloadTimers, setTimeout. rewrite timersOf_addTimer. cbn [isReload].
    change (timersOf isReload (upd_logs ?f ?x)) with (timersOf isReload x).
    rewrite timersOf_clearInterval, Hr2.
    change (clock (upd_logs ?f ?x)) with (clock x).
    rewrite filter_all;
      [cbn [clearInterval upd_clock clock set_timers time nextId];
       rewrite Hc; reflexivity |].
    apply Forall_forall. intros t Ht Heq.
    apply timersOf_elem in Ht as [HD Ht].
    assert (Hr : r ∈ timers (clock s)).
    { assert (Hr' : r ∈ timersOf isPollTick s) by (rewrite Hp; left).
      now apply timersOf_elem in Hr' as [_ Hr']. }
    assert (t = r).
    { apply (same_tid (timers (clock s)));
        [apply wf_nodup; exact Hwf | exact Ht | exact Hr | exact Heq]. }
    subst t. discriminate.
  - exact Hn.
Qed.

(** Settling a request changes neither the clock nor the log view
    before the rest of the function runs. *)
Lemma polling_finish (rid : nat) (s : page) (ws : string) (due : N) :
  wf s -> polling s ws due ->
  wf (upd_net (finish rid) s) /\ polling (upd_net (finish rid) s) ws due.
Proof.
  intros Hwf Hp. split; [| exact Hp].
  eapply wf_same_clock; [| exact Hwf]. reflexivity.
Qed.

(** A parsed body that reports the creation as still going on, and a
    rejection, leave the polling timer in place. *)
Lemma pollReplied_creating (s : page) (d : reply) :
  creating d = true -> clock (pollReplied d s) = clock s.
Proof.
  intros Hd. unfold pollReplied. rewrite Hd.
  destruct (lines d); case_decide; reflexivity.
Qed.

(** C5. In creation-poll mode the page polls every 2 s: the poll is due
    2 s after the page has loaded, issues one request for the creation log
    when it is due and none before, and is then due 2 s later.  A parsed
    response that carries lines replaces the log viewer's text by them.  A
    response that reports [creating: false] clears the polling timer, so that
    no further request is issued however long the page lives, sets the status
    to "Done", and schedules one reload, 3 s later. *)
Theorem creation_poll :
  (forall name,
     wf (loadCreating name) /\ polling (loadCreating name) name 2000 /\
     sent (net (loadCreating name)) = []) /\
  (forall s ws d,
     wf s -> polling s ws d ->
     (forall n, (time (clock s) + n < d)%N ->
        sent (net (play [Elapse n] s)) = sent (net s)) /\
     sent (net (play [Elapse (d - time (clock s))] s))
       = sent (net s) ++ [(nextReq (net s), GetCreationLog ws)] /\
     polling (play [Elapse (d - time (clock s))] s) ws (d + 2000)) /\
  (forall s rid d l,
     awaitingOf rid s = Some InPollTick -> lines d = Some l ->
     viewer (logs (play [Settle rid (Replied d)] s)) = Js.join nl l) /\
  (forall s ws due rid d,
     wf s -> polling s ws due ->
     awaitingOf rid s = Some InPollTick -> creating d = false ->
     let s' := play [Settle rid (Replied d)] s in
     pollTimers s' = [] /\
     logStatus (logs s') = "Done" /\
     reloadTimers s' = reloadTimers s ++
       [{| tid := nextId (clock s); due := (time (clock s) + 3000)%N;
           every := None; run := CbReload |}] /\
     (forall n, sent (net (play [Settle rid (Replied d); Elapse n] s))
                = sent (net s))).
Proof.
  split; [| split; [| split]].
  - intros name. apply loadCreating_polling.
  - intros s ws d Hwf Hp. cbn [play foldl step].
    destruct (polling_fire s ws d Hwf Hp) as (Hbefore & Hat & Hnext).
    split; [| split; [| exact Hnext]].
    + intros n Hn. now rewrite Hbefore.
    + rewrite Hat. reflexivity.
  - intros s rid d l Hk Hl. cbn [play foldl step].
    rewrite (settle_awaiting rid _ _ s Hk). cbn [resume].
    unfold pollReplied. rewrite Hl.
    case_decide; destruct (creating d); try reflexivity;
      match goal with
      | |- context [clearInterval ?h _] => destruct h; reflexivity
      end.
  - intros s ws due rid d Hwf Hp Hk Hd. cbn [play foldl step].
    rewrite (settle_awaiting rid _ _ s Hk). cbn [resume].
    destruct (polling_finish rid s ws due Hwf Hp) as [Hwf' Hp'].
    destruct (pollReplied_done _ ws due d Hwf' Hp' Hd)
      as (Hwf2 & Hpt & Hst & Hrt & Hnet).
    split; [exact Hpt |]. split; [exact Hst |]. split; [exact Hrt |].
    intros n. change (step (Elapse n) ?x) with (advance n x).
    rewrite (stopped_quiet _ n Hwf2 Hpt), Hnet. reflexivity.
Qed.

(** The page of a workspace being created: the first poll is answered
    with two lines, the second reports the creation as over. *)
Lemma creation_poll_witness :
  let s := loadCreating "ws" in
  let s1 := play [Elapse (2000 - time (clock s))] s in
  let d1 := {| ok := false; message := ""; lines := Some ["a"; "b"];
               status := "init"; creating := true |} in
  let d2 := {| ok := false; message := ""; lines := Some ["c"];
               status := "up"; creating := false |} in
  sent (net s1) = sent (net s) ++ [(nextReq (net s), GetCreationLog "ws")] /\
  viewer (logs (play [Settle 1 (Replied d1)] s1)) = Js.join nl ["a"; "b"] /\
  pollTimers (play [Settle 1 (Replied d2)] s1) = [] /\
  logStatus (logs (play [Settle 1 (Replied d2)] s1)) = "Done" /\
  sent (net (play [Settle 1 (Replied d2); Elapse 60000] s1)) = sent (net s1).
Proof.
  intros s s1 d1 d2.
  destruct (loadCreating_polling "ws") as (Hwf & Hp & _).
  destruct (proj1 (proj2 creation_poll) s "ws" 2000%N Hwf Hp) as (_ & Hsent & Hp1).
  assert (Hwf1 : wf s1) by (apply advance_wf; exact Hwf).
  assert (Hk : awaitingOf 1 s1 = Some InPollTick) by (vm_compute; reflexivity).
  split; [exact Hsent |].
  split; [exact (proj1 (proj2 (proj2 creation_poll)) s1 1%nat d1 _ Hk eq_refl) |].
  destruct (proj2 (proj2 (proj2 creation_poll)) s1 "ws" _ 1%nat d2 Hwf1 Hp1 Hk eq_refl)
    as (Hpt & Hst & _ & Hno).
  split; [exact Hpt |]. split; [exact Hst | exact (Hno 60000%N)].
Defined.

(** C10. A rejected request of a creation-poll tick sets the status to
    "Poll error" and leaves the polling timer in place, so that the next
    tick issues another request; of all the ways a request of the poll can
    settle, only a parsed response whose [creating] is false clears the
    timer. *)
Theorem poll_error_continues :
  (forall s ws due rid,
     wf s -> polling s ws due -> awaitingOf rid s = Some InPollTick ->
     let s' := play [Settle rid Rejected] s in
     logStatus (logs s') = "Poll error" /\ polling s' ws due /\
     sent (net (play [Settle rid Rejected; Elapse (due - time (clock s))] s))
       = sent (net s) ++ [(nextReq (net s), GetCreationLog ws)]) /\
  (forall s ws due rid o,
     wf s -> polling s ws due -> awaitingOf rid s = Some InPollTick ->
     pollTimers (play [Settle rid o] s) = [] <->
     exists d, o = Replied d /\ creating d = false).
Proof.
  split.
  - intros s ws due rid Hwf Hp Hk. cbn [play foldl step].
    rewrite (settle_awaiting rid _ _ s Hk). cbn [resume].
    set (s' := upd_logs (setLogStatus "Poll error") (upd_net (finish rid) s)).
    assert (Hwf' : wf s') by (eapply wf_same_clock; [| exact Hwf]; reflexivity).
    assert (Hp' : polling s' ws due) by exact Hp.
    split; [reflexivity |]. split; [exact Hp' |].
    change (step (Elapse ?n) ?x) with (advance n x).
    destruct (polling_fire s' ws due Hwf' Hp') as (_ & Hat & _).
    change (time (clock s')) with (time (clock s)) in Hat.
    rewrite Hat. reflexivity.
  - intros s ws due rid o Hwf Hp Hk. cbn [play foldl step].
    rewrite (settle_awaiting rid _ _ s Hk).
    destruct (polling_finish rid s ws due Hwf Hp) as [Hwf' Hp'].
    assert (Hne : pollTimers s <> []).
    { destruct Hp as (h & _ & ->). discriminate. }
    split.
    + intros Hnil. destruct o as [| d].
      * exfalso. apply Hne. exact Hnil.
      * destruct (creating d) eqn:Hd; [| eauto].
        exfalso. apply Hne. cbn [resume] in Hnil.
        unfold pollTimers, timersOf in Hnil.
        rewrite (pollReplied_creating _ d Hd) in Hnil. exact Hnil.
    + intros (d & -> & Hd). cbn [resume].
      now destruct (pollReplied_done _ ws due d Hwf' Hp' Hd) as (_ & Hpt & _).
Qed.

(** The page of a workspace being created: the request of the first
    tick is rejected. *)
Lemma poll_error_continues_witness :
  let s := play [Elapse 2000] (loadCreating "ws") in
  let d := {| ok := false; message := ""; lines := None; status := "";
              creating := false |} in
  logStatus (logs (play [Settle 1 Rejected] s)) = "Poll error" /\
  polling (play [Settle 1 Rejected] s) "ws" 4000 /\
  sent (net (play [Settle 1 Rejected; Elapse (4000 - time (clock s))] s))
    = sent (net s) ++ [(nextReq (net s), GetCreationLog "ws")] /\
  pollTimers (play [Settle 1 (Replied d)] s) = [].
Proof.
  intros s d.
  destruct (loadCreating_polling "ws") as (Hwf & Hp & _).
  destruct (polling_fire _ "ws" 2000%N Hwf Hp) as (_ & _ & Hp1).
  assert (Hwf1 : wf s) by (apply advance_wf; exact Hwf).
  assert (Hk : awaitingOf 1 s = Some InPollTick) by (vm_compute; reflexivity).
  destruct (proj1 poll_error_continues s "ws" 4000%N 1%nat Hwf1 Hp1 Hk)
    as (Hst & Hpoll & Hsent).
  split; [exact Hst |]. split; [exact Hpoll |]. split; [exact Hsent |].
  apply (proj2 poll_error_continues s "ws" 4000%N 1%nat (Replied d) Hwf1 Hp1 Hk).
  exists d. split; reflexivity.
Defined.

End PollProps.

(* ===================================================================== *)
(** ** The Action Dispatcher and the delete buttons *)
(* ===================================================================== *)

Module DispatchProps.
Import Page TimerProps ListingProps.

(** Only the disarming closure of the button [b] changes [b] when a
    timer fires. *)
Lemma frame_button (b : nat) : frame (isDisarm b) (fun s => buttons s !! b).
Proof.
  split; auto. intros cb s Hcb. destruct cb as [| | | b' |]; cbn; auto.
  cbn in Hcb. apply bool_decide_eq_false in Hcb.
  unfold disarmIfArmed. destruct (buttons s !! b') as [x |]; auto.
  destruct (armed x); auto. cbn. now apply lookup_alter_ne.
Qed.

Lemma call_disarm (b : nat) (s : page) :
  buttons (call (CbDisarm b) s) !! b = disarmed <$> buttons s !! b.
Proof.
  cbn. unfold disarmIfArmed, disarmed.
  destruct (buttons s !! b) as [x |] eqn:Hb; [| now rewrite Hb].
  destruct (armed x) eqn:Ha; cbn.
  - rewrite lookup_alter_eq, Hb. cbn. now rewrite Ha.
  - rewrite Hb. cbn. now rewrite Ha.
Qed.

Lemma clickable_enabled (b : nat) (x : button) (s : page) :
  buttons s !! b = Some x -> disabled x = false -> clickable b s = true.
Proof. intros Hb Hd. unfold clickable. now rewrite Hb, Hd. Qed.

(** The first click on a delete button. *)
Lemma click_arms (s : page) (b : nat) (x : button) (name pod uid : string) :
  buttons s !! b = Some x -> disabled x = false -> armed x = false ->
  let s' := step (ClickDelete b name pod uid) s in
  buttons s' !! b = Some (arm x) /\
  timers (clock s') = timers (clock s) ++
    [{| tid := nextId (clock s); due := (time (clock s) + 3000)%N;
        every := None; run := CbDisarm b |}] /\
  time (clock s') = time (clock s) /\
  net s' = net s /\
  (wf s -> wf s').
Proof.
  intros Hb Hd Ha s'. unfold s'. cbn [step].
  rewrite (clickable_enabled b x s Hb Hd). unfold confirmDelete.
  rewrite Hb, Ha.
  split; [| split; [reflexivity | split; [reflexivity | split; [reflexivity |]]]].
  - cbn. rewrite lookup_alter_eq, Hb. reflexivity.
  - intros Hwf. apply wf_setTimeout; [lia |].
    apply (wf_same_clock s); [reflexivity | exact Hwf].
Qed.

(** A click on an armed delete button. *)
Lemma click_fires (s : page) (b : nat) (x : button) (name pod uid : string) :
  buttons s !! b = Some x -> disabled x = false -> armed x = true ->
  let s' := step (ClickDelete b name pod uid) s in
  buttons s' !! b = Some (setBusy "Deleting..." x) /\
  net s' = issue (PostDelete name pod uid) (InDoDelete b) (net s) /\
  clock s' = clock s.
Proof.
  intros Hb Hd Ha s'. unfold s'. cbn [step].
  rewrite (clickable_enabled b x s Hb Hd). unfold confirmDelete.
  rewrite Hb, Ha. repeat split.
  cbn. rewrite lookup_alter_eq, Hb. reflexivity.
Qed.

(** A delete that fails. *)
Lemma delete_failed (s : page) (b : nat) (x : button) (rid : nat) (o : outcome) :
  awaitingOf rid s = Some (InDoDelete b) -> buttons s !! b = Some x ->
  (o = Rejected \/ exists d, o = Replied d /\ ok d = false) ->
  buttons (settle rid o s) !! b = Some (restoreDelete x).
Proof.
  intros Hk Hb Ho. rewrite (settle_awaiting rid o _ s Hk).
  destruct Ho as [-> | (d & -> & Hd)]; cbn [resume]; rewrite ?Hd;
    cbn; rewrite lookup_alter_eq, Hb; reflexivity.
Qed.

(** C4, as the scripts have it.  A click on an enabled, unarmed delete
    button arms it (label "Confirm?") and adds a one-shot disarm timer due
    3000 ms later, cancelling none; a click on an armed button fires the
    delete (the button is disabled with the label "Deleting..." and the
    request is issued).  When no earlier disarm timer of the button is
    pending, the button stays armed for less than 3000 ms, so that a second
    click within that time fires the delete, and with no second click it has
    the unarmed label "Delete" again exactly 3000 ms after the arming.  A
    delete that fails, by rejection or by [ok: false], leaves the button
    unarmed and enabled with the label "Delete". *)
Theorem confirm_delete :
  (forall s b x name pod uid,
     buttons s !! b = Some x -> disabled x = false -> armed x = false ->
     let s' := play [ClickDelete b name pod uid] s in
     buttons s' !! b = Some (arm x) /\
     textContent (arm x) = "Confirm?" /\ armed (arm x) = true /\
     timers (clock s') = timers (clock s) ++
       [{| tid := nextId (clock s); due := (time (clock s) + 3000)%N;
           every := None; run := CbDisarm b |}] /\
     sent (net s') = sent (net s)) /\
  (forall s b x name pod uid,
     buttons s !! b = Some x -> disabled x = false -> armed x = true ->
     let s' := play [ClickDelete b name pod uid] s in
     buttons s' !! b = Some (setBusy "Deleting..." x) /\
     sent (net s') = sent (net s) ++ [(nextReq (net s), PostDelete name pod uid)] /\
     inflight (net s') = inflight (net s) ++ [(nextReq (net s), InDoDelete b)] /\
     timers (clock s') = timers (clock s)) /\
  (forall s b x name pod uid,
     wf s -> buttons s !! b = Some x -> disabled x = false -> armed x = false ->
     disarmTimers b s = [] ->
     let click := ClickDelete b name pod uid in
     (forall n, (n < 3000)%N ->
        let s2 := play [click; Elapse n] s in
        buttons s2 !! b = Some (arm x) /\
        sent (net (play [click] s2))
          = sent (net s2) ++ [(nextReq (net s2), PostDelete name pod uid)]) /\
     (let s3 := play [click; Elapse 3000] s in
      buttons s3 !! b = Some (disarm (arm x)) /\
      textContent (disarm (arm x)) = "Delete" /\ armed (disarm (arm x)) = false /\
      disarmTimers b s3 = [])) /\
  (forall s b x rid o,
     awaitingOf rid s = Some (InDoDelete b) -> buttons s !! b = Some x ->
     (o = Rejected \/ exists d, o = Replied d /\ ok d = false) ->
     buttons (play [Settle rid o] s) !! b = Some (restoreDelete x) /\
     textContent (restoreDelete x) = "Delete" /\
     armed (restoreDelete x) = false /\ disabled (restoreDelete x) = false).
Proof.
  split; [| split; [| split]].
  - intros s b x name pod uid Hb Hd Ha. cbn [play foldl].
    destruct (click_arms s b x name pod uid Hb Hd Ha) as (Hb' & Ht & _ & Hn & _).
    rewrite Hn. auto.
  - intros s b x name pod uid Hb Hd Ha. cbn [play foldl].
    destruct (click_fires s b x name pod uid Hb Hd Ha) as (Hb' & Hn & Hc).
    rewrite Hn, Hc. auto.
  - intros s b x name pod uid Hwf Hb Hd Ha Hnone click. subst click.
    cbn [play foldl].
    destruct (click_arms s b x name pod uid Hb Hd Ha) as (Hb1 & Ht1 & Htime1 & _ & Hwf1).
    set (s1 := step (ClickDelete b name pod uid) s) in *. specialize (Hwf1 Hwf).
    set (r := {| tid := nextId (clock s); due := (time (clock s) + 3000)%N;
                 every := None; run := CbDisarm b |}) in *.
    assert (Hd1 : timersOf (isDisarm b) s1 = [r]).
    { unfold timersOf. rewrite Ht1, filter_app.
      fold (timersOf (isDisarm b) s). unfold disarmTimers in Hnone.
      rewrite Hnone. rewrite filter_cons, filter_nil. cbn.
      rewrite bool_decide_eq_true_2 by reflexivity.
      case_decide; [reflexivity | contradiction]. }
    split.
    + intros n Hn.
      change (step (Elapse n) s1) with (advance n s1).
      destruct (advance_quiet (isDisarm b) _ (frame_button b) n s1 Hwf1) as [Ho _].
      { intros t Ht. rewrite Hd1 in Ht.
        apply list_elem_of_singleton in Ht as ->.
        unfold r. cbn [due]. rewrite Htime1. lia. }
      cbn beta in Ho. rewrite Hb1 in Ho. split; [exact Ho |].
      destruct (click_fires (advance n s1) b (arm x) name pod uid Ho Hd eq_refl)
        as (_ & -> & _).
      reflexivity.
    + change (step (Elapse 3000) s1) with (advance 3000 s1).
      destruct (advance_fire (isDisarm b) _ (frame_button b)
                  (fun _ ob => disarmed <$> ob) r s1 Hwf1) as [Ho Ht].
      { intros s'. apply call_disarm. }
      { rewrite Hd1. left. }
      { intros t Hin Hne. rewrite Hd1 in Hin.
        apply list_elem_of_singleton in Hin. contradiction. }
      replace (due r - time (clock s1))%N with 3000%N in Ho, Ht
        by (unfold r; cbn [due]; rewrite Htime1; lia).
      cbn beta in Ho. rewrite Hb1 in Ho.
      split; [exact Ho |]. split; [reflexivity |]. split; [reflexivity |].
      unfold disarmTimers. rewrite Ht, Hd1. unfold afterFiring. cbn.
      unfold rearm. cbn. case_decide; [reflexivity | contradiction].
  - intros s b x rid o Hk Hb Ho. cbn [play foldl step].
    rewrite (delete_failed s b x rid o Hk Hb Ho). auto.
Qed.

(** A detail page with its delete button, just loaded. *)
Lemma confirm_delete_witness :
  (let s2 := play [ClickDelete 8 "ws" "pod" "uid"; Elapse 2999] deletePage in
   buttons s2 !! 8%nat
     = Some (arm (freshButton "Delete" "btn btn-outline-red")) /\
   sent (net (play [ClickDelete 8 "ws" "pod" "uid"] s2))
     = sent (net s2) ++ [(nextReq (net s2), PostDelete "ws" "pod" "uid")]) /\
  (let s3 := play [ClickDelete 8 "ws" "pod" "uid"; Elapse 3000] deletePage in
   buttons s3 !! 8%nat
     = Some (disarm (arm (freshButton "Delete" "btn btn-outline-red"))) /\
   disarmTimers 8 s3 = []).
Proof.
  assert (Hwf : wf deletePage) by (apply wf_mouseup, wf_blank).
  destruct (proj1 (proj2 (proj2 confirm_delete)) deletePage 8%nat
              (freshButton "Delete" "btn btn-outline-red") "ws" "pod" "uid"
              Hwf eq_refl eq_refl eq_refl eq_refl) as (Harmed & Hb3 & _ & _ & Hd3).
  split; [exact (Harmed 2999%N eq_refl) |]. split; [exact Hb3 | exact Hd3].
Defined.

(** C4 as the specification words it fails: a delete that fails within
    3 s of the arming leaves the old disarm timer pending, so that after the
    button is armed again two disarm timers are pending, and the old one
    disarms the button 1 s after the second arming. *)
Lemma rearm_keeps_old_timer :
  time (clock (play rearmTrace deletePage)) = 2000%N /\
  armed <$> buttons (play rearmTrace deletePage) !! 8%nat = Some true /\
  due <$> disarmTimers 8 (play rearmTrace deletePage) = [3000%N; 5000%N] /\
  textContent <$> buttons (play (rearmTrace ++ [Elapse 1000]) deletePage) !! 8%nat
    = Some "Delete" /\
  armed <$> buttons (play (rearmTrace ++ [Elapse 1000]) deletePage) !! 8%nat
    = Some false.
Proof. repeat split; vm_compute; reflexivity. Qed.

(** *** Every control of the dispatcher, settled *)


(** A delete button: a success leaves a reload (or, on the detail page,
    the return to the listing) pending; a failure is [delete_failed]. *)
Lemma delete_succeeded (s : page) (b : nat) (rid : nat) (d : reply) :
  awaitingOf rid s = Some (InDoDelete b) -> ok d = true ->
  exists t, t ∈ timers (clock (settle rid (Replied d) s)) /\
            due t = (time (clock s) + 2000)%N /\
            run t = match kind s with Listing => CbReload | Detail => CbGoHome end.
Proof.
  intros Hk Hd. rewrite (settle_awaiting rid _ _ s Hk). cbn [resume].
  rewrite Hd. eexists. split.
  - cbn. apply elem_of_app. right. left.
  - split; reflexivity.
Qed.




End DispatchProps.

(* ===================================================================== *)
(** ** The terminal and the log stream *)
(* ===================================================================== *)

Module SessionProps.
Import Page PageMore TimerProps.

(** Settling a request leaves the terminal and the log stream's handle
    alone. *)
Lemma resume_term (k : awaiting) (o : outcome) (s : page) :
  term (resume k o s) = term s.
Proof.
  destruct k, o as [| d]; cbn [resume]; try destruct (ok d); try reflexivity.
  all: unfold pollReplied; destruct (lines d); case_decide;
    destruct (creating d); try reflexivity;
    match goal with
    | |- context [clearInterval ?h _] => destruct h; reflexivity
    end.
Qed.

Lemma step_term (e : event) (s : page) :
  wf s ->
  match e with
  | ClickConnect _ | ClickDisconnect | SockOpen _ | SockClose _ | SockError _ => True
  | _ => term (step e s) = term s
  end.
Proof.
  intros Hwf. destruct e; cbn [step]; try exact I.
  - now apply advance_static.
  - reflexivity.
  - reflexivity.
  - destruct (clickable b s); [| reflexivity]. unfold doAction.
    destruct (buttons s !! b); reflexivity.
  - destruct (clickable b s); [| reflexivity]. unfold confirmDelete.
    destruct (buttons s !! b) as [x |]; [destruct (armed x) |]; reflexivity.
  - destruct (_ && _); [| reflexivity]. unfold bulkAction.
    destruct (checkedRows s); [reflexivity |].
    case_decide; [destruct confirmed |]; reflexivity.
  - case_bool_decide; [| reflexivity]. unfold startLogStream.
    destruct (evtSource (logs s)); reflexivity.
  - unfold settle. destruct (awaitingOf rid s); [| reflexivity].
    now rewrite resume_term.
  - case_decide; reflexivity.
  - case_decide; reflexivity.
Qed.

Lemma oneSession_disconnect (s : page) :
  oneSession s -> oneSession (disconnectTerminal s).
Proof.
  intros Hinv n st Hn Hlive. exfalso. cbn in Hn.
  destruct (termWs (term s)) as [m |] eqn:Hm.
  - destruct (decide (m = n)) as [-> | Hne].
    + rewrite lookup_alter_eq in Hn.
      destruct (socks (term s) !! n) as [st0 |]; [| discriminate].
      cbn in Hn. injection Hn as <-. destruct st0; discriminate.
    + rewrite lookup_alter_ne in Hn by exact Hne.
      specialize (Hinv n st Hn Hlive). congruence.
  - specialize (Hinv n st Hn Hlive). congruence.
Qed.

(** The invariant of the terminal survives every event. *)
Lemma oneSession_step (e : event) (s : page) :
  wf s -> oneSession s -> oneSession (step e s).
Proof.
  intros Hwf Hinv.
  pose proof (step_term e s Hwf) as Hterm.
  destruct e;
    try (unfold oneSession; rewrite Hterm; exact Hinv); cbn [step].
  - destruct (_ && _); [| exact Hinv]. unfold connectTerminal.
    destruct (termWs (term s)) as [m |] eqn:Hm.
    + now apply oneSession_disconnect.
    + intros n st Hn Hlive. cbn in Hn |- *.
      destruct (decide (nextSock (term s) = n)) as [-> | Hne]; [reflexivity |].
      rewrite lookup_insert_ne in Hn by exact Hne.
      specialize (Hinv n st Hn Hlive). congruence.
  - destruct (_ && _); [| exact Hinv]. now apply oneSession_disconnect.
  - destruct (socks (term s) !! n) as [[] |] eqn:Hn; try exact Hinv.
    intros m st Hm Hlive. cbn in Hm |- *.
    destruct (decide (n = m)) as [-> | Hne].
    + apply (Hinv m Connecting Hn eq_refl).
    + rewrite lookup_insert_ne in Hm by exact Hne. exact (Hinv m st Hm Hlive).
  - assert (Hclosed : oneSession (onclose (upd_term (setSock n Closed) s))).
    { intros m st Hm Hlive. cbn in Hm |- *.
      destruct (decide (n = m)) as [-> | Hne].
      - rewrite lookup_insert_eq in Hm. injection Hm as <-. discriminate.
      - rewrite lookup_insert_ne in Hm by exact Hne. exact (Hinv m st Hm Hlive). }
    destruct (socks (term s) !! n) as [[] |]; assumption.
  - assert (Herr : oneSession (onerror s)).
    { unfold onerror. apply oneSession_disconnect. exact Hinv. }
    destruct (socks (term s) !! n) as [[] |]; assumption.
Qed.

Lemma oneSession_play (es : list event) (s : page) :
  wf s -> oneSession s -> oneSession (play es s).
Proof.
  revert s. induction es as [| e es IH]; intros s Hwf Hinv; [exact Hinv |].
  cbn. apply IH; [now apply wf_step_event | now apply oneSession_step].
Qed.

(** Whatever happens on the detail page, at most one socket of the
    terminal is connecting or open, and it is the one [termWs] holds. *)
Theorem terminal_one_live_socket (btns : gmap nat button) (es : list event)
    (n m : nat) (st st' : readyState) :
  let s := play es (loadDetail btns) in
  socks (term s) !! n = Some st -> isLive st = true ->
  socks (term s) !! m = Some st' -> isLive st' = true ->
  n = m /\ termWs (term s) = Some n.
Proof.
  intros s Hn Hlive Hm Hlive'.
  assert (Hinv : oneSession s).
  { apply oneSession_play; [apply wf_mouseup, wf_blank |].
    intros k st0 Hk. cbn in Hk. rewrite lookup_empty in Hk. discriminate. }
  pose proof (Hinv n st Hn Hlive) as H1.
  pose proof (Hinv m st' Hm Hlive') as H2.
  split; [congruence | exact H1].
Qed.

(** A terminal opened and connected on the detail page. *)
Lemma terminal_one_live_socket_witness :
  let s := play [ClickConnect "pod"; SockOpen 1] (loadDetail ∅) in
  socks (term s) !! 1%nat = Some Open /\ termWs (term s) = Some 1%nat.
Proof.
  intros s.
  assert (H1 : socks (term s) !! 1%nat = Some Open) by (vm_compute; reflexivity).
  split; [exact H1 |].
  exact (proj2 (terminal_one_live_socket ∅ [ClickConnect "pod"; SockOpen 1]
                  1%nat 1%nat Open Open H1 eq_refl H1 eq_refl)).
Defined.

(** A close from the remote end does not clear [termWs]: the next click
    on Connect only tears the session down and opens no socket, and it
    takes a second click to connect again. *)
Theorem remote_close_keeps_handle (s : page) (n : nat) (pod pod' : string) :
  kind s = Detail -> termWs (term s) = Some n ->
  socks (term s) !! n = Some Open ->
  let s1 := play [SockClose n] s in
  let s2 := play [ClickConnect pod] s1 in
  let s3 := play [ClickConnect pod'] s2 in
  termWs (term s1) = Some n /\ termStatus (term s1) = "Disconnected" /\
  connectShown (term s1) = true /\
  termWs (term s2) = None /\ nextSock (term s2) = nextSock (term s) /\
  socks (term s2) = socks (term s1) /\
  termWs (term s3) = Some (nextSock (term s)) /\
  socks (term s3) !! nextSock (term s) = Some Connecting /\
  termStatus (term s3) = "Connecting...".
Proof.
  intros Hk Hws Hn. cbn [play foldl].
  assert (H1 : step (SockClose n) s = onclose (upd_term (setSock n Closed) s)).
  { cbn [step]. now rewrite Hn. }
  rewrite H1.
  set (s1 := onclose (upd_term (setSock n Closed) s)).
  assert (Hk1 : kind s1 = Detail) by exact Hk.
  assert (Hws1 : termWs (term s1) = Some n) by exact Hws.
  assert (H2 : step (ClickConnect pod) s1 = disconnectTerminal s1).
  { cbn [step]. rewrite Hk1. cbn. unfold connectTerminal. now rewrite Hws1. }
  rewrite H2.
  set (s2 := disconnectTerminal s1).
  assert (H3 : step (ClickConnect pod') s2 = connectTerminal pod' s2).
  { assert (Hk2 : kind s2 = Detail) by exact Hk.
    cbn [step]. rewrite Hk2. reflexivity. }
  rewrite H3.
  split; [exact Hws |]. split; [reflexivity |]. split; [reflexivity |].
  split; [reflexivity |]. split; [reflexivity |].
  split.
  { unfold s2, disconnectTerminal. cbn. rewrite Hws.
    apply map_eq. intros i. destruct (decide (i = n)) as [-> | Hne].
    - rewrite lookup_alter_eq, lookup_insert_eq. reflexivity.
    - rewrite lookup_alter_ne by congruence. reflexivity. }
  split; [reflexivity |]. split; [| reflexivity].
  cbn. apply lookup_insert_eq.
Qed.

Lemma remote_close_keeps_handle_witness :
  let s := play [ClickConnect "pod"; SockOpen 1] (loadDetail ∅) in
  let s1 := play [SockClose 1] s in
  let s2 := play [ClickConnect "pod"] s1 in
  let s3 := play [ClickConnect "pod"] s2 in
  termWs (term s1) = Some 1%nat /\ termWs (term s2) = None /\
  nextSock (term s2) = nextSock (term s) /\
  termWs (term s3) = Some (nextSock (term s)).
Proof.
  intros s s1 s2 s3.
  assert (Hn : socks (term s) !! 1%nat = Some Open) by (vm_compute; reflexivity).
  destruct (remote_close_keeps_handle s 1%nat "pod" "pod" eq_refl eq_refl Hn)
    as (H1 & _ & _ & H2 & H3 & _ & H4 & _).
  split; [exact H1 |]. split; [exact H2 |]. split; [exact H3 | exact H4].
Defined.

(** *** The log stream *)

Lemma append_assoc (a b c : string) : (a +:+ b) +:+ c = a +:+ (b +:+ c).
Proof.
  induction a as [| x a IH]; [reflexivity |].
  change (String x ((a +:+ b) +:+ c) = String x (a +:+ (b +:+ c))).
  now rewrite IH.
Qed.

Lemma append_empty_r (a : string) : a +:+ "" = a.
Proof.
  induction a as [| x a IH]; [reflexivity |].
  change (String x (a +:+ "") = String x a). now rewrite IH.
Qed.

(** The button of the log stream toggles.  From the rendered detail
    page, every second click stops the stream and every other click opens
    a new event source, never an old one again; the button reads "Stop
    streaming" while a stream is open and "Start streaming" otherwise; and
    once a stream has been started the status reads "Connected", also after
    the stream has been stopped. *)
Theorem log_stream_clicks (btns : gmap nat button) (pod : string) (j : nat) :
  let off := play (replicate (2 * j) (ClickLogStream pod)) (loadDetail btns) in
  let on := play (replicate (2 * j + 1) (ClickLogStream pod)) (loadDetail btns) in
  evtSource (logs off) = None /\
  logBtnText (logs off) = "Start streaming" /\
  logStatus (logs off) = (if decide (j = 0%nat) then "Ready" else "Connected") /\
  evtSource (logs on) = Some (S j) /\
  logBtnText (logs on) = "Stop streaming" /\
  logStatus (logs on) = "Connected" /\
  viewer (logs on) = "" /\ clock on = clock (loadDetail btns).
Proof.
  cbn zeta.
  assert (Hon : forall s, kind s = Detail -> evtSource (logs s) = None ->
            step (ClickLogStream pod) s
            = upd_logs (fun l =>
                {| evtSource := Some (nextSource l); nextSource := S (nextSource l);
                   logBtnText := "Stop streaming"; logBtnClass := "btn btn-red btn-sm";
                   logStatus := "Connected"; viewer := viewer l;
                   creationPoll := creationPoll l |}) s).
  { intros s Hk He. cbn [step]. rewrite Hk. cbn. unfold startLogStream.
    now rewrite He. }
  assert (Hoff : forall s n, kind s = Detail -> evtSource (logs s) = Some n ->
            step (ClickLogStream pod) s = stopLogStream s).
  { intros s n Hk He. cbn [step]. rewrite Hk. cbn. unfold startLogStream.
    now rewrite He. }
  assert (Hinv : let off := play (replicate (2 * j) (ClickLogStream pod))
                              (loadDetail btns) in
            kind off = Detail /\ evtSource (logs off) = None /\
            nextSource (logs off) = S j /\
            logBtnText (logs off) = "Start streaming" /\
            logStatus (logs off)
              = (if decide (j = 0%nat) then "Ready" else "Connected") /\
            viewer (logs off) = "" /\ clock off = clock (loadDetail btns)).
  { induction j as [| j IH]; cbn zeta; [cbn; repeat split |].
    replace (2 * S j)%nat with (2 * j + 2)%nat by lia.
    rewrite replicate_add. unfold play. rewrite foldl_app. fold (play (replicate (2 * j) (ClickLogStream pod)) (loadDetail btns)).
    cbn zeta in IH. destruct IH as (Hk & He & Hn & Hb & _ & Hv & Hc).
    set (s := play (replicate (2 * j) (ClickLogStream pod)) (loadDetail btns)) in *.
    clearbody s.
    cbn [replicate foldl]. rewrite (Hon s Hk He).
    set (s1 := upd_logs _ s).
    rewrite (Hoff s1 (nextSource (logs s)) Hk eq_refl).
    unfold s1. cbn. rewrite Hn, Hv. repeat split; auto. }
  cbn zeta in Hinv. destruct Hinv as (Hk & He & Hn & Hb & Hs & Hv & Hc).
  split; [exact He |]. split; [exact Hb |]. split; [exact Hs |].
  rewrite replicate_add. unfold play. rewrite foldl_app.
  fold (play (replicate (2 * j) (ClickLogStream pod)) (loadDetail btns)).
  set (s := play (replicate (2 * j) (ClickLogStream pod)) (loadDetail btns)) in *.
  clearbody s.
  cbn [replicate foldl]. rewrite (Hon s Hk He). cbn. rewrite Hn, Hv.
  repeat split; auto.
Qed.

(** The messages of the open stream are appended to the viewer in the
    order they arrive, one line each; nothing else of the log view
    changes. *)
Theorem log_lines_append (s : page) (n : nat) (msgs : list string) :
  evtSource (logs s) = Some n ->
  let s' := play (EsMessage n <$> msgs) s in
  viewer (logs s') = viewer (logs s) +:+ linesText msgs /\
  evtSource (logs s') = Some n /\ logStatus (logs s') = logStatus (logs s) /\
  clock s' = clock s.
Proof.
  revert s. induction msgs as [| m msgs IH]; intros s Hes.
  - cbn [fmap list_fmap play foldl linesText foldr].
    rewrite append_empty_r. repeat split; auto.
  - assert (Hstep : step (EsMessage n m) s = onmessage m s).
    { cbn [step]. case_decide; [reflexivity | contradiction]. }
    change (play (EsMessage n <$> m :: msgs) s)
      with (play (EsMessage n <$> msgs) (step (EsMessage n m) s)).
    rewrite Hstep.
    destruct (IH (onmessage m s) Hes) as (Hv & He & Hs & Hc).
    cbn zeta in Hv, He, Hs, Hc. cbn zeta.
    rewrite Hv, He, Hs, Hc. repeat split; auto.
    cbn [linesText foldr]. fold (linesText msgs).
    change (viewer (logs (onmessage m s))) with (viewer (logs s) +:+ m +:+ nl).
    now rewrite !append_assoc.
Qed.

Lemma log_lines_append_witness :
  let s := play [ClickLogStream "pod"] (loadDetail ∅) in
  evtSource (logs s) = Some 1%nat /\
  viewer (logs (play (EsMessage 1 <$> ["a"; "b"]) s))
    = viewer (logs s) +:+ linesText ["a"; "b"].
Proof.
  intros s.
  assert (H : evtSource (logs s) = Some 1%nat) by (vm_compute; reflexivity).
  split; [exact H |].
  exact (proj1 (log_lines_append s 1%nat ["a"; "b"] H)).
Defined.

(** An error of the open stream stops it: the handle is cleared, the
    button reads "Start streaming", the status reads "Disconnected", and
    whatever the closed stream still delivers changes nothing. *)
Theorem log_stream_error_stops (s : page) (n : nat) (es : list event) :
  evtSource (logs s) = Some n ->
  Forall (fun e => exists data, e = EsMessage n data \/ e = EsError n) es ->
  let s1 := play [EsError n] s in
  evtSource (logs s1) = None /\ logStatus (logs s1) = "Disconnected" /\
  logBtnText (logs s1) = "Start streaming" /\
  viewer (logs s1) = viewer (logs s) /\
  play (EsError n :: es) s = s1.
Proof.
  intros Hes Hall. cbn [play foldl].
  assert (Hstep : step (EsError n) s = onstreamerror s).
  { cbn [step]. case_decide; [reflexivity | contradiction]. }
  rewrite Hstep. repeat split.
  set (s1 := onstreamerror s).
  assert (H1 : evtSource (logs s1) = None) by reflexivity.
  clearbody s1. induction Hall as [| e es (data & He) _ IH]; [reflexivity |].
  cbn [foldl]. destruct He as [-> | ->]; cbn [step]; rewrite H1;
    (case_decide; [discriminate | exact IH]).
Qed.

Lemma log_stream_error_stops_witness :
  let s := play [ClickLogStream "pod"] (loadDetail ∅) in
  evtSource (logs s) = Some 1%nat /\
  evtSource (logs (play [EsError 1] s)) = None /\
  play [EsError 1; EsMessage 1 "late"; EsError 1] s = play [EsError 1] s.
Proof.
  intros s.
  assert (H : evtSource (logs s) = Some 1%nat) by (vm_compute; reflexivity).
  assert (Hall : Forall (fun e => exists data, e = EsMessage 1 data \/ e = EsError 1)
                   [EsMessage 1 "late"; EsError 1]).
  { apply Forall_cons. split; [exists "late"; left; reflexivity |].
    apply Forall_singleton. exists "late". right. reflexivity. }
  split; [exact H |].
  destruct (log_stream_error_stops s 1%nat [EsMessage 1 "late"; EsError 1] H Hall)
    as (H1 & _ & _ & _ & H2).
  split; [exact H1 | exact H2].
Defined.

End SessionProps.

(* ===================================================================== *)
(** ** The pointer listeners of the Live Refresh Scheduler *)
(* ===================================================================== *)

Module PointerProps.
Import Page PageMore TimerProps.

Lemma play_app (es es' : list event) (s : page) :
  play (es ++ es') s = play es' (play es s).
Proof. apply foldl_app. Qed.

(** The pointer goes down and up once, on a running scheduler. *)
Lemma pointer_pair (s : page) (d a b : N) :
  wf s -> scheduled s d ->
  exists d', scheduled (play [MouseDown; Elapse a; MouseUp; Elapse b] s) d'.
Proof.
  intros Hwf Hs. cbn [play foldl step].
  pose proof (scheduled_mousedown s d Hs) as H1.
  pose proof (wf_mousedown s Hwf) as Hwf1.
  destruct (suspended_quiet (mousedown s) a Hwf1 H1) as [_ H2].
  pose proof (advance_wf a _ Hwf1) as Hwf2.
  pose proof (suspended_mouseup _ H2) as H3.
  apply (scheduled_advance b _ _ (wf_mouseup _ Hwf2) H3).
Qed.

(** Presses and releases of the pointer that come in pairs, each press
    and each pause lasting any time, leave the scheduler running with
    exactly one reloading timer, the one [rt] holds. *)
Theorem pointer_pairs_one_timer (s : page) (d : N) (l : list (N * N)) :
  wf s -> scheduled s d ->
  exists d', scheduled (play (pointerPairs l) s) d'.
Proof.
  revert s d. induction l as [| [a b] l IH]; intros s d Hwf Hs.
  - exists d. exact Hs.
  - change (pointerPairs ((a, b) :: l))
      with ([MouseDown; Elapse a; MouseUp; Elapse b] ++ pointerPairs l).
    rewrite play_app.
    destruct (pointer_pair s d a b Hwf Hs) as [d1 H1].
    apply (IH _ d1); [| exact H1]. now apply wf_play.
Qed.

Lemma pointer_pairs_one_timer_witness :
  exists d', scheduled
    (play (pointerPairs [(120, 3000); (40000, 7)]%N) (loadDetail ∅)) d'.
Proof.
  apply (pointer_pairs_one_timer (loadDetail ∅) 15000
           [(120, 3000); (40000, 7)]%N).
  - apply wf_mouseup, wf_blank.
  - vm_compute. reflexivity.
Defined.

(** A release of the pointer that no press came before starts a second
    reloading interval and overwrites the handle of the first.  The press
    that follows cancels the second only: the first is out of reach of the
    page, and reloads it when it is due, pointer down or not. *)
Theorem stray_mouseup_leaks (s : page) (d : N) :
  wf s -> scheduled s d ->
  let old := {| tid := rt s; due := d; every := Some (period (kind s));
                run := CbReload |} in
  let s1 := play [MouseUp] s in
  let s2 := play [MouseUp; MouseDown] s in
  reloadTimers s1 = [old; {| tid := rt s1; due := (time (clock s) + period (kind s))%N;
                             every := Some (period (kind s)); run := CbReload |}] /\
  reloadTimers s2 = [old] /\ rt s2 <> rt s /\
  reloadTimers (play [MouseUp; MouseDown; MouseDown] s) = [old] /\
  reloads (clock (play [MouseUp; MouseDown; Elapse (d - time (clock s))] s))
    = d :: reloads (clock s).
Proof.
  intros Hwf Hs old. cbn [play foldl step].
  assert (Hfresh : (rt s < nextId (clock s))%nat).
  { pose proof (wf_fresh s Hwf) as Hf. rewrite Forall_forall in Hf.
    apply (Hf old). assert (Hin : old ∈ reloadTimers s) by (rewrite Hs; left).
    now apply timersOf_elem in Hin as [_ Hin]. }
  assert (H1 : reloadTimers (mouseup s)
               = [old; {| tid := nextId (clock s);
                          due := (time (clock s) + period (kind s))%N;
                          every := Some (period (kind s)); run := CbReload |}]).
  { unfold mouseup, reloadTimers, setInterval.
    change (timersOf isReload (set_rt ?h ?x)) with (timersOf isReload x).
    rewrite timersOf_addTimer. fold (reloadTimers s). rewrite Hs. reflexivity. }
  assert (H2 : reloadTimers (mousedown (mouseup s)) = [old]).
  { unfold mousedown, reloadTimers. rewrite timersOf_clearInterval.
    fold (reloadTimers (mouseup s)). rewrite H1.
    change (rt (mouseup s)) with (nextId (clock s)).
    rewrite filter_cons_True by (cbn; lia).
    rewrite filter_cons_False by (cbn; intros Hne; now apply Hne).
    reflexivity. }
  assert (Hrt : rt (mousedown (mouseup s)) = nextId (clock s)) by reflexivity.
  split; [exact H1 |]. split; [exact H2 |]. split; [rewrite Hrt; lia |]. split.
  - unfold mousedown at 1. unfold reloadTimers. rewrite timersOf_clearInterval.
    fold (reloadTimers (mousedown (mouseup s))). rewrite H2, Hrt.
    rewrite filter_cons_True by (cbn; lia). reflexivity.
  - set (s2 := mousedown (mouseup s)) in *.
    assert (Hwf2 : wf s2) by (apply wf_mousedown, wf_mouseup, Hwf).
    assert (Hin : old ∈ timersOf isReload s2).
    { fold (reloadTimers s2). rewrite H2. left. }
    destruct (advance_fire isReload _ frame_reloads
                (fun tm l => tm :: l) old s2 Hwf2) as [Ho _].
    + intros x. reflexivity.
    + exact Hin.
    + intros t Ht Hne. fold (reloadTimers s2) in Ht. rewrite H2 in Ht.
      apply list_elem_of_singleton in Ht. contradiction.
    + exact Ho.
Qed.

Lemma stray_mouseup_leaks_witness :
  let s := loadDetail ∅ in
  reloadTimers (play [MouseUp; MouseDown] s)
    = [{| tid := rt s; due := 15000; every := Some (period (kind s));
          run := CbReload |}] /\
  reloads (clock (play [MouseUp; MouseDown; Elapse (15000 - time (clock s))] s))
    = 15000%N :: reloads (clock s).
Proof.
  intros s.
  assert (Hwf : wf s) by (apply wf_mouseup, wf_blank).
  assert (Hs : scheduled s 15000) by (vm_compute; reflexivity).
  destruct (stray_mouseup_leaks s 15000 Hwf Hs) as (_ & H2 & _ & _ & H5).
  split; [exact H2 | exact H5].
Defined.

End PointerProps.

(* ===================================================================== *)
(** ** The toast *)
(* ===================================================================== *)

Module ToastProps.
Import Page PageMore TimerProps.

(** Only the hiding closure changes the toast when a timer fires. *)
Lemma frame_toast : frame isHide toastEl.
Proof.
  split; auto. intros cb s Hcb. destruct cb; try discriminate; cbn; auto.
  unfold disarmIfArmed. destruct (buttons s !! b) as [x |]; auto.
  destruct (armed x); auto.
Qed.

Lemma hideTimers_showToast (m : string) (isOk : bool) (s : page) :
  timersOf isHide (showToast m isOk s) = timersOf isHide s ++
    [{| tid := nextId (clock s); due := (time (clock s) + 4000)%N;
        every := None; run := CbHideToast |}].
Proof. unfold showToast, setTimeout. now rewrite timersOf_addTimer. Qed.

(** [showToast] never cancels the hiding timer of the toast before.  With
    none pending, the message stays for 4000 ms and is hidden exactly then.
    With one pending, the new message is hidden when that one is due, less
    than 4000 ms after it was shown. *)
Theorem toast_lifetime (s : page) (m : string) (isOk : bool) :
  wf s ->
  let s' := showToast m isOk s in
  let shown := {| toastText := m; toastOk := isOk; toastShown := true |} in
  let hidden := {| toastText := m; toastOk := isOk; toastShown := false |} in
  (timersOf isHide s = [] ->
   (forall n, (n < 4000)%N -> toastEl (advance n s') = shown) /\
   toastEl (advance 4000 s') = hidden) /\
  (forall r, r ∈ timersOf isHide s ->
     (forall t, t ∈ timersOf isHide s -> t <> r -> (due r < due t)%N) ->
     (due r < time (clock s) + 4000)%N ->
     (forall n, (time (clock s) + n < due r)%N -> toastEl (advance n s') = shown) /\
     toastEl (advance (due r - time (clock s)) s') = hidden).
Proof.
  intros Hwf s' shown hidden.
  assert (Hwf' : wf s') by (now apply wf_showToast).
  pose proof (hideTimers_showToast m isOk s) as Ht. fold s' in Ht.
  set (new := {| tid := nextId (clock s); due := (time (clock s) + 4000)%N;
                 every := None; run := CbHideToast |}) in *.
  assert (Htime : time (clock s') = time (clock s)) by reflexivity.
  split.
  - intros Hnone. rewrite Hnone in Ht. cbn [app] in Ht. split.
    + intros n Hn.
      destruct (advance_quiet isHide _ frame_toast n s' Hwf') as [Ho _];
        [| exact Ho].
      intros t Hin. rewrite Ht in Hin. apply list_elem_of_singleton in Hin as ->.
      rewrite Htime. cbn [due new]. lia.
    + destruct (advance_fire isHide _ frame_toast
                  (fun _ t => {| toastText := toastText t; toastOk := toastOk t;
                                 toastShown := false |}) new s' Hwf')
        as [Ho _].
      * intros x. reflexivity.
      * rewrite Ht. left.
      * intros t Hin Hne. rewrite Ht in Hin.
        apply list_elem_of_singleton in Hin. contradiction.
      * replace (due new - time (clock s'))%N with 4000%N in Ho
          by (rewrite Htime; cbn [due new]; lia).
        exact Ho.
  - intros r Hr Hfirst Hearly. split.
    + intros n Hn.
      destruct (advance_quiet isHide _ frame_toast n s' Hwf') as [Ho _];
        [| exact Ho].
      intros t Hin. rewrite Ht in Hin. rewrite Htime.
      apply elem_of_app in Hin as [Hin | Hin].
      * destruct (decide (t = r)) as [-> | Hne]; [exact Hn |].
        specialize (Hfirst t Hin Hne). lia.
      * apply list_elem_of_singleton in Hin as ->. cbn [due new]. lia.
    + destruct (advance_fire isHide _ frame_toast
                  (fun _ t => {| toastText := toastText t; toastOk := toastOk t;
                                 toastShown := false |}) r s' Hwf')
        as [Ho _].
      * intros x. apply timersOf_elem in Hr as [Hrun _].
        destruct (run r); try discriminate. reflexivity.
      * rewrite Ht. apply elem_of_app. now left.
      * intros t Hin Hne. rewrite Ht in Hin.
        apply elem_of_app in Hin as [Hin | Hin]; [now apply Hfirst |].
        apply list_elem_of_singleton in Hin as ->. exact Hearly.
      * rewrite Htime in Ho. exact Ho.
Qed.

(** A toast shown on a fresh detail page, and a second one 3 s later. *)
Lemma toast_lifetime_witness :
  let s := loadDetail ∅ in
  let s1 := advance 3000 (showToast "first" true s) in
  toastEl (advance 4000 (showToast "first" true s))
    = {| toastText := "first"; toastOk := true; toastShown := false |} /\
  toastEl (advance (4000 - time (clock s1)) (showToast "second" false s1))
    = {| toastText := "second"; toastOk := false; toastShown := false |}.
Proof.
  intros s s1.
  assert (Hwf : wf s) by (apply wf_mouseup, wf_blank).
  assert (Hwf1 : wf s1) by (apply advance_wf, wf_showToast, Hwf).
  assert (Hnone : timersOf isHide s = []) by (vm_compute; reflexivity).
  assert (H1 : timersOf isHide s1
               = [{| tid := 2; due := 4000; every := None; run := CbHideToast |}])
    by (vm_compute; reflexivity).
  split.
  - exact (proj2 (proj1 (toast_lifetime s "first" true Hwf) Hnone)).
  - apply (proj2 (toast_lifetime s1 "second" false Hwf1)
             {| tid := 2; due := 4000; every := None; run := CbHideToast |}).
    + rewrite H1. left.
    + intros t Ht Hne. rewrite H1 in Ht.
      apply list_elem_of_singleton in Ht. contradiction.
    + vm_compute. reflexivity.
Defined.

End ToastProps.

(* ===================================================================== *)
(** ** Requests of the Action Dispatcher *)
(* ===================================================================== *)

Module RequestProps.
Import Page PageMore TimerProps.

(** *** A busy button *)

Lemma mutations_poll (ws : string) (k : awaiting) (s : page) :
  mutations (fetch (GetCreationLog ws) k s) = mutations s.
Proof.
  unfold mutations. cbn. rewrite filter_app, filter_cons_False, filter_nil.
  - apply app_nil_r.
  - cbn. discriminate.
Qed.

Lemma mutations_fetch (r : request) (k : awaiting) (s : page) :
  mutating (nextReq (net s), r) = true ->
  mutations (fetch r k s) = mutations s ++ [(nextReq (net s), r)].
Proof.
  intros Hr. unfold mutations. cbn.
  rewrite filter_app, filter_cons_True by exact Hr. reflexivity.
Qed.

(** No closure run by a timer sends a mutating request or enables a
    button. *)
Lemma frame_busy (b : nat) :
  frame noCallback (fun s => (mutations s, disabled <$> buttons s !! b)).
Proof.
  split; auto. intros cb s _. destruct cb as [| | | b' | ws]; cbn [call]; auto.
  - unfold disarmIfArmed. destruct (buttons s !! b') as [x |] eqn:Hb'; auto.
    destruct (armed x); auto. cbn. f_equal.
    destruct (decide (b' = b)) as [-> | Hne].
    + rewrite lookup_alter_eq, Hb'. reflexivity.
    + now rewrite lookup_alter_ne.
  - now rewrite mutations_poll.
Qed.

(** Time, the pointer and clicks on a disabled button send nothing and
    leave the button disabled. *)
Lemma busy_step (b : nat) (e : event) (s : page) :
  wf s -> aroundButton b e = true ->
  disabled <$> buttons s !! b = Some true ->
  mutations (step e s) = mutations s /\
  disabled <$> buttons (step e s) !! b = Some true.
Proof.
  intros Hwf He Hb.
  assert (Hc : clickable b s = false).
  { unfold clickable. destruct (buttons s !! b) as [x |]; [| reflexivity].
    cbn in Hb. injection Hb as ->. reflexivity. }
  destruct e; try discriminate He; cbn [step].
  - destruct (advance_quiet noCallback _ (frame_busy b) ms s Hwf) as [Ho _].
    + intros t Ht. apply timersOf_elem in Ht as [Hf _]. discriminate.
    + inversion Ho as [[Hm Hd]]. rewrite Hd. auto.
  - auto.
  - auto.
  - cbn in He. apply bool_decide_eq_true in He as ->. rewrite Hc. auto.
  - cbn in He. apply bool_decide_eq_true in He as ->. rewrite Hc. auto.
Qed.

Lemma busy_play (b : nat) (es : list event) (s : page) :
  wf s -> Forall (fun e => aroundButton b e = true) es ->
  disabled <$> buttons s !! b = Some true ->
  mutations (play es s) = mutations s /\
  disabled <$> buttons (play es s) !! b = Some true.
Proof.
  intros Hwf Hes. revert s Hwf.
  induction Hes as [| e es He _ IH]; intros s Hwf Hb; [auto |].
  cbn [play foldl]. fold (play es (step e s)).
  destruct (busy_step b e s Hwf He Hb) as [Hm Hd].
  destruct (IH (step e s) (wf_step_event e s Hwf) Hd) as [Hm' Hd'].
  rewrite Hm', Hm. auto.
Qed.

(** A click on an enabled action button, or on an armed delete button,
    sends one request; until that request settles the button is disabled,
    and however often it is clicked, and however much time passes, no second
    request is sent. *)
Theorem busy_button_sends_once (s : page) (b : nat) (x : button)
    (es : list event) :
  wf s -> buttons s !! b = Some x -> disabled x = false ->
  Forall (fun e => aroundButton b e = true) es ->
  (forall a p,
     let s' := play (ClickAction b a p :: es) s in
     mutations s' = mutations s ++ [(nextReq (net s), PostAction a p)] /\
     disabled <$> buttons s' !! b = Some true) /\
  (forall name pod uid, armed x = true ->
     let s' := play (ClickDelete b name pod uid :: es) s in
     mutations s' = mutations s ++ [(nextReq (net s), PostDelete name pod uid)] /\
     disabled <$> buttons s' !! b = Some true).
Proof.
  intros Hwf Hb Hd Hes.
  assert (Hc : clickable b s = true).
  { unfold clickable. now rewrite Hb, Hd. }
  split.
  - intros a p. cbn zeta. cbn [play foldl]. fold (play es (step (ClickAction b a p) s)).
    assert (Hstep : step (ClickAction b a p) s
                    = fetch (PostAction a p) (InDoAction b (textContent x))
                        (updButton b (setBusy (if decide (a = "stop")
                                               then "Stopping..." else "Starting...")) s)).
    { cbn [step]. rewrite Hc. unfold doAction. now rewrite Hb. }
    destruct (busy_play b es (step (ClickAction b a p) s)) as [Hm Hd'].
    + now apply wf_step_event.
    + exact Hes.
    + rewrite Hstep. cbn. rewrite lookup_alter_eq, Hb. reflexivity.
    + rewrite Hm, Hd', Hstep. split; [| reflexivity].
      now rewrite mutations_fetch.
  - intros name pod uid Ha. cbn zeta. cbn [play foldl].
    fold (play es (step (ClickDelete b name pod uid) s)).
    assert (Hstep : step (ClickDelete b name pod uid) s = doDelete b name pod uid s).
    { cbn [step]. rewrite Hc. unfold confirmDelete. now rewrite Hb, Ha. }
    destruct (busy_play b es (step (ClickDelete b name pod uid) s)) as [Hm Hd'].
    + now apply wf_step_event.
    + exact Hes.
    + rewrite Hstep. cbn. rewrite lookup_alter_eq, Hb. reflexivity.
    + rewrite Hm, Hd', Hstep. split; [| reflexivity].
      unfold doDelete. now rewrite mutations_fetch.
Qed.

(** "Stop" is clicked three times in a row on the detail page. *)
Lemma busy_button_sends_once_witness :
  let s := loadDetail {[ 3%nat := freshButton "Stop" "btn btn-red" ]} in
  mutations (play [ClickAction 3 "stop" "pod"; ClickAction 3 "stop" "pod";
                   Elapse 700; ClickAction 3 "stop" "pod"] s)
    = mutations s ++ [(nextReq (net s), PostAction "stop" "pod")].
Proof.
  intros s.
  assert (Hwf : wf s) by (apply wf_mouseup, wf_blank).
  assert (Hb : buttons s !! 3%nat = Some (freshButton "Stop" "btn btn-red"))
    by (vm_compute; reflexivity).
  assert (Hes : Forall (fun e => aroundButton 3 e = true)
                  [ClickAction 3 "stop" "pod"; Elapse 700;
                   ClickAction 3 "stop" "pod"]).
  { apply Forall_cons. split; [reflexivity |].
    apply Forall_cons. split; [reflexivity |].
    apply Forall_singleton. reflexivity. }
  exact (proj1 (proj1 (busy_button_sends_once s 3%nat _ _ Hwf Hb eq_refl Hes)
                  "stop" "pod")).
Defined.

(** *** After a success *)

(** Only the closure of a successful delete on the detail page leaves
    for the listing. *)
Lemma frame_homes : frame isGoHome (fun s => homes (clock s)).
Proof.
  split; auto. intros cb s Hcb. destruct cb; try discriminate; cbn; auto.
  unfold disarmIfArmed. destruct (buttons s !! b) as [x |]; auto.
  destruct (armed x); auto.
Qed.

(** A successful start or stop leaves the button disabled with its
    progress label and reloads the page: with no other reload due in the
    next 2000 ms, not before 2000 ms have passed and exactly then. *)
Theorem action_success_reloads (s : page) (b rid : nat) (lbl : string)
    (d : reply) :
  wf s -> awaitingOf rid s = Some (InDoAction b lbl) -> ok d = true ->
  (forall t, t ∈ reloadTimers s -> (time (clock s) + 2000 < due t)%N) ->
  let s' := play [Settle rid (Replied d)] s in
  buttons s' = buttons s /\
  toastEl s' = {| toastText := message d; toastOk := true; toastShown := true |} /\
  (forall n, (n < 2000)%N ->
     reloads (clock (advance n s')) = reloads (clock s)) /\
  reloads (clock (advance 2000 s')) = (time (clock s) + 2000)%N :: reloads (clock s).
Proof.
  intros Hwf Hk Hok Hlater. cbn [play foldl step].
  rewrite (settle_awaiting rid _ _ s Hk). cbn [resume]. rewrite Hok.
  set (s' := setTimeout CbReload 2000 _).
  set (r := {| tid := S (nextId (clock s)); due := (time (clock s) + 2000)%N;
               every := None; run := CbReload |}).
  assert (Ht : timersOf isReload s' = reloadTimers s ++ [r]).
  { unfold s', setTimeout, showToast, setTimeout.
    rewrite !timersOf_addTimer. cbn [isReload]. rewrite app_nil_r. reflexivity. }
  assert (Hwf' : wf s').
  { apply wf_setTimeout; [lia |]. apply wf_showToast.
    apply (wf_same_clock s); [reflexivity | exact Hwf]. }
  split; [reflexivity |]. split; [reflexivity |]. split.
  - intros n Hn.
    destruct (advance_quiet isReload _ frame_reloads n s' Hwf') as [Ho _];
      [| exact Ho].
    intros t Hin. rewrite Ht in Hin. change (time (clock s')) with (time (clock s)).
    apply elem_of_app in Hin as [Hin | Hin].
    + specialize (Hlater t Hin). lia.
    + apply list_elem_of_singleton in Hin as ->. cbn [due r]. lia.
  - destruct (advance_fire isReload _ frame_reloads
                (fun tm l => tm :: l) r s' Hwf') as [Ho _].
    + intros x. reflexivity.
    + rewrite Ht. apply elem_of_app. right. left.
    + intros t Hin Hne. rewrite Ht in Hin.
      apply elem_of_app in Hin as [Hin | Hin].
      * now apply Hlater.
      * apply list_elem_of_singleton in Hin. contradiction.
    + replace (due r - time (clock s'))%N with 2000%N in Ho
        by (change (time (clock s')) with (time (clock s)); cbn [due r]; lia).
      exact Ho.
Qed.

Lemma action_success_reloads_witness :
  let s := play [ClickAction 3 "stop" "pod"]
             (loadDetail {[ 3%nat := freshButton "Stop" "btn btn-red" ]}) in
  let d := {| ok := true; message := "Stopped"; lines := None; status := "";
              creating := false |} in
  awaitingOf 1 s = Some (InDoAction 3 "Stop") /\
  reloads (clock (advance 2000 (play [Settle 1 (Replied d)] s)))
    = (time (clock s) + 2000)%N :: reloads (clock s).
Proof.
  intros s d.
  assert (Hk : awaitingOf 1 s = Some (InDoAction 3 "Stop"))
    by (vm_compute; reflexivity).
  assert (Hwf : wf s) by (apply wf_play, wf_mouseup, wf_blank).
  assert (Hr : reloadTimers s
               = [{| tid := 1; due := 15000; every := Some 15000%N;
                     run := CbReload |}]) by (vm_compute; reflexivity).
  split; [exact Hk |].
  apply (action_success_reloads s 3%nat 1%nat "Stop" d Hwf Hk eq_refl).
  intros t Ht. rewrite Hr in Ht. apply list_elem_of_singleton in Ht. subst t.
  vm_compute. reflexivity.
Defined.

(** A successful delete on the detail page never reloads the deleted
    workspace's page by itself: it adds no reloading timer, and leaves for
    the listing 2000 ms later, not before and exactly then (no earlier
    delete being about to do the same). *)
Theorem detail_delete_goes_home (s : page) (b rid : nat) (d : reply) :
  wf s -> kind s = Detail ->
  awaitingOf rid s = Some (InDoDelete b) -> ok d = true ->
  timersOf isGoHome s = [] ->
  let s' := play [Settle rid (Replied d)] s in
  reloadTimers s' = reloadTimers s /\
  buttons s' = buttons s /\
  (forall n, (n < 2000)%N -> homes (clock (advance n s')) = homes (clock s)) /\
  homes (clock (advance 2000 s')) = (time (clock s) + 2000)%N :: homes (clock s).
Proof.
  intros Hwf Hkind Hk Hok Hnone. cbn [play foldl step].
  rewrite (settle_awaiting rid _ _ s Hk). cbn [resume]. rewrite Hok.
  change (kind (upd_net (finish rid) s)) with (kind s). rewrite Hkind.
  set (s' := setTimeout CbGoHome 2000 _).
  set (r := {| tid := S (nextId (clock s)); due := (time (clock s) + 2000)%N;
               every := None; run := CbGoHome |}).
  assert (Ht : timersOf isGoHome s' = [r]).
  { unfold s', setTimeout, showToast, setTimeout.
    rewrite !timersOf_addTimer. cbn [isGoHome]. rewrite app_nil_r.
    change (timersOf isGoHome (set_toast _ (upd_net _ s)))
      with (timersOf isGoHome s). now rewrite Hnone. }
  assert (Hwf' : wf s').
  { apply wf_setTimeout; [lia |]. apply wf_showToast.
    apply (wf_same_clock s); [reflexivity | exact Hwf]. }
  split.
  { unfold s', reloadTimers, setTimeout, showToast, setTimeout.
    rewrite !timersOf_addTimer. cbn [isReload]. now rewrite !app_nil_r. }
  split; [reflexivity |]. split.
  - intros n Hn.
    destruct (advance_quiet isGoHome _ frame_homes n s' Hwf') as [Ho _];
      [| exact Ho].
    intros t Hin. rewrite Ht in Hin. apply list_elem_of_singleton in Hin as ->.
    change (time (clock s')) with (time (clock s)). cbn [due r]. lia.
  - destruct (advance_fire isGoHome _ frame_homes
                (fun tm l => tm :: l) r s' Hwf') as [Ho _].
    + intros x. reflexivity.
    + rewrite Ht. left.
    + intros t Hin Hne. rewrite Ht in Hin.
      apply list_elem_of_singleton in Hin. contradiction.
    + replace (due r - time (clock s'))%N with 2000%N in Ho
        by (change (time (clock s')) with (time (clock s)); cbn [due r]; lia).
      exact Ho.
Qed.

Lemma detail_delete_goes_home_witness :
  let s := play [ClickDelete 8 "ws" "pod" "uid"; ClickDelete 8 "ws" "pod" "uid"]
             (loadDetail {[ 8%nat := freshButton "Delete" "btn btn-outline-red" ]}) in
  let d := {| ok := true; message := "Deleted"; lines := None; status := "";
              creating := false |} in
  awaitingOf 1 s = Some (InDoDelete 8) /\
  homes (clock (advance 2000 (play [Settle 1 (Replied d)] s)))
    = (time (clock s) + 2000)%N :: homes (clock s).
Proof.
  intros s d.
  assert (Hk : awaitingOf 1 s = Some (InDoDelete 8)) by (vm_compute; reflexivity).
  assert (Hwf : wf s) by (apply wf_play, wf_mouseup, wf_blank).
  assert (Hnone : timersOf isGoHome s = []) by (vm_compute; reflexivity).
  split; [exact Hk |].
  apply (detail_delete_goes_home s 8%nat 1%nat d Hwf eq_refl Hk eq_refl Hnone).
Defined.

End RequestProps.

(* ===================================================================== *)
(** ** More on the usage charts *)
(* ===================================================================== *)

Module ChartMoreProps.
Import Js Charts ChartProps.

(** A series of one sample: whatever the sample, it is drawn as the
    single point at the bottom left of the plot area, and the polygon
    under it has no width. *)
Theorem sparkline_single_sample (t v : Z) (unit : string) :
  renderSparkline [(t, v)] unit
    = Some {| fillPts := "1.0,40 1.0,39.0 1.0,40";
              points := "1.0,39.0";
              valText := withUnit unit v;
              minText := "min: " +:+ withUnit unit v;
              maxText := "max: " +:+ withUnit unit v |}.
Proof.
  unfold renderSparkline, plot.
  cbn [fmap list_fmap snd imap length Math_min Math_max foldl List.last].
  assert (Hy : (pointY v (or1 (v - v)) v == 39)%Q).
  { destruct (pointY_range v v v ltac:(lia)) as (_ & _ & Hlo & _). now apply Hlo. }
  assert (Hx : (pointX 1 0 == 1)%Q) by reflexivity.
  unfold pointText. cbn [fst snd Nat.sub].
  rewrite (toFixed_proper 1 _ _ Hy), (toFixed_proper 1 _ _ Hx).
  reflexivity.
Qed.

(** The text of a non-negative quotient [b/u] without decimals: the
    integer [n] with [n - 1/2 <= b/u < n + 1/2]. *)
Lemma toFixed0_quotient (b u : Z) :
  0 <= b -> 0 < u ->
  exists n,
    toFixed 0 (inject_Z b / inject_Z u) = numToString n /\
    2 * u * n <= 2 * b + u < 2 * u * (n + 1).
Proof.
  intros Hb Hu. unfold toFixed.
  assert (Hq : (inject_Z b / inject_Z u == b # Z.to_pos u)%Q).
  { destruct u as [| u | u]; try lia. unfold Qeq, Qdiv, Qmult, Qinv, inject_Z.
    simpl. lia. }
  destruct (Qlt_le_dec (inject_Z b / inject_Z u) 0) as [Hneg | _].
  { exfalso. rewrite Hq in Hneg. unfold Qlt in Hneg. simpl in Hneg. lia. }
  exists (nearest ((b # Z.to_pos u) * inject_Z (10 ^ Z.of_nat 0))). split.
  - cbn [fixedDigits]. f_equal. apply nearest_proper. now rewrite Hq.
  - pose proof (nearest_bounds ((b # Z.to_pos u) * inject_Z (10 ^ Z.of_nat 0)))
      as Hn.
    cbn [Qmult Qnum Qden inject_Z Z.of_nat Z.pow Z.pow_pos Pos.iter] in Hn.
    rewrite Pos.mul_1_r, Z2Pos.id in Hn by lia.
    lia.
Qed.

(** Rounding can carry the number shown to 1024 without changing the
    unit: in the Ki range the number lies between 1 and 1024 and is 1024
    from 1048064 bytes on, and likewise in the Mi range from 1073217536
    bytes on. *)
Theorem formatBytes_rounds_to_1024 (b : Z) :
  (1024 <= b < 1024 ^ 2 ->
     exists n, formatBytes b = numToString n +:+ "Ki" /\
               1 <= n <= 1024 /\ (n = 1024 <-> 1048064 <= b)) /\
  (1024 ^ 2 <= b < 1024 ^ 3 ->
     exists n, formatBytes b = numToString n +:+ "Mi" /\
               1 <= n <= 1024 /\ (n = 1024 <-> 1073217536 <= b)).
Proof.
  change (1024 ^ 2) with 1048576. change (1024 ^ 3) with 1073741824.
  split; intros Hb; unfold formatBytes; repeat case_decide; try lia.
  - destruct (toFixed0_quotient b 1024) as (n & -> & Hn); try lia.
    exists n. split; [reflexivity |]. lia.
  - destruct (toFixed0_quotient b 1048576) as (n & -> & Hn); try lia.
    exists n. split; [reflexivity |]. lia.
Qed.

Lemma formatBytes_rounds_to_1024_witness :
  exists n, formatBytes 1048575 = numToString n +:+ "Ki" /\
            1 <= n <= 1024 /\ (n = 1024 <-> 1048064 <= 1048575).
Proof.
  apply (proj1 (formatBytes_rounds_to_1024 1048575)). lia.
Defined.

End ChartMoreProps.



(* ===================================================================== *)
(** ** Properties of the theme *)
(* ===================================================================== *)

Module ThemeProps.
Import Theme.

Lemma toggles_cons (e : themeEvent) (es : list themeEvent) :
  toggles (e :: es) = if isToggle e then S (toggles es) else toggles es.
Proof.
  unfold toggles. rewrite filter_cons. destruct (isToggle e); reflexivity.
Qed.

Lemma themePlay_named (es : list themeEvent) (th : theme) (b : bool) :
  attr th = (if b then "dark" else "light") -> stored th = Some (attr th) ->
  let th' := themePlay es th in
  stored th' = Some (attr th') /\
  attr th' = if xorb b (Nat.odd (toggles es)) then "dark" else "light".
Proof.
  revert th b. induction es as [| e es IH]; intros th b Ha Hs; cbn zeta.
  - cbn. rewrite xorb_false_r. auto.
  - change (themePlay (e :: es) th) with (themePlay es (themeStep e th)).
    rewrite toggles_cons. destruct e as [| dark]; cbn [isToggle themeStep].
    + destruct (IH (toggleTheme th) (negb b)) as [Hs' Ha'].
      * unfold toggleTheme. cbn. rewrite Ha. destruct b; reflexivity.
      * reflexivity.
      * split; [exact Hs' |]. rewrite Ha'. rewrite Nat.odd_succ, <- Nat.negb_odd.
        destruct b, (Nat.odd (toggles es)); reflexivity.
    + apply IH.
      * unfold themeInit. cbn. rewrite Hs, Ha. destruct b; reflexivity.
      * unfold themeInit. cbn. rewrite Hs, Ha. destruct b; reflexivity.
Qed.

(** Once the toggle has been clicked, the theme is dark or light, it is
    what the local storage holds, and no reload changes it, whatever the
    preference of the system: after the first click it is light when the
    theme was dark and dark otherwise, and every further click flips it. *)
Theorem theme_survives_reload (th : theme) (es : list themeEvent) :
  let th' := themePlay (Toggle :: es) th in
  stored th' = Some (attr th') /\
  attr th' = if xorb (bool_decide (attr th = "dark")) (Nat.odd (toggles es))
             then "light" else "dark".
Proof.
  cbn zeta.
  change (themePlay (Toggle :: es) th) with (themePlay es (toggleTheme th)).
  destruct (themePlay_named es (toggleTheme th)
              (negb (bool_decide (attr th = "dark")))) as [Hs Ha].
  - unfold toggleTheme. cbn. case_decide as Hd.
    + rewrite bool_decide_eq_true_2 by exact Hd. reflexivity.
    + rewrite bool_decide_eq_false_2 by exact Hd. reflexivity.
  - reflexivity.
  - split; [exact Hs |]. rewrite Ha.
    destruct (bool_decide (attr th = "dark")), (Nat.odd (toggles es)); reflexivity.
Qed.

End ThemeProps.

(* ===================================================================== *)
(** ** Properties of the names handed to the script *)
(* ===================================================================== *)

Module EscapingProps.
Import Escaping.

Lemma append_cons (x : Ascii.ascii) (a b : string) :
  String x a +:+ b = String x (a +:+ b).
Proof. reflexivity. Qed.

Lemma append_nil (b : string) : "" +:+ b = b.
Proof. reflexivity. Qed.

Lemma escJs_cons (x : Ascii.ascii) (r : string) :
  escJs (String x r) =
    if decide (x = backslash) then String backslash (String backslash (escJs r))
    else if decide (x = quote) then String backslash (String quote (escJs r))
    else String x (escJs r).
Proof.
  unfold escJs. cbn [replaceChar].
  destruct (decide (x = backslash)) as [-> | Hb].
  - rewrite !append_cons, append_nil. cbn [replaceChar].
    rewrite !decide_False by discriminate. reflexivity.
  - cbn [replaceChar]. destruct (decide (x = quote)) as [-> | Hq].
    + rewrite !append_cons, append_nil. reflexivity.
    + reflexivity.
Qed.

(** Read as the body of a single-quoted literal, the escaped name
    denotes the name itself, backslashes and quotes included, when the name
    has no line end. *)
Theorem escaped_name_round_trip (name : string) :
  lineFeed ∉ chars name -> carriageReturn ∉ chars name ->
  literalValue (wsNameLiteral name) = Some name.
Proof.
  unfold wsNameLiteral.
  induction name as [| x r IH]; intros Hlf Hcr; [reflexivity |].
  cbn [chars] in Hlf, Hcr. apply not_elem_of_cons in Hlf as [Hlf Hlf'].
  apply not_elem_of_cons in Hcr as [Hcr Hcr'].
  specialize (IH Hlf' Hcr'). rewrite escJs_cons.
  destruct (decide (x = backslash)) as [-> | Hb].
  - cbn [literalValue]. rewrite decide_True by reflexivity.
    rewrite decide_True by (now left). rewrite IH. reflexivity.
  - destruct (decide (x = quote)) as [-> | Hq].
    + cbn [literalValue]. rewrite decide_True by reflexivity.
      rewrite decide_True by (now right). rewrite IH. reflexivity.
    + cbn [literalValue]. rewrite decide_False by exact Hb.
      rewrite decide_False by (intros [? | [? | ?]]; congruence).
      rewrite IH. reflexivity.
Qed.

Lemma escaped_name_round_trip_witness :
  let name := String quote (String backslash "ws") in
  literalValue (wsNameLiteral name) = Some name.
Proof.
  intros name. apply (escaped_name_round_trip name).
  - vm_compute. intros H. repeat (apply elem_of_cons in H as [H | H]; [discriminate |]).
    inversion H.
  - vm_compute. intros H. repeat (apply elem_of_cons in H as [H | H]; [discriminate |]).
    inversion H.
Defined.

Lemma literalValue_length (s v : string) :
  literalValue s = Some v -> (String.length v <= String.length s)%nat.
Proof.
  remember (String.length s) as n eqn:Hn. revert s v Hn.
  induction n as [n IH] using lt_wf_ind. intros s v -> Hv.
  destruct s as [| c r]; [injection Hv as <-; cbn; lia |].
  cbn [literalValue] in Hv. destruct (decide (c = backslash)).
  - destruct r as [| d r']; [discriminate |].
    destruct (decide (d = backslash \/ d = quote)); [| discriminate].
    destruct (literalValue r') as [v' |] eqn:Hr'; [| discriminate].
    injection Hv as <-. cbn [String.length].
    specialize (IH (String.length r') ltac:(cbn; lia) r' v' eq_refl Hr'). lia.
  - destruct (decide (c = quote \/ c = lineFeed \/ c = carriageReturn));
      [discriminate |].
    destruct (literalValue r) as [v' |] eqn:Hr; [| discriminate].
    injection Hv as <-. cbn [String.length].
    specialize (IH (String.length r) ltac:(cbn; lia) r v' eq_refl Hr). lia.
Qed.

(** The name that is handed over as it is denotes itself exactly when
    it has no backslash, no quote and no line end. *)
Theorem raw_name_literal (name : string) :
  literalValue (pollLiteral name) = Some name <->
  Forall (fun c => c ∉ [backslash; quote; lineFeed; carriageReturn])
         (chars name).
Proof.
  unfold pollLiteral. induction name as [| c r IH]; [split; auto; constructor |].
  cbn [literalValue chars]. split.
  - intros Hv. destruct (decide (c = backslash)) as [-> | Hb].
    + exfalso. destruct r as [| d r']; [discriminate |].
      destruct (decide (d = backslash \/ d = quote)); [| discriminate].
      destruct (literalValue r') as [v' |] eqn:Hr'; [| discriminate].
      cbn in Hv. injection Hv as _ Hv. subst v'.
      apply literalValue_length in Hr'. cbn in Hr'. lia.
    + destruct (decide (c = quote \/ c = lineFeed \/ c = carriageReturn))
        as [Hc | Hc]; [discriminate |].
      destruct (literalValue r) as [v' |] eqn:Hr; [| discriminate].
      cbn in Hv. injection Hv as ->. apply Forall_cons. split.
      * intros Hin. repeat (apply elem_of_cons in Hin as [Hin | Hin]; [tauto |]).
        inversion Hin.
      * now apply IH.
  - intros Hall. apply Forall_cons in Hall as [Hc Hall].
    apply IH in Hall.
    rewrite decide_False by (intros ->; apply Hc; left).
    rewrite decide_False.
    + rewrite Hall. reflexivity.
    + intros [-> | [-> | ->]]; apply Hc.
      * right. left.
      * right. right. left.
      * right. right. right. left.
Qed.

End EscapingProps.

(* ===================================================================== *)
(** ** Properties of the schedule card *)
(* ===================================================================== *)

Module ScheduleProps.
Import Js Page Schedules.







(** Any answer to a removal that can be read, a refusal included,
    clears the row, and a save of that row then asks for a time and posts
    nothing; the other row stays as it is.  A rejected removal leaves both
    rows as they are. *)
Theorem remove_clears_row (wsName podName : string) (start : bool) (c : card)
    (d : reply) :
  let c1 := removeSettled start (Replied d) (removeSchedule wsName start c) in
  let c2 := saveSchedule wsName podName start c1 in
  requests c1 = requests c ++ [PostRemove wsName (actionName start)] /\
  rowOf start c1 = {| timeValue := ""; checkedDays := ∅ |} /\
  rowOf (negb start) c1 = rowOf (negb start) c /\
  toastEl (cdoc c1) = {| toastText := message d; toastOk := ok d;
                         toastShown := true |} /\
  requests c2 = requests c1 /\
  toastEl (cdoc c2) = {| toastText := "Set a time first"; toastOk := false;
                         toastShown := true |} /\
  let c3 := removeSettled start Rejected (removeSchedule wsName start c) in
  startRow c3 = startRow c /\ stopRow c3 = stopRow c /\
  toastEl (cdoc c3) = {| toastText := "Failed"; toastOk := false;
                         toastShown := true |}.
Proof.
  cbn zeta. destruct start; cbn; repeat split; reflexivity.
Qed.

End ScheduleProps.
